(** * sparql-engine: solution mappings, BGP joins, expressions and the plan builder

    A shallow embedding of the execution core of sparql-engine 0.8.3:
    - [rdf/bindings.ts]                      (module [Bindings])
    - [operators/join/index-join.ts]         ([indexJoin])
    - [operators/bind.ts]                    ([bind])
    - [operators/expressions/sparql-expression.ts] ([SPARQLExpression])
    - [engine/stages/bgp-stage-builder.ts]   ([bgpEvaluation], [_buildIterator],
                                              [_buildFullTextSearchIterator])
    - [engine/plan-builder.ts]               ([useCache], [_buildQueryPlan],
                                              [_buildWhere], [_buildValues])
    - [formatters/xml-formatter.ts]          ([_writeBindings])
    - [tests/utils.js]                       ([N3Graph])

    JavaScript objects are modelled with their identity where the code
    compares them with [===]; maps keyed by strings are [gmap string _];
    a function that can throw returns a [Completion]; a lazy sequence is
    the [PipelineStage] its sink observes.  Modules of the engine that the
    embedded functions call but that are not embedded themselves (stage
    builders, operator tables, the cache) appear as records of functions.

    The definitions come first; the statements about them follow, one
    section per group of functions. *)

From Stdlib Require Import ZArith QArith Ascii String Permutation Sorted.
From stdpp Require Import gmap strings list fin_maps.

Set Warnings "-register-all".

Open Scope string_scope.
Open Scope list_scope.

(** ** Errors *)

Inductive Error :=
| SyntaxError (message : string)
| GenericError (message : string).

(** The outcome of a call that either returns or throws. *)
Inductive Completion (A : Type) :=
| Return (value : A)
| Throw (e : Error).
Arguments Return {A} value.
Arguments Throw {A} e.

#[global] Instance Completion_bind : MBind Completion := fun A B k c =>
  match c with
  | Return a => k a
  | Throw e => Throw e
  end.

(** ** RDF terms *)

(** The content of an RDF/JS term, discriminated by [termType]; a property
    path stands where sparqljs allows one in the predicate position. *)
Inductive TermData :=
| NamedNode (value : string)
| BlankNode (value : string)
| Literal (value language datatype : string)
| Var (value : string)   (* termType Variable *)
| Quad
| PropertyPath (pathType : string).

#[global] Instance TermData_eq_dec : EqDecision TermData.
Proof. solve_decision. Defined.

(** A term is a JavaScript object: [oid] is its identity, [node] what it
    holds.  [a === b] is equality of the objects, [a.equals(b)] equality of
    what they hold. *)
Record Term := mkTerm { oid : N; node : TermData }.

#[global] Instance Term_eq_dec : EqDecision Term.
Proof. solve_decision. Defined.

Module rdf.

Definition isVariable (t : Term) : bool :=
  match node t with Var _ => true | _ => false end.
Definition isBlankNode (t : Term) : bool :=
  match node t with BlankNode _ => true | _ => false end.
Definition isLiteral (t : Term) : bool :=
  match node t with Literal _ _ _ => true | _ => false end.
Definition isQuad (t : Term) : bool :=
  match node t with Quad => true | _ => false end.
Definition isPropertyPath (t : Term) : bool :=
  match node t with PropertyPath _ => true | _ => false end.

(** [term.value] *)
Definition value (t : Term) : string :=
  match node t with
  | NamedNode v | BlankNode v | Literal v _ _ | Var v => v
  | Quad => ""
  | PropertyPath _ => ""
  end.

(** [a.equals(b)] of RDF/JS. *)
Definition termEquals (a b : Term) : bool := bool_decide (node a = node b).

(** Modelled from the spec: [rdf.createUnbound] of utils/rdf.ts, the
    sentinel that serialises as the literal ["UNBOUND"]. *)
Definition UNBOUND : TermData := Literal "UNBOUND" "" "http://www.w3.org/2001/XMLSchema#string".
Definition createUnbound : Term := mkTerm 0 UNBOUND.

(** Modelled from the spec: [rdf.createVariable] of utils/rdf.ts.  The
    identity of the new object is not observed by the code below. *)
Definition createVariable (name : string) : Term := mkTerm 0 (Var name).

End rdf.

(** [a === b] on values of type [Binding | null]. *)
Definition strictEq (a b : option Term) : bool := bool_decide (a = b).

Record Triple := mkTriple { subject : Term; predicate : Term; object : Term }.

#[global] Instance Triple_eq_dec : EqDecision Triple.
Proof. solve_decision. Defined.

(** Two triples hold equal terms, position by position. *)
Definition tripleEquals (a b : Triple) : bool :=
  rdf.termEquals (subject a) (subject b)
  && rdf.termEquals (predicate a) (predicate b)
  && rdf.termEquals (object a) (object b).

(** ** Solution mappings (rdf/bindings.ts) *)

(** [BindingGroup = Map<string, Binding[]>] *)
Abbreviation BindingGroup := (gmap string (list Term)).

(** What the property bag [_properties : Map<string, unknown>] can hold. *)
Inductive PropertyValue :=
| AggregateRows (rows : BindingGroup)
| Opaque (tag : N).

(** [BindingBase]: [_content] is keyed by the variable's [value]. *)
Record Bindings := mkBindings {
_content : gmap string Term;
_properties : gmap string PropertyValue
}.

Module Bindings.

Definition empty : Bindings := mkBindings ∅ ∅.

Definition size (this : Bindings) : nat := base.size (_content this).
Definition isEmpty (this : Bindings) : bool := Nat.eqb (size this) 0.

(** [variables()] wraps every key with [rdf.createVariable]; the callers
    below only read [.value] back, so the keys are returned. *)
Definition variables (this : Bindings) : list string :=
  (map_to_list (_content this)).*1.

Definition values (this : Bindings) : list Term :=
  (map_to_list (_content this)).*2.

(** [get(variable)], with [null] as [None]. *)
Definition get (this : Bindings) (variable : string) : option Term :=
  _content this !! variable.

(** [has(variable: rdf.Term)]: false for anything that is not a variable. *)
Definition has (this : Bindings) (variable : Term) : bool :=
  match node variable with
  | Var v => bool_decide (is_Some (_content this !! v))
  | _ => false
  end.

Definition hasVariable (this : Bindings) (variable : string) : bool :=
  bool_decide (is_Some (_content this !! variable)).

Definition getBound (this : Bindings) (variable : string) : Completion Term :=
  match _content this !! variable with
  | Some binding =>
      if negb (rdf.isVariable binding) then Return binding
      else Throw (GenericError "Variable is not bound")
  | None => Throw (GenericError "Variable is not bound")
  end.

Definition set (this : Bindings) (variable : string) (value : Term) : Bindings :=
  mkBindings (<[variable := value]> (_content this)) (_properties this).

Definition getProperty (this : Bindings) (key : string) : option PropertyValue :=
  _properties this !! key.
Definition hasProperty (this : Bindings) (key : string) : bool :=
  bool_decide (is_Some (_properties this !! key)).
Definition setProperty (this : Bindings) (key : string) (value : PropertyValue) : Bindings :=
  mkBindings (_content this) (<[key := value]> (_properties this)).

Definition clear (this : Bindings) : Bindings := mkBindings ∅ (_properties this).

(** [clone()]: properties first, then every mapping, into [this.empty()]. *)
Definition clone (this : Bindings) : Bindings :=
  let cloned := empty in
  let cloned := map_fold (fun key value acc => setProperty acc key value) cloned (_properties this) in
  map_fold (fun variable value acc => set acc variable value) cloned (_content this).

(** [equals(other)] *)
Definition equals (this other : Bindings) : bool :=
  if negb (Nat.eqb (size this) (size other)) then false
  else
    forallb
      (fun variable =>
         negb (negb (hasVariable this variable)
               || negb (strictEq (get this variable) (get other variable))))
      (variables other).

(** [bound(triple)] *)
Definition bound (this : Bindings) (triple : Triple) : Triple :=
  let subject' :=
    if rdf.isVariable (subject triple) && has this (subject triple)
    then default (subject triple) (get this (rdf.value (subject triple)))
    else subject triple in
  let predicate' :=
    if negb (rdf.isPropertyPath (predicate triple))
       && rdf.isVariable (predicate triple) && has this (predicate triple)
    then default (predicate triple) (get this (rdf.value (predicate triple)))
    else predicate triple in
  let object' :=
    if rdf.isVariable (object triple) && has this (object triple)
    then default (object triple) (get this (rdf.value (object triple)))
    else object triple in
  mkTriple subject' predicate' object'.

Definition extendMany (this : Bindings) (values : list (string * Term)) : Bindings :=
  foldl (fun cloned v => set cloned v.1 v.2) (clone this) values.

(** [union(other)]: the clone of [this] receives every mapping of [other]. *)
Definition union (this other : Bindings) : Bindings :=
  map_fold (fun variable value cloned => set cloned variable value)
           (clone this) (_content other).

Definition intersection (this other : Bindings) : Bindings :=
  map_fold
    (fun variable value res =>
       if hasVariable other variable && strictEq (get other variable) (Some value)
       then set res variable value else res)
    empty (_content this).

(** [map(mapper)]: the result starts from [this.empty()], so it carries no
    property; a mapper that answers [[null, null]] drops the mapping. *)
Definition map (this : Bindings) (mapper : string → Term → option (string * Term))
  : Bindings :=
  map_fold
    (fun variable value result =>
       match mapper variable value with
       | Some (newVar, newValue) => set result newVar newValue
       | None => result
       end)
    empty (_content this).

Definition filter (this : Bindings) (predicate : string → Term → bool) : Bindings :=
  map this (fun variable value =>
              if predicate variable value then Some (variable, value) else None).

Definition difference (this other : Bindings) : Bindings :=
  filter this (fun variable value =>
                 negb (hasVariable other variable)
                 || negb (strictEq (Some value) (get other variable))).

Definition some (this : Bindings) (predicate : string → Term → bool) : bool :=
  map_fold (fun variable value res => res || predicate variable value) false (_content this).

Definition every (this : Bindings) (predicate : string → Term → bool) : bool :=
  map_fold (fun variable value res => res && predicate variable value) true (_content this).

(** [isSubset(other)] *)
Definition isSubset (this other : Bindings) : bool :=
  forallb
    (fun v => hasVariable other v && strictEq (get other v) (get this v))
    (variables this).

(** [BindingBase.fromMapping(values)]: rejects a variable, blank node,
    quad or path as the value of a binding. *)
Definition fromMapping (values : gmap string Term) : Completion Bindings :=
  if forallb
       (fun value => negb (rdf.isVariable value || rdf.isBlankNode value
                           || rdf.isQuad value || rdf.isPropertyPath value))
       (map_to_list values).*2
  then Return (mkBindings values ∅)
  else Throw (SyntaxError "Cannot use a Variable/BlankNode/Quad/Path as the value of a binding").

(** [BindingBase.fromValues(values)] *)
Definition fromValues (values : gmap string Term) : Completion Bindings :=
  if forallb
       (fun value => negb (rdf.isVariable value || rdf.isBlankNode value
                           || rdf.isQuad value))
       (map_to_list values).*2
  then Return (mkBindings values ∅)
  else Throw (SyntaxError "Cannot use a Variable/BlankNode/Quad as the value of a binding").

End Bindings.


(** ** Pipeline stages *)

(** Modelled from the spec: the pipeline engine of engine/pipeline/ (§4.1,
    §5), whose module is not among the files embedded here.  A stage is what a sink
    observes: the values pushed one at a time, closed by completion or by
    an error ("errors propagate to the sink").  Sources are consumed in
    order, so [mergeMap] lays the inner stages end to end. *)
Inductive PipelineStage (A : Type) :=
| Complete
| Next (value : A) (rest : PipelineStage A)
| Failed (e : Error).
Arguments Complete {A}.
Arguments Next {A} value rest.
Arguments Failed {A} e.

Module Pipeline.

Definition empty {A} : PipelineStage A := Complete.

Definition of_ {A} (x : A) : PipelineStage A := Next x Complete.

Fixpoint from {A} (xs : list A) : PipelineStage A :=
  match xs with
  | [] => Complete
  | x :: xs' => Next x (from xs')
  end.

(** The values of [s1], then those of [s2] unless [s1] failed. *)
Fixpoint andThen {A} (s1 s2 : PipelineStage A) : PipelineStage A :=
  match s1 with
  | Complete => s2
  | Next v rest => Next v (andThen rest s2)
  | Failed e => Failed e
  end.

(** [map(s, f)]: a callback that throws fails the stage. *)
Fixpoint map {A B} (s : PipelineStage A) (f : A → Completion B) : PipelineStage B :=
  match s with
  | Complete => Complete
  | Next v rest =>
      match f v with
      | Return b => Next b (map rest f)
      | Throw e => Failed e
      end
  | Failed e => Failed e
  end.

Fixpoint mergeMap {A B} (s : PipelineStage A) (f : A → PipelineStage B) : PipelineStage B :=
  match s with
  | Complete => Complete
  | Next v rest => andThen (f v) (mergeMap rest f)
  | Failed e => Failed e
  end.

Fixpoint filter {A} (s : PipelineStage A) (p : A → bool) : PipelineStage A :=
  match s with
  | Complete => Complete
  | Next v rest => if p v then Next v (filter rest p) else filter rest p
  | Failed e => Failed e
  end.

Definition merge {A} (ss : list (PipelineStage A)) : PipelineStage A :=
  foldr andThen Complete ss.

(** Whether the stage ends by completing rather than by an error. *)
Fixpoint completes {A} (s : PipelineStage A) : bool :=
  match s with
  | Complete => true
  | Next _ rest => completes rest
  | Failed _ => false
  end.

(** [toArray]/[collect]: the values that reached the sink. *)
Fixpoint toArray {A} (s : PipelineStage A) : list A :=
  match s with
  | Complete => []
  | Next v rest => v :: toArray rest
  | Failed _ => []
  end.

End Pipeline.

(** ** JavaScript numbers *)

(** A double as far as the code observes it: compared, tested for NaN and
    for being an integer.  Comparisons of doubles are exact, so a finite
    double is represented by the rational it denotes. *)
Inductive JSNumber :=
| NaN
| Finite (q : Q)
| PosInfinity
| NegInfinity.

Module JS.

Definition isNaN (n : JSNumber) : bool :=
  match n with NaN => true | _ => false end.

(** lodash [isInteger] *)
Definition isInteger (n : JSNumber) : bool :=
  match n with
  | Finite q => Pos.eqb (Qden (Qred q)) 1
  | _ => false
  end.

(** [a < b] *)
Definition lt (a b : JSNumber) : bool :=
  match a, b with
  | NaN, _ | _, NaN => false
  | NegInfinity, NegInfinity => false
  | NegInfinity, _ => true
  | _, NegInfinity => false
  | PosInfinity, _ => false
  | _, PosInfinity => true
  | Finite x, Finite y => (Qnum x * Zpos (Qden y) <? Qnum y * Zpos (Qden x))%Z
  end.

(** [a > b] *)
Definition gt (a b : JSNumber) : bool := lt b a.

Definition zero : JSNumber := Finite 0.

(** ASCII part of [String.prototype.toLowerCase]. *)
Definition lowerAscii (c : ascii) : ascii :=
  let n := nat_of_ascii c in
  if (65 <=? n)%nat && (n <=? 90)%nat then ascii_of_nat (n + 32) else c.

Fixpoint toLowerCase (s : string) : string :=
  match s with
  | EmptyString => EmptyString
  | String c s' => String (lowerAscii c) (toLowerCase s')
  end.

(** [s.split(' ')] *)
Fixpoint splitSpace (s : string) (current : string) : list string :=
  match s with
  | EmptyString => [current]
  | String c s' =>
      if Ascii.eqb c " "%char then current :: splitSpace s' ""
      else splitSpace s' (current ++ String c "")%string
  end.

Definition split (s : string) : list string := splitSpace s "".

(** [s.slice(start)] for a start that is not negative. *)
Definition slice (s : string) (start : nat) : string :=
  String.substring start (String.length s - start) s.

(** The string-keyed properties every plain object inherits from
    [Object.prototype]: the names [n] other than its own keys for which
    [n in o] holds of an object literal [o]. *)
Definition objectPrototypeNames : list string :=
  ["constructor"; "__defineGetter__"; "__defineSetter__"; "hasOwnProperty";
   "__lookupGetter__"; "__lookupSetter__"; "isPrototypeOf"; "propertyIsEnumerable";
   "toString"; "valueOf"; "__proto__"; "toLocaleString"].

(** [s.substring(start)] *)
Definition substring (s : string) (start : nat) : string :=
  String.substring start (String.length s - start) s.

End JS.

(** ** Execution context and cache handle *)

(** The cache installed on a plan builder.  Only what [useCache] decides is
    kept: which implementation, and the two constructor arguments of
    [LRUBGPCache(maxSize, maxAge)]. *)
Inductive BGPCache :=
| LRUBGPCache (maxSize maxAge : Z)
| CustomCache (id : N).

Module ContextSymbols.
Definition PREFIXES : string := "PREFIXES".
Definition HAS_LIMIT_OFFSET : string := "HAS_LIMIT_OFFSET".
Definition FORCE_INDEX_JOIN : string := "FORCE_INDEX_JOIN".
End ContextSymbols.

Inductive ContextValue :=
| CBool (b : bool)
| CPrefixes (prefixes : gmap string string)
| CAny (tag : N).

(** Modelled from the spec: the execution context of
    engine/context/execution-context.ts (§3): active default and named
    graphs, query hints, the current cache pointer and a property bag that
    holds the LIMIT/OFFSET flag and the option flags. *)
Record ExecutionContext := mkContext {
  ctx_properties : gmap string ContextValue;
  hints : list Triple;
  defaultGraphs : list Term;
  namedGraphs : list Term;
  cache : option BGPCache
}.

Module ExecutionContext.

Definition new : ExecutionContext := mkContext ∅ [] [] [] None.

Definition setProperty (this : ExecutionContext) (key : string) (value : ContextValue)
  : ExecutionContext :=
  mkContext (<[key := value]> (ctx_properties this)) (hints this)
            (defaultGraphs this) (namedGraphs this) (cache this).

Definition getProperty (this : ExecutionContext) (key : string) : option ContextValue :=
  ctx_properties this !! key.

Definition hasProperty (this : ExecutionContext) (key : string) : bool :=
  bool_decide (is_Some (ctx_properties this !! key)).

Definition setCache (this : ExecutionContext) (c : option BGPCache) : ExecutionContext :=
  mkContext (ctx_properties this) (hints this) (defaultGraphs this) (namedGraphs this) c.

Definition setGraphs (this : ExecutionContext) (default named : list Term)
  : ExecutionContext :=
  mkContext (ctx_properties this) (hints this) default named (cache this).

(** [clone()] copies every field into a new context. *)
Definition clone (this : ExecutionContext) : ExecutionContext := this.

(** The LIMIT/OFFSET flag as a truth value. *)
Definition hasLimitOffset (this : ExecutionContext) : bool :=
  match getProperty this ContextSymbols.HAS_LIMIT_OFFSET with
  | Some (CBool b) => b
  | _ => false
  end.

(** Modelled from the spec: [cachingEnabled()] (§4.5): the cache is used
    "when caching is enabled and the enclosing query has no LIMIT/OFFSET";
    "LIMIT/OFFSET disables both read and write". *)
Definition cachingEnabled (this : ExecutionContext) : bool :=
  bool_decide (is_Some (cache this)) && negb (hasLimitOffset this).

End ExecutionContext.

(** ** Graphs *)

Module GRAPH_CAPABILITY.
(** Bit positions in the capability set. *)
Definition UNION : N := 0.
Definition ESTIMATE_TRIPLE_CARD : N := 1.
End GRAPH_CAPABILITY.

(** Modelled from the spec: the graph interface of rdf/graph.ts (§4.2).
    [store] is the data the graph holds; [find], [evalBGP] and
    [fullTextSearch] are the methods a backend provides, [capabilities]
    its bitset. *)
Record Graph := mkGraph {
  iri : Term;
  store : list Triple;
  capabilities : N;
  find : Triple → ExecutionContext → PipelineStage Triple;
  evalBGP : list Triple → ExecutionContext → PipelineStage Bindings;
  fullTextSearch :
    Triple → Term → list string → bool →
    option JSNumber → option JSNumber → option JSNumber → option JSNumber →
    ExecutionContext → PipelineStage (Triple * JSNumber * JSNumber)
}.

Module Graph.
(** Modelled from the spec: [_isCapable(token)] of rdf/graph.ts (§3, §4.2:
    "a bitset of capabilities (UNION indicates bulk/bound-join support)"):
    whether the bit of the capability is set. *)
Definition _isCapable (this : Graph) (token : N) : bool :=
  N.testbit (capabilities this) token.

(** The triple is one of those the graph holds. *)
Definition holds (this : Graph) (t : Triple) : bool :=
  existsb (tripleEquals t) (store this).
End Graph.

(** ** Index join (operators/join/index-join.ts) *)

(** [pickBy] then [mapKeys]: the terms of [item] found where the bounded
    pattern holds a variable, keyed by that variable's name.  The keys of
    [item] are visited as subject, predicate, object; a later key replaces
    an earlier one of the same name. *)
Definition pickVariables (boundedPattern item : Triple) : gmap string Term :=
  let add (p t : Term) (temp : gmap string Term) :=
    if rdf.isVariable p then <[rdf.value p := t]> temp else temp in
  add (object boundedPattern) (object item)
    (add (predicate boundedPattern) (predicate item)
       (add (subject boundedPattern) (subject item) ∅)).

Definition indexJoin (source : PipelineStage Bindings) (pattern : Triple)
  (graph : Graph) (context : ExecutionContext) : PipelineStage Bindings :=
  Pipeline.mergeMap source (fun bindings =>
    let boundedPattern := Bindings.bound bindings pattern in
    Pipeline.map (find graph boundedPattern context) (fun item =>
      let temp := pickVariables boundedPattern item in
      b ← Bindings.fromMapping temp;
      Return (Bindings.union b bindings))).

(** ** The graph of the test suite (tests/utils.js) *)

Module N3Graph.

(** [formatTriplePattern]: a variable becomes the wildcard [null]. *)
Definition formatTriplePattern (triple : Triple) : option Term * option Term * option Term :=
  let wild (t : Term) := if negb (rdf.isVariable t) then Some t else None in
  (wild (subject triple), wild (predicate triple), wild (object triple)).

(** [Store.getQuads(s, p, o)] of N3.js: [null] matches any term.  The
    library is not part of the repository: the quads are answered here in
    the order of the list and as the objects the list holds, where the
    library follows its indexes and builds new term objects at each call.
    Only which quads are answered is relied upon. *)
Definition matches (p : option Term) (t : Term) : bool :=
  match p with
  | None => true
  | Some x => rdf.termEquals x t
  end.

Definition getQuads (quads : list Triple) (s p o : option Term) : list Triple :=
  List.filter (fun t => matches s (subject t) && matches p (predicate t) && matches o (object t))
              quads.

Definition find (quads : list Triple) (triple : Triple) (_ : ExecutionContext)
  : PipelineStage Triple :=
  let '(s, p, o) := formatTriplePattern triple in
  Pipeline.from (getQuads quads s p o).

(** Modelled from the spec: the default [Graph.evalBGP] of rdf/graph.ts
    (§4.2): "iterate leftmost pattern via find, for each match substitute,
    recurse", that is an index join per pattern from the empty mapping. *)
Definition defaultEvalBGP (g : Graph) (bgp : list Triple) (context : ExecutionContext)
  : PipelineStage Bindings :=
  foldl (fun iter t => indexJoin iter t g context) (Pipeline.of_ Bindings.empty) bgp.

(** A graph of the test suite holding [quads]; it declares no capability
    and no full-text search of its own. *)
Definition new (quads : list Triple) : Graph :=
  let base :=
    mkGraph (mkTerm 0 (NamedNode "urn:sparql-engine:DefaultGraph")) quads 0
            (find quads) (fun _ _ => Complete)
            (fun _ _ _ _ _ _ _ _ _ => Complete) in
  mkGraph (iri base) quads 0 (find quads) (defaultEvalBGP base)
          (fun _ _ _ _ _ _ _ _ _ => Complete).

End N3Graph.

(** ** SPARQL expressions (operators/expressions/sparql-expression.ts) *)

(** An input expression in sparql.js format: a term (a variable included),
    a list of terms (for IN and NOT IN), an operation, an aggregate, a
    function call, or a node of another type. *)
Inductive Expression :=
| ETerm (term : Term)
| ETerms (terms : list Term)
| EOperation (operator : string) (args : list Expression)
| EAggregate (aggregation : string) (expression : Term) (distinct : bool)
             (separator : option string)
| EFunctionCall (function : string) (args : list Expression)
| EOther (type : string).

(** [ExpressionOutput]: a term, an array or iterable of terms and nulls, or
    [null].  An iterable is taken as the finite sequence it yields, and its
    iteration as one that does not throw: an iterable that throws while it
    is iterated is outside this type. *)
Inductive ExpressionOutput :=
| OTerm (term : Term)
| OTerms (terms : list (option Term))
| ONull.

Definition CompiledExpression : Type := Bindings → Completion ExpressionOutput.

(** [CustomFunction]: called on the evaluated arguments. *)
Definition CustomFunction : Type := list ExpressionOutput → Completion ExpressionOutput.

(** The tables the evaluator dispatches on.  They live in sibling modules
    (sparql-operations, sparql-aggregates, custom-aggregates,
    custom-operations) and are taken as given, with [rdf.toN3].  A table
    is given by its own keys; the code looks names up with [in], which on an
    object literal also finds the names of [JS.objectPrototypeNames]:
    expressions that use such a name are outside what is modelled. *)
Record ExpressionTables := mkTables {
  SPARQL_OPERATIONS : gmap string (list ExpressionOutput → Completion ExpressionOutput);
  SPARQL_AGGREGATES :
    gmap string (Term → BindingGroup → option string → Completion ExpressionOutput);
  CUSTOM_AGGREGATES :
    gmap string (list Expression → PropertyValue → Completion ExpressionOutput);
  CUSTOM_OPERATIONS : gmap string CustomFunction;
  toN3 : Term → string
}.

(** lodash [uniqBy]: the first element of every key is kept. *)
Fixpoint uniqByFrom {A} (key : A → string) (seen : list string) (xs : list A) : list A :=
  match xs with
  | [] => []
  | x :: xs' =>
      if bool_decide (key x ∈ seen) then uniqByFrom key seen xs'
      else x :: uniqByFrom key (key x :: seen) xs'
  end.
Definition uniqBy {A} (xs : list A) (key : A → string) : list A := uniqByFrom key [] xs.

(** [bindArgument(variable)] *)
Definition bindArgument (variable : Term) : CompiledExpression :=
  fun bindings =>
    if Bindings.has bindings variable
    then match Bindings.get bindings (rdf.value variable) with
         | Some t => Return (OTerm t)
         | None => Return ONull
         end
    else Return ONull.

Module SPARQLExpression.

Section WithTables.
Context (tables : ExpressionTables).

(** [xs.map(f)] inside the compiler, where [f] may throw. *)
Definition mapThrowing {A B} (f : A → Completion B) : list A → Completion (list B) :=
  fix go xs :=
    match xs with
    | [] => Return []
    | x :: xs' =>
        match f x with
        | Throw e => Throw e
        | Return y =>
            match go xs' with
            | Throw e => Throw e
            | Return ys => Return (y :: ys)
            end
        end
    end.

(** [_compileExpression(expression, customFunctions)].  For a DISTINCT
    aggregate the code stores the deduplicated rows back into the Map the
    mapping holds under [__aggregate]; the rows are a value here, handed
    deduplicated to the aggregate, and the mapping keeps the rows it had. *)
Fixpoint _compileExpression (customFunctions : gmap string CustomFunction)
  (expression : Expression) {struct expression} : Completion CompiledExpression :=
  match expression with
  | ETerm term =>
      (* case 1: a SPARQL variable to bound or a RDF term *)
      if rdf.isVariable term then Return (bindArgument term)
      else Return (fun _ => Return (OTerm term))
  | ETerms terms =>
      (* case 2: a list of RDF terms *)
      Return (fun _ => Return (OTerms (Some <$> terms)))
  | EOperation operator args =>
      (* case 3: a SPARQL operation *)
      match mapThrowing (_compileExpression customFunctions) args with
      | Throw e => Throw e
      | Return args' =>
          match SPARQL_OPERATIONS tables !! operator with
          | None => Throw (GenericError "Unsupported SPARQL operation")
          | Some operation =>
              Return (fun bindings =>
                        match mapThrowing (fun arg : CompiledExpression => arg bindings) args' with
                        | Throw e => Throw e
                        | Return values => operation values
                        end)
          end
      end
  | EAggregate aggregation aggVariable distinct separator =>
      (* case 3: a SPARQL aggregation *)
      match SPARQL_AGGREGATES tables !! aggregation with
      | None => Throw (GenericError "Unsupported SPARQL aggregation")
      | Some aggregate =>
          Return (fun bindings =>
            if Bindings.hasProperty bindings "__aggregate" then
              match Bindings.getProperty bindings "__aggregate" with
              | Some (AggregateRows rows) =>
                  let rows :=
                    if distinct then
                      <[rdf.value aggVariable :=
                          uniqBy (default [] (rows !! rdf.value aggVariable)) (toN3 tables)]> rows
                    else rows in
                  aggregate aggVariable rows separator
              | _ => Throw (GenericError "TypeError: rows is not a Map")
              end
            else Throw (SyntaxError "SPARQL aggregation error: aggregate used outside of an aggregation query"))
      end
  | EFunctionCall functionName args =>
      (* last case: the expression is a custom function *)
      match CUSTOM_AGGREGATES tables !! JS.toLowerCase functionName with
      | Some customAggregate =>
          (* custom aggregations defined by the framework *)
          Return (fun bindings =>
            if Bindings.hasProperty bindings "__aggregate" then
              match Bindings.getProperty bindings "__aggregate" with
              | Some rows => customAggregate args rows
              | None => Throw (GenericError "TypeError")
              end
            else Throw (SyntaxError "SPARQL aggregation error: aggregate used outside of an aggregation query"))
      | None =>
          match customFunctions !! functionName with
          | Some customFunction =>
              (* custom operations defined by the user & the framework *)
              Return (fun bindings =>
                (* try { ... } catch { return null } *)
                match
                  match mapThrowing (_compileExpression customFunctions) args with
                  | Throw e => Throw e
                  | Return args' =>
                      match mapThrowing (fun arg : CompiledExpression => arg bindings) args' with
                      | Throw e => Throw e
                      | Return values => customFunction values
                      end
                  end
                with
                | Return output => Return output
                | Throw _ => Return ONull
                end)
          | None => Throw (SyntaxError "Custom function could not be found")
          end
      end
  | EOther _ => Throw (GenericError "Unsupported SPARQL operation type found")
  end.

(** [new SPARQLExpression(expression, customFunctions)]: the user's functions
    are merged over the framework's custom operations. *)
Definition new (expression : Expression) (customFunctions : gmap string CustomFunction)
  : Completion CompiledExpression :=
  let customs := customFunctions ∪ CUSTOM_OPERATIONS tables in
  _compileExpression customs expression.

Definition evaluate (this : CompiledExpression) (bindings : Bindings)
  : Completion ExpressionOutput :=
  this bindings.

End WithTables.

End SPARQLExpression.

(** ** BIND (operators/bind.ts) *)

Section Operators.
Context (tables : ExpressionTables).

(** What the [mergeMap] callback of [bind] returns for one input mapping.
    The iteration of an array or iterable does not throw here (see
    [ExpressionOutput]), so that the [input.error(e)] of the inner [catch]
    has no counterpart. *)
Definition bindOne (expr : CompiledExpression) (variable : Term) (bindings : Bindings)
  : PipelineStage Bindings :=
  match SPARQLExpression.evaluate expr bindings with
  | Return (OTerms value) =>
      (* an array or iterable: one mapping per term *)
      Pipeline.from
        (List.map (fun term =>
                     let mu := Bindings.clone bindings in
                     match term with
                     | None => Bindings.set mu (rdf.value variable) rdf.createUnbound
                     | Some t => Bindings.set mu (rdf.value variable) t
                     end) value)
  | Return ONull =>
      (* null: an error occurred during the expression's evaluation *)
      let res := Bindings.clone bindings in
      Pipeline.of_ (Bindings.set res (rdf.value variable) rdf.createUnbound)
  | Return (OTerm value) =>
      let res := Bindings.clone bindings in
      Pipeline.of_ (Bindings.set res (rdf.value variable) value)
  | Throw _ =>
      (* silence errors *)
      Pipeline.empty
  end.

Definition bind (source : PipelineStage Bindings) (variable : Term)
  (expression : Expression) (customFunctions : gmap string CustomFunction)
  : Completion (PipelineStage Bindings) :=
  match SPARQLExpression.new tables expression customFunctions with
  | Throw e => Throw e
  | Return expr => Return (Pipeline.mergeMap source (bindOne expr variable))
  end.

(** Modelled from the spec: the boolean [true] an expression evaluates to
    (utils/rdf.ts is not among the files embedded here). *)
Definition isTrueBoolean (t : Term) : bool :=
  match node t with
  | Literal value _ datatype =>
      bool_decide (datatype = "http://www.w3.org/2001/XMLSchema#boolean")
      && (bool_decide (value = "true") || bool_decide (value = "1"))
  | _ => false
  end.

(** Modelled from the spec: the FILTER operator of operators/sparql-filter.ts
    (§4.4): a solution is kept when the expression evaluates to true;
    "inside FILTER, throwing excludes the solution", and so does the [null]
    the evaluator returns on error. *)
Definition sparqlFilter (source : PipelineStage Bindings) (expression : Expression)
  (customFunctions : gmap string CustomFunction) : Completion (PipelineStage Bindings) :=
  match SPARQLExpression.new tables expression customFunctions with
  | Throw e => Throw e
  | Return expr =>
      Return (Pipeline.filter source (fun bindings =>
                match SPARQLExpression.evaluate expr bindings with
                | Return (OTerm value) => isTrueBoolean value
                | _ => false
                end))
  end.

End Operators.

(** ** BGP stage builder (engine/stages/bgp-stage-builder.ts) *)

(** The names of the full-text-search magic predicates ([SES] of
    utils/namespace.ts), as the strings their [.value] holds. *)
Record SESNamespace := mkSES {
  SES_search : string;
  SES_matchAllTerms : string;
  SES_minRelevance : string;
  SES_maxRelevance : string;
  SES_minRank : string;
  SES_maxRank : string;
  SES_relevance : string;
  SES_rank : string
}.

(** What the stage builder takes from outside this file: the bound join
    operator, the cache-backed evaluation of utils/evaluation.ts, the
    JavaScript conversion [Number(string)], [rdf.createTypedLiteral] and the
    namespaces. *)
Record StageEnvironment := mkStageEnv {
  boundJoin : PipelineStage Bindings → list Triple → Graph → ExecutionContext
              → PipelineStage Bindings;
  cacheEvalBGP : list Triple → Graph → BGPCache → ExecutionContext
                 → PipelineStage Bindings;
  Number : string → JSNumber;
  createTypedLiteral : JSNumber → string → Term;
  SES : SESNamespace;
  XSD_float : string;
  XSD_integer : string
}.

(** The local variables of [_buildFullTextSearchIterator]. *)
Record FullTextSearchParameters := mkFTS {
  keywords : list string;
  matchAll : bool;
  minScore : option JSNumber;
  maxScore : option JSNumber;
  minRank : option JSNumber;
  maxRank : option JSNumber;
  addScore : bool;
  addRank : bool;
  scoreVariable : option Term;
  rankVariable : option Term
}.

(** One full-text-search query found in a BGP by
    [fts.extractFullTextSearchQueries] (rewritings-fts.ts). *)
Record FullTextSearchQuery := mkFTSQuery {
  fts_pattern : Triple;
  fts_variable : Term;
  fts_magicTriples : list Triple
}.

Record ExtractionResults := mkExtraction {
  queries : list FullTextSearchQuery;
  classicPatterns : list Triple
}.

(** The two rewritings [execute] starts with, from sibling modules:
    [parseHints] of context/query-hints.ts, which returns the patterns left
    and the hints, and [extractFullTextSearchQueries]. *)
Record RewritingEnvironment := mkRewritings {
  parseHints : list Triple → list Triple → list Triple * list Triple;
  extractFullTextSearchQueries : list Triple → ExtractionResults
}.

(** The methods of the dataset (rdf/dataset.ts) the stage builder calls;
    those that look a graph up or create one may throw. *)
Record Dataset := mkDataset {
  getDefaultGraph : Graph;
  getNamedGraph : Term → Completion Graph;
  getUnionGraph : list Term → Completion Graph;
  getAllGraphs : list Graph;
  createGraph : Term → Completion Graph
}.

Module BGPStageBuilder.

Section WithEnvironment.
Context (env : StageEnvironment).

(** [bgpEvaluation(source, bgp, graph, builder, context)] *)
Definition bgpEvaluation (source : PipelineStage Bindings) (bgp : list Triple)
  (graph : Graph) (context : ExecutionContext) : PipelineStage Bindings :=
  Pipeline.mergeMap source (fun bindings =>
    let boundedBGP := List.map (fun t => Bindings.bound bindings t) bgp in
    (* check the cache *)
    let iterator :=
      if ExecutionContext.cachingEnabled context then
        match cache context with
        | Some c => cacheEvalBGP env boundedBGP graph c context
        | None => Failed (GenericError "TypeError: cache is null")
        end
      else evalBGP graph boundedBGP context in
    (* build join results *)
    Pipeline.map iterator (fun item => Return (Bindings.union item bindings))).

(** [_buildIterator(source, graph, patterns, context)] *)
Definition _buildIterator (source : PipelineStage Bindings) (graph : Graph)
  (patterns : list Triple) (context : ExecutionContext) : PipelineStage Bindings :=
  if Graph._isCapable graph GRAPH_CAPABILITY.UNION
     && negb (ExecutionContext.hasProperty context ContextSymbols.FORCE_INDEX_JOIN)
  then boundJoin env source patterns graph context
  else bgpEvaluation source patterns graph context.

(** full text search default parameters *)
Definition defaultParameters : FullTextSearchParameters :=
  mkFTS [] false None None None None false false None None.

Definition notLiteral : Error :=
  SyntaxError "Invalid Full Text Search query: the object of the magic triple must be a RDF Literal.".
Definition notNumber : Error :=
  SyntaxError "Invalid Full Text Search query: the object of the magic triple must be a valid number.".
Definition notPositiveInteger : Error :=
  SyntaxError "Invalid Full Text Search query: the object of the magic triple must be a valid positive integer.".
Definition notVariable : Error :=
  SyntaxError "Invalid Full Text Search query: the object of the magic triple must be a SPARQL variable.".

(** The body of [magicTriples.forEach]: one magic triple updates the
    parameters or throws. *)
Definition readMagicTriple (queryVariable : Term) (p : FullTextSearchParameters)
  (triple : Triple) : Completion FullTextSearchParameters :=
  (* assert that the magic triple is correct *)
  if negb (rdf.termEquals (subject triple) queryVariable) then
    Throw (SyntaxError "Invalid Full Text Search query: the query variable is not the subject of the magic triple")
  else
    let name := rdf.value (predicate triple) in
    let obj := object triple in
    if String.eqb name (SES_search (SES env)) then
      if negb (rdf.isLiteral obj) then Throw notLiteral
      else Return (mkFTS (JS.split (rdf.value obj)) (matchAll p) (minScore p) (maxScore p)
                         (minRank p) (maxRank p) (addScore p) (addRank p)
                         (scoreVariable p) (rankVariable p))
    else if String.eqb name (SES_matchAllTerms (SES env)) then
      let value := JS.toLowerCase (rdf.value obj) in
      Return (mkFTS (keywords p) (String.eqb value "true" || String.eqb value "1")
                    (minScore p) (maxScore p) (minRank p) (maxRank p)
                    (addScore p) (addRank p) (scoreVariable p) (rankVariable p))
    else if String.eqb name (SES_minRelevance (SES env)) then
      if negb (rdf.isLiteral obj) then Throw notLiteral
      else
        let n := Number env (rdf.value obj) in
        if JS.isNaN n then Throw notNumber
        else Return (mkFTS (keywords p) (matchAll p) (Some n) (maxScore p)
                           (minRank p) (maxRank p) (addScore p) (addRank p)
                           (scoreVariable p) (rankVariable p))
    else if String.eqb name (SES_maxRelevance (SES env)) then
      if negb (rdf.isLiteral obj) then Throw notLiteral
      else
        let n := Number env (rdf.value obj) in
        if JS.isNaN n then Throw notNumber
        else Return (mkFTS (keywords p) (matchAll p) (minScore p) (Some n)
                           (minRank p) (maxRank p) (addScore p) (addRank p)
                           (scoreVariable p) (rankVariable p))
    else if String.eqb name (SES_minRank (SES env)) then
      if negb (rdf.isLiteral obj) then Throw notLiteral
      else
        let n := Number env (rdf.value obj) in
        if JS.isNaN n || negb (JS.isInteger n) || JS.lt n JS.zero then Throw notPositiveInteger
        else Return (mkFTS (keywords p) (matchAll p) (minScore p) (maxScore p)
                           (Some n) (maxRank p) (addScore p) (addRank p)
                           (scoreVariable p) (rankVariable p))
    else if String.eqb name (SES_maxRank (SES env)) then
      if negb (rdf.isLiteral obj) then Throw notLiteral
      else
        let n := Number env (rdf.value obj) in
        if JS.isNaN n || negb (JS.isInteger n) || JS.lt n JS.zero then Throw notPositiveInteger
        else Return (mkFTS (keywords p) (matchAll p) (minScore p) (maxScore p)
                           (minRank p) (Some n) (addScore p) (addRank p)
                           (scoreVariable p) (rankVariable p))
    else if String.eqb name (SES_relevance (SES env)) then
      if negb (rdf.isVariable obj) then Throw notVariable
      else Return (mkFTS (keywords p) (matchAll p) (minScore p) (maxScore p)
                         (minRank p) (maxRank p) true (addRank p)
                         (Some obj) (rankVariable p))
    else if String.eqb name (SES_rank (SES env)) then
      if negb (rdf.isVariable obj) then Throw notVariable
      else
        (* Set minRank to its base value if needed *)
        Return (mkFTS (keywords p) (matchAll p) (minScore p) (maxScore p)
                      (match minRank p with None => Some JS.zero | r => r end)
                      (maxRank p) (addScore p) true
                      (scoreVariable p) (Some obj))
    else
      (* do nothing for unknown magic triples *)
      Return p.

(** [magicTriples.forEach(...)]: the first throw leaves the loop. *)
Fixpoint readMagicTriples (queryVariable : Term) (p : FullTextSearchParameters)
  (magicTriples : list Triple) : Completion FullTextSearchParameters :=
  match magicTriples with
  | [] => Return p
  | triple :: rest =>
      match readMagicTriple queryVariable p triple with
      | Throw e => Throw e
      | Return p' => readMagicTriples queryVariable p' rest
      end
  end.

(** [!isNull(min) && !isNull(max) && min > max] *)
Definition exceeds (min max : option JSNumber) : bool :=
  match min, max with
  | Some a, Some b => JS.gt a b
  | _, _ => false
  end.

(** The parameters of the search, or the [SyntaxError] thrown before the
    stage is built. *)
Definition fullTextSearchParameters (queryVariable : Term) (magicTriples : list Triple)
  : Completion FullTextSearchParameters :=
  match readMagicTriples queryVariable defaultParameters magicTriples with
  | Throw e => Throw e
  | Return p =>
      (* assert that minScore <= maxScore *)
      if exceeds (minScore p) (maxScore p) then
        Throw (SyntaxError "Invalid Full Text Search query: the maximum relevance score should be greater than or equal to the minimum relevance score")
      (* assert than minRank <= maxRank *)
      else if exceeds (minRank p) (maxRank p) then
        Throw (SyntaxError "Invalid Full Text Search query: the maximum rank should be be greater than or equal to the minimum rank")
      else Return p
  end.

(** The solution built from one search result. *)
Definition searchResultBindings (p : FullTextSearchParameters) (boundedPattern : Triple)
  (item : Triple * JSNumber * JSNumber) : Bindings :=
  let '(triple, score, rank) := item in
  let mu := Bindings.empty in
  let mu :=
    if rdf.isVariable (subject boundedPattern) && negb (rdf.isVariable (subject triple))
    then Bindings.set mu (rdf.value (subject boundedPattern)) (subject triple) else mu in
  let mu :=
    if rdf.isVariable (predicate boundedPattern) && negb (rdf.isVariable (predicate triple))
    then Bindings.set mu (rdf.value (predicate boundedPattern)) (predicate triple) else mu in
  let mu :=
    if rdf.isVariable (object boundedPattern) && negb (rdf.isVariable (object triple))
    then Bindings.set mu (rdf.value (object boundedPattern)) (object triple) else mu in
  (* add score and rank if required *)
  let mu :=
    match addScore p, scoreVariable p with
    | true, Some v => Bindings.set mu (rdf.value v) (createTypedLiteral env score (XSD_float env))
    | _, _ => mu
    end in
  match addRank p, rankVariable p with
  | true, Some v => Bindings.set mu (rdf.value v) (createTypedLiteral env rank (XSD_integer env))
  | _, _ => mu
  end.

(** [_buildFullTextSearchIterator(source, graph, pattern, queryVariable,
    magicTriples, context)] *)
Definition _buildFullTextSearchIterator (source : PipelineStage Bindings) (graph : Graph)
  (pattern : Triple) (queryVariable : Term) (magicTriples : list Triple)
  (context : ExecutionContext) : Completion (PipelineStage Bindings) :=
  match fullTextSearchParameters queryVariable magicTriples with
  | Throw e => Throw e
  | Return p =>
      (* join the input bindings with the full text search operation *)
      Return (Pipeline.mergeMap source (fun bindings =>
        let boundedPattern := Bindings.bound bindings pattern in
        (* delegate the actual full text search to the RDF graph *)
        let iterator :=
          fullTextSearch graph boundedPattern queryVariable (keywords p) (matchAll p)
                         (minScore p) (maxScore p) (minRank p) (maxRank p) context in
        Pipeline.map iterator (fun item =>
          (* Merge with input bindings and then return the final results *)
          Return (Bindings.union bindings (searchResultBindings p boundedPattern item)))))
  end.

End WithEnvironment.

Section Execute.
Context (env : StageEnvironment) (rewritings : RewritingEnvironment) (dataset : Dataset).

(** [_getGraph(iris)] *)
Definition _getGraph (iris : list Term) : Completion Graph :=
  match iris with
  | [] => Return (getDefaultGraph dataset)
  | [iri] => getNamedGraph dataset iri
  | _ => getUnionGraph dataset iris
  end.

(** [rewrite(term)] inside [_replaceBlankNodes].  The state is the identity
    the next created object receives and the array [newVariables];
    [indexOf] searches it with [===]. *)
Definition rewrite (state : N * list Term) (term : Term) : N * list Term * Term :=
  let '(fresh, newVariables) := state in
  if rdf.isBlankNode term then
    let variable := mkTerm fresh (Var (JS.slice (rdf.value term) 2)) in
    let newVariables :=
      if bool_decide (variable ∈ newVariables) then newVariables
      else newVariables ++ [variable] in
    (N.succ fresh, newVariables, variable)
  else (state, term).

(** [patterns.map(p => ...)]: subject, predicate and object are rewritten
    in this order. *)
Fixpoint replaceFrom (state : N * list Term) (patterns : list Triple)
  : list Triple * (N * list Term) :=
  match patterns with
  | [] => ([], state)
  | p :: rest =>
      let '(state, s) := rewrite state (subject p) in
      let '(state, pr) := rewrite state (predicate p) in
      let '(state, o) := rewrite state (object p) in
      let '(newBGP, state) := replaceFrom state rest in
      (mkTriple s pr o :: newBGP, state)
  end.

(** [_replaceBlankNodes(patterns)], where [fresh] is the identity of the
    first object the call creates. *)
Definition _replaceBlankNodes (fresh : N) (patterns : list Triple)
  : list Triple * list Term :=
  let '(newBGP, (_, newVariables)) := replaceFrom (fresh, []) patterns in
  (newBGP, newVariables).

(** "remove artificials variables from bindings" ([execute] writes this
    step out twice, once per branch). *)
Definition removeArtificials (artificals : list Term) (iterator : PipelineStage Bindings)
  : PipelineStage Bindings :=
  if (0 <? length artificals)%nat then
    Pipeline.map iterator (fun b =>
      Return (Bindings.filter b (fun variable _ =>
                negb (bool_decide (variable ∈ List.map rdf.value artificals)))))
  else iterator.

(** [queries.reduce(...)] over [_buildFullTextSearchIterator], which may
    throw. *)
Fixpoint searchAll (graph : Graph) (context : ExecutionContext)
  (prev : PipelineStage Bindings) (queries : list FullTextSearchQuery)
  : Completion (PipelineStage Bindings) :=
  match queries with
  | [] => Return prev
  | query :: rest =>
      match _buildFullTextSearchIterator env prev graph (fts_pattern query)
              (fts_variable query) (fts_magicTriples query) context with
      | Throw e => Throw e
      | Return next => searchAll graph context next rest
      end
  end.

(** [execute(source, patterns, context)].  The context is an object the
    call writes the hints to: it is returned with the stage (or the error
    thrown while the stage is built). *)
Definition execute (fresh : N) (source : PipelineStage Bindings) (patterns : list Triple)
  (context : ExecutionContext) : ExecutionContext * Completion (PipelineStage Bindings) :=
  match patterns with
  | [] =>
      (* avoids sending a request with an empty array *)
      (context, Return source)
  | _ =>
      (* extract eventual query hints from the BGP & merge them into the context *)
      let extraction := parseHints rewritings patterns (hints context) in
      let context :=
        mkContext (ctx_properties context) (snd extraction) (defaultGraphs context)
                  (namedGraphs context) (cache context) in
      (* extract full text search queries from the BGP *)
      let extractionResults := extractFullTextSearchQueries rewritings (fst extraction) in
      (* rewrite the BGP to remove blank node addedd by the Turtle notation *)
      let '(bgp, artificals) := _replaceBlankNodes fresh (classicPatterns extractionResults) in
      let fixedGraph (selected : Completion Graph) :=
        match selected with
        | Throw e => Throw e
        | Return graph =>
            let iterator := _buildIterator env source graph bgp context in
            (* evaluate all full text search queries found previously *)
            match searchAll graph context iterator (queries extractionResults) with
            | Throw e => Throw e
            | Return iterator => Return (removeArtificials artificals iterator)
            end
        end in
      match head (defaultGraphs context) with
      | Some variable =>
          if rdf.isVariable variable then
            (* if the graph is a variable, go through each binding and look for its value *)
            (context,
             Return (Pipeline.mergeMap source (fun value =>
               let graphIri := Bindings.get value (rdf.value variable) in
               let graphs :=
                 List.filter (fun g => match graphIri with
                                       | Some i => rdf.termEquals (iri g) i
                                       | None => false
                                       end) (getAllGraphs dataset) in
               let graph :=
                 match graphs with
                 | g :: _ => Return (Some g)
                 | [] =>
                     match graphIri with
                     | Some i =>
                         match createGraph dataset i with
                         | Return g => Return (Some g)
                         | Throw e => Throw e
                         end
                     | None => Return None
                     end
                 end in
               match graph with
               | Throw e => Failed e
               | Return (Some graph) =>
                   removeArtificials artificals
                     (_buildIterator env (Pipeline.from [value]) graph bgp context)
               | Return None => Failed (GenericError "Cant' find or create the graph")
               end)))
          else (context, fixedGraph (_getGraph (defaultGraphs context)))
      | None => (context, fixedGraph (Return (getDefaultGraph dataset)))
      end
  end.

End Execute.

End BGPStageBuilder.

(** ** Plan builder (engine/plan-builder.ts) *)

(** Class of SPARQL operations that are evaluated by a Stage Builder *)
Inductive SPARQL_OPERATION :=
| AGGREGATE | BGP | BIND | DISTINCT | FILTER | GRAPH | MINUS | OPTIONAL
| ORDER_BY | PROPERTY_PATH | SERVICE | UPDATE | UNION.

#[global] Instance SPARQL_OPERATION_eq_dec : EqDecision SPARQL_OPERATION.
Proof. solve_decision. Defined.

(** An entry of [query.variables]. *)
Inductive SelectVariable :=
| Wildcard
| TermVariable (term : Term)
| VariableExpression (expression : Expression) (variable : Term).

(** The algebra tree of sparql.js: the patterns of a WHERE clause and the
    queries.  A key that may be absent from a query (['limit' in query]) is
    an [option]. *)
Inductive Pattern :=
| BgpPattern (triples : list Triple)
| GroupPattern (patterns : list Pattern)
| OptionalPattern (patterns : list Pattern)
| UnionPattern (patterns : list Pattern)
| MinusPattern (patterns : list Pattern)
| GraphPattern (name : Term) (patterns : list Pattern)
| ServicePattern (name : Term) (silent : bool) (patterns : list Pattern)
| FilterPattern (expression : Expression)
| BindPattern (variable : Term) (expression : Expression)
| ValuesPattern (values : list (gmap string Term))
| SubQuery (query : Query)
| UnknownPattern (type : string)
with Query :=
| mkQuery (queryType : string)
          (prefixes : gmap string string)
          (from : option (list Term * list Term))
          (variables : option (list SelectVariable))
          (where_ : option (list Pattern))
          (template : option (list Triple))
          (group : option (list Expression))
          (order : option (list (Expression * bool)))
          (distinct : option bool)
          (offset : option nat)
          (limit : option nat).

Definition queryType (q : Query) : string := let '(mkQuery x _ _ _ _ _ _ _ _ _ _) := q in x.
Definition prefixes (q : Query) := let '(mkQuery _ x _ _ _ _ _ _ _ _ _) := q in x.
Definition from (q : Query) := let '(mkQuery _ _ x _ _ _ _ _ _ _ _) := q in x.
Definition variables (q : Query) := let '(mkQuery _ _ _ x _ _ _ _ _ _ _) := q in x.
Definition where_ (q : Query) := let '(mkQuery _ _ _ _ x _ _ _ _ _ _) := q in x.
Definition template (q : Query) := let '(mkQuery _ _ _ _ _ x _ _ _ _ _) := q in x.
Definition group (q : Query) := let '(mkQuery _ _ _ _ _ _ x _ _ _ _) := q in x.
Definition order (q : Query) := let '(mkQuery _ _ _ _ _ _ _ x _ _ _) := q in x.
Definition distinct (q : Query) := let '(mkQuery _ _ _ _ _ _ _ _ x _ _) := q in x.
Definition offset (q : Query) := let '(mkQuery _ _ _ _ _ _ _ _ _ x _) := q in x.
Definition limit (q : Query) := let '(mkQuery _ _ _ _ _ _ _ _ _ _ x) := q in x.

(** [query.variables = ...] *)
Definition setVariables (q : Query) (vs : option (list SelectVariable)) : Query :=
  mkQuery (queryType q) (prefixes q) (from q) vs (where_ q) (template q)
          (group q) (order q) (distinct q) (offset q) (limit q).

(** What [build] accepts once parsed. *)
Inductive SparqlQuery :=
| QueryNode (query : Query)
| UpdateNode (updates : list N)
| OtherNode (type : string).

(** What a stage builder's [execute] receives besides its source. *)
Inductive StageArgument :=
| ArgTriples (triples : list Triple)
| ArgPattern (pattern : Pattern)
| ArgQuery (query : Query)
| ArgVariableExpression (expression : Expression) (variable : Term)
| ArgOrder (order : list (Expression * bool))
| ArgUpdates (updates : list N)
| ArgNone.

(** The physical plan.  The stage builders and the solution modifiers are
    separate classes; a plan records which of them the plan builder calls,
    on which source, with which argument and under which context.
    [Modifier name source query] is what the call
    [QUERY_MODIFIERS[name](source, query)] returns. *)
Inductive Plan :=
| EngineOf (bindings : Bindings)
| Execute (kind : SPARQL_OPERATION) (source : option Plan) (argument : StageArgument)
          (context : option ExecutionContext)
| Modifier (queryType : string) (source : Plan) (query : Query)
| Skip (source : Plan) (toSkip : nat)
| Limit (source : Plan) (limit : nat)
| MapWithoutVariables (source : Plan) (tempVariables : list string)
| Merge (sources : list Plan)
| ExtendByBindings (source : Plan) (bindings : Bindings).

(** What the plan builder takes from outside this file:
    [extractPropertyPaths] of stages/rewritings.ts, [deepApplyBindings] of
    utils/bindings.ts and the string a DESCRIBE target is interpolated as. *)
Record PlanEnvironment := mkPlanEnv {
  extractPropertyPaths : list Triple → list Triple * list Triple * list string;
  deepApplyBindings : Pattern → Bindings → Pattern;
  interpolate : SelectVariable → string
}.

Record PlanBuilder := mkPlanBuilder {
  _optimizer : Query → Query;
  _stageBuilders : list SPARQL_OPERATION;
  _currentCache : option BGPCache;
  _customFunctions : gmap string CustomFunction
}.

(** lodash [sortBy]: a stable sort on the value of [key]. *)
Fixpoint insertBy {A} (key : A → nat) (x : A) (sorted : list A) : list A :=
  match sorted with
  | [] => [x]
  | y :: sorted' =>
      if (key x <=? key y)%nat then x :: y :: sorted'
      else y :: insertBy key x sorted'
  end.
Definition sortBy {A} (xs : list A) (key : A → nat) : list A :=
  foldr (insertBy key) [] xs.

(** lodash [partition] *)
Definition partition {A} (xs : list A) (p : A → bool) : list A * list A :=
  (List.filter p xs, List.filter (fun x => negb (p x)) xs).

Module PlanBuilder.

(** [new PlanBuilder(dataset, prefixes, customFunctions)]: every default
    stage builder is registered, no cache is set. *)
Definition new (optimizer : Query → Query) (customFunctions : gmap string CustomFunction)
  : PlanBuilder :=
  mkPlanBuilder optimizer
    [AGGREGATE; BGP; BIND; DISTINCT; FILTER; GRAPH; MINUS; SERVICE; OPTIONAL;
     ORDER_BY; PROPERTY_PATH; UNION; UPDATE]
    None customFunctions.

(** [use(kind, stageBuilder)] *)
Definition use (this : PlanBuilder) (kind : SPARQL_OPERATION) : PlanBuilder :=
  mkPlanBuilder (_optimizer this) (kind :: _stageBuilders this)
                (_currentCache this) (_customFunctions this).

(** [useCache(customCache?)] *)
Definition useCache (this : PlanBuilder) (customCache : option BGPCache) : PlanBuilder :=
  match customCache with
  | None =>
      mkPlanBuilder (_optimizer this) (_stageBuilders this)
                    (Some (LRUBGPCache 500 (1200 * 60 * 60))) (_customFunctions this)
  | Some c =>
      mkPlanBuilder (_optimizer this) (_stageBuilders this) (Some c) (_customFunctions this)
  end.

(** [disableCache()] *)
Definition disableCache (this : PlanBuilder) : PlanBuilder :=
  mkPlanBuilder (_optimizer this) (_stageBuilders this) None (_customFunctions this).

(** The own keys of the object [QUERY_MODIFIERS]. *)
Definition QUERY_MODIFIERS : list string := ["SELECT"; "CONSTRUCT"; "ASK"].

(** [name in QUERY_MODIFIERS]: on an object literal [in] also finds the
    names inherited from [Object.prototype]. *)
Definition inQueryModifiers (name : string) : bool :=
  bool_decide (name ∈ QUERY_MODIFIERS ++ JS.objectPrototypeNames).

(** The inherited names under which [QUERY_MODIFIERS[name](graphIterator,
    query)] throws a [TypeError]: [__proto__] holds an object that is no
    function, and [__defineGetter__] and [__defineSetter__] refuse a second
    argument that is not callable.  The other inherited members return. *)
Definition throwingModifiers : list string :=
  ["__proto__"; "__defineGetter__"; "__defineSetter__"].

(** The rank [_buildWhere] sorts the groups by. *)
Definition groupRank (g : Pattern) : nat :=
  match g with
  | GraphPattern name _ => if rdf.isVariable name then 5 else 0
  | BgpPattern _ => 0
  | ValuesPattern _ => 3
  | FilterPattern _ => 4
  | _ => 1
  end.

Definition isBgp (g : Pattern) : bool :=
  match g with BgpPattern _ => true | _ => false end.
Definition isValues (g : Pattern) : bool :=
  match g with ValuesPattern _ => true | _ => false end.

(** [lastGroup.triples = lastGroup.triples.concat(group.triples)] on the
    last element of [newGroups].  The assignment is made on the group
    object itself, which the query of the caller shares: what is returned
    here is what this build goes on with, and nothing below reads the
    object again.  A later build of the same query object would start from
    the changed group; it is not followed here. *)
Fixpoint concatOnLast (newGroups : list Pattern) (triples : list Triple) : list Pattern :=
  match newGroups with
  | [] => []
  | [BgpPattern ts] => [BgpPattern (ts ++ triples)]
  | [g] => [g]
  | g :: rest => g :: concatOnLast rest triples
  end.

(** One turn of the loop that merges BGPs on the same level; the state is
    [newGroups] and [prec]. *)
Definition mergeStep (state : list Pattern * option Pattern) (group : Pattern)
  : list Pattern * option Pattern :=
  let '(newGroups, prec) := state in
  match group, prec with
  | BgpPattern triples, Some (BgpPattern _) => (concatOnLast newGroups triples, Some group)
  | _, _ => (newGroups ++ [group], Some group)
  end.

Definition mergeBGPs (groups : list Pattern) : list Pattern :=
  (foldl mergeStep ([], None) groups).1.

Section WithEnvironment.
Context (env : PlanEnvironment) (this : PlanBuilder).

(** [this._stageBuilders.has(kind)], with the error thrown when it fails. *)
Definition requireStage (kind : SPARQL_OPERATION) (message : string) : Completion () :=
  if bool_decide (kind ∈ _stageBuilders this) then Return ()
  else Throw (GenericError message).

(** [this._stageBuilders.get(kind)!.execute(...)] *)
Definition execute (kind : SPARQL_OPERATION) (source : option Plan)
  (argument : StageArgument) (context : option ExecutionContext) : Completion Plan :=
  if bool_decide (kind ∈ _stageBuilders this)
  then Return (Execute kind source argument context)
  else Throw (GenericError "TypeError: cannot read properties of undefined").

(** [groups.reduce((source, group) => f(source, group), source)] where [f]
    may throw. *)
Fixpoint reduceThrowing {A B} (f : B → A → Completion B) (xs : list A) (acc : B)
  : Completion B :=
  match xs with
  | [] => Return acc
  | x :: xs' =>
      match f acc x with
      | Throw e => Throw e
      | Return acc' => reduceThrowing f xs' acc'
      end
  end.

Definition mapThrowing {A B} (f : A → Completion B) : list A → Completion (list B) :=
  fix go xs :=
    match xs with
    | [] => Return []
    | x :: xs' =>
        match f x with
        | Throw e => Throw e
        | Return y =>
            match go xs' with
            | Throw e => Throw e
            | Return ys => Return (y :: ys)
            end
        end
    end.

(** The triple a DESCRIBE target is expanded to. *)
Definition describeTriple (v : SelectVariable) : Triple :=
  mkTriple
    match v with
    | Wildcard => rdf.createVariable ("?subj__describe__" ++ interpolate env v)%string
    | TermVariable t => t
    | VariableExpression _ t => t
    end
    (rdf.createVariable ("?pred__describe__" ++ interpolate env v)%string)
    (rdf.createVariable ("?obj__describe__" ++ interpolate env v)%string).

Definition isPlainVariable (v : SelectVariable) : bool :=
  match v with TermVariable t => rdf.isVariable t | _ => false end.

(** [agg.variable] *)
Definition expressionVariable (v : SelectVariable) : SelectVariable :=
  match v with VariableExpression _ variable => TermVariable variable | _ => v end.

(** The call stack is bounded by [depth]; running out of it is the
    [RangeError] of JavaScript. *)
Definition stackOverflow : Error := GenericError "RangeError: Maximum call stack size exceeded".

Fixpoint _buildQueryPlan (depth : nat) (query : Query) (context : ExecutionContext)
  (source : option Plan) {struct depth} : Completion Plan :=
  match depth with
  | 0 => Throw stackOverflow
  | S depth' =>
    let source :=
      match source with
      | None => EngineOf Bindings.empty   (* build pipeline starting iterator *)
      | Some s => s
      end in
    let context :=
      ExecutionContext.setProperty context ContextSymbols.PREFIXES (CPrefixes (prefixes query)) in
    (* rewrite a DESCRIBE query into a CONSTRUCT query *)
    if String.eqb (queryType query) "DESCRIBE" then
      match variables query with
      | None => Throw (GenericError "TypeError: query.variables is undefined")
      | Some vs =>
          let triples := List.map describeTriple vs in
          let construct :=
            mkQuery "CONSTRUCT" (prefixes query) (from query) None
                    (Some (default [] (where_ query) ++ [BgpPattern triples]))
                    (Some triples) None None None None None in
          _buildQueryPlan depth' construct context (Some source)
      end
    else
    (* from the begining, dectect any LIMIT/OFFSET modifiers, as they impact
       the caching strategy *)
    let context :=
      ExecutionContext.setProperty context ContextSymbols.HAS_LIMIT_OFFSET
        (CBool (bool_decide (is_Some (limit query)) || bool_decide (is_Some (offset query)))) in
    (* Handles FROM clauses *)
    let context :=
      match from query with
      | Some (default, named) => ExecutionContext.setGraphs context default named
      | None => context
      end in
    (* Handles WHERE clause *)
    match
      (if (0 <? length (default [] (where_ query)))%nat
       then _buildWhere depth' source (default [] (where_ query)) context
       else Return (EngineOf Bindings.empty))
    with
    | Throw e => Throw e
    | Return graphIterator =>
    (* Parse query variable to separate projection & aggregate variables *)
    let '(query, variableExpressions) :=
      match variables query with
      | Some (v :: vs) =>
          match v with
          | Wildcard => (query, [])
          | _ =>
              let parts := partition (v :: vs) isPlainVariable in
              (setVariables query (Some (parts.1 ++ List.map expressionVariable parts.2)),
               parts.2)
          end
      | _ => (query, [])
      end in
    (* Handles SPARQL aggregations *)
    match
      (if bool_decide (is_Some (group query)) || (0 <? length variableExpressions)%nat
       then execute AGGREGATE (Some graphIterator) (ArgQuery query) (Some context)
       else Return graphIterator)
    with
    | Throw e => Throw e
    | Return graphIterator =>
    (* Handles SPARQL aggregation functions *)
    match
      reduceThrowing
        (fun prev agg =>
           match agg with
           | VariableExpression e v =>
               execute BIND (Some prev) (ArgVariableExpression e v) None
           | _ => execute BIND (Some prev) ArgNone None
           end)
        variableExpressions graphIterator
    with
    | Throw e => Throw e
    | Return graphIterator =>
    (* Handles ORDER BY *)
    match
      match order query with
      | Some o =>
          match requireStage ORDER_BY
                  "A PlanBuilder cannot evaluate SPARQL ORDER BY clauses without a StageBuilder for it" with
          | Throw e => Throw e
          | Return _ => execute ORDER_BY (Some graphIterator) (ArgOrder o) None
          end
      | None => Return graphIterator
      end
    with
    | Throw e => Throw e
    | Return graphIterator =>
    if negb (inQueryModifiers (queryType query)) then
      Throw (GenericError "Unsupported SPARQL query type")
    else if bool_decide (queryType query ∈ throwingModifiers) then
      Throw (GenericError "TypeError: QUERY_MODIFIERS[query.queryType] is not a function")
    else
    let graphIterator := Modifier (queryType query) graphIterator query in
    (* Create iterators for modifiers *)
    match
      match distinct query with
      | Some _ =>
          match requireStage DISTINCT
                  "A PlanBuilder cannot evaluate a DISTINCT clause without a StageBuilder for it" with
          | Throw e => Throw e
          | Return _ => execute DISTINCT (Some graphIterator) ArgNone (Some context)
          end
      | None => Return graphIterator
      end
    with
    | Throw e => Throw e
    | Return graphIterator =>
    (* Add offsets and limits if requested *)
    let graphIterator :=
      match offset query with
      | Some n => Skip graphIterator n
      | None => graphIterator
      end in
    let graphIterator :=
      match limit query with
      | Some n => Limit graphIterator n
      | None => graphIterator
      end in
    Return graphIterator
    end end end end end
  end

with _buildWhere (depth : nat) (source : Plan) (groups : list Pattern)
  (context : ExecutionContext) {struct depth} : Completion Plan :=
  match depth with
  | 0 => Throw stackOverflow
  | S depth' =>
    let groups := sortBy groups groupRank in
    (* Handle VALUES clauses using query rewriting *)
    if existsb isValues groups then
      _buildValues depth' source groups context
    else
      (* merge BGPs on the same level *)
      let groups := mergeBGPs groups in
      reduceThrowing (fun source group => _buildGroup depth' source group context)
                     groups source
  end

with _buildGroup (depth : nat) (source : Plan) (group : Pattern)
  (context : ExecutionContext) {struct depth} : Completion Plan :=
  match depth with
  | 0 => Throw stackOverflow
  | S depth' =>
    (* Reset flags on the options for child iterators *)
    let childContext := ExecutionContext.clone context in
    let delegate (kind : SPARQL_OPERATION) (message : string) :=
      match requireStage kind message with
      | Throw e => Throw e
      | Return _ => execute kind (Some source) (ArgPattern group) (Some childContext)
      end in
    match group with
    | BgpPattern triples =>
        match requireStage BGP
                "A PlanBuilder cannot evaluate a Basic Graph Pattern without a Stage Builder for it" with
        | Throw e => Throw e
        | Return _ =>
            (* find possible Property paths *)
            let '(classicTriples, pathTriples, tempVariables) :=
              extractPropertyPaths env triples in
            match
              (if (0 <? length pathTriples)%nat then
                 match requireStage PROPERTY_PATH
                         "A PlanBuilder cannot evaluate property paths without a Stage Builder for it" with
                 | Throw e => Throw e
                 | Return _ =>
                     execute PROPERTY_PATH (Some source) (ArgTriples pathTriples) (Some context)
                 end
               else Return source)
            with
            | Throw e => Throw e
            | Return source =>
                (* delegate remaining BGP evaluation to the dedicated executor *)
                match execute BGP (Some source) (ArgTriples classicTriples) (Some childContext) with
                | Throw e => Throw e
                | Return iter =>
                    (* filter out variables added by the rewriting of property paths *)
                    if (0 <? length tempVariables)%nat
                    then Return (MapWithoutVariables iter tempVariables)
                    else Return iter
                end
            end
        end
    | SubQuery query => _buildQueryPlan depth' query childContext (Some source)
    | GraphPattern _ _ =>
        delegate GRAPH "A PlanBuilder cannot evaluate a GRAPH clause without a Stage Builder for it"
    | ServicePattern _ _ _ =>
        delegate SERVICE "A PlanBuilder cannot evaluate a SERVICE clause without a Stage Builder for it"
    | GroupPattern patterns => _buildWhere depth' source patterns childContext
    | OptionalPattern _ =>
        delegate OPTIONAL "A PlanBuilder cannot evaluate an OPTIONAL clause without a Stage Builder for it"
    | UnionPattern _ =>
        delegate UNION "A PlanBuilder cannot evaluate an UNION clause without a Stage Builder for it"
    | MinusPattern _ =>
        delegate MINUS "A PlanBuilder cannot evaluate a MINUS clause without a Stage Builder for it"
    | FilterPattern _ =>
        delegate FILTER "A PlanBuilder cannot evaluate a FILTER clause without a Stage Builder for it"
    | BindPattern _ _ =>
        delegate BIND "A PlanBuilder cannot evaluate a BIND clause without a Stage Builder for it"
    | ValuesPattern _ | UnknownPattern _ =>
        Throw (GenericError "Unsupported SPARQL group pattern found in query")
    end
  end

with _buildValues (depth : nat) (source : Plan) (groups : list Pattern)
  (context : ExecutionContext) {struct depth} : Completion Plan :=
  match depth with
  | 0 => Throw stackOverflow
  | S depth' =>
    let '(values, others) := partition groups isValues in
    let bindingsLists :=
      List.map (fun g => match g with ValuesPattern rows => rows | _ => [] end) values in
    (* for each VALUES clause *)
    match
      mapThrowing
        (fun bList =>
           (* for each value to bind in the VALUES clause *)
           match
             mapThrowing
               (fun b =>
                  match Bindings.fromValues b with
                  | Throw e => Throw e
                  | Return bindings =>
                      (* BIND each group with the set of bindings and then evaluates it *)
                      let temp := List.map (fun g => deepApplyBindings env g bindings) others in
                      match _buildWhere depth' source temp context with
                      | Throw e => Throw e
                      | Return plan => Return (ExtendByBindings plan bindings)
                      end
                  end)
               bList
           with
           | Throw e => Throw e
           | Return unionBranches => Return (Merge unionBranches)
           end)
        bindingsLists
    with
    | Throw e => Throw e
    | Return iterators =>
        (* Users may use more than one VALUES clause *)
        match iterators with
        | [] => Throw (GenericError "TypeError: undefined iterator")
        | [iterator] => Return iterator
        | _ => Return (Merge iterators)
        end
    end
  end.

(** [build(query, context?)] for a parsed query. *)
Definition build (depth : nat) (query : SparqlQuery) (context : option ExecutionContext)
  : Completion Plan :=
  let context :=
    match context with
    | None => ExecutionContext.setCache ExecutionContext.new (_currentCache this)
    | Some c => c
    end in
  match query with
  | QueryNode q =>
      (* Optimize the logical query execution plan *)
      let q := _optimizer this q in
      _buildQueryPlan depth q context None
  | UpdateNode updates =>
      match requireStage UPDATE
              "A PlanBuilder cannot evaluate SPARQL UPDATE queries without a StageBuilder for it" with
      | Throw e => Throw e
      | Return _ => execute UPDATE None (ArgUpdates updates) (Some context)
      end
  | OtherNode _ => Throw (SyntaxError "Unsupported SPARQL query type")
  end.

End WithEnvironment.

End PlanBuilder.

(** ** XML formatter (formatters/xml-formatter.ts) *)




Module XmlFormatter.




End XmlFormatter.

(** ** Concrete inputs and units used by the statements below *)

(** The first mapping of the example: [?s] bound to one object holding
    [:s1]. *)
Definition mu_s1 : Bindings :=
  Bindings.set Bindings.empty "s" (mkTerm 1 (NamedNode ":s1")).

(** The same mapping built a second time: an equal term, another object. *)
Definition mu_s1' : Bindings :=
  Bindings.set Bindings.empty "s" (mkTerm 2 (NamedNode ":s1")).

(** Milliseconds in [n] minutes, the unit of the cache's maximum age. *)
Definition minutes (n : Z) : Z := n * 60 * 1000.


(** Terms of the DBLP sample used by the test suite. *)
Definition thomas : Term := mkTerm 10 (NamedNode "https://dblp.org/pers/m/Minier:Thomas").
Definition primaryFullPersonName : Term :=
  mkTerm 11 (NamedNode "https://dblp.uni-trier.de/rdf/schema-2017-04-18#primaryFullPersonName").
Definition thomasName : Term :=
  mkTerm 12 (Literal "Thomas Minier" "en" "http://www.w3.org/1999/02/22-rdf-syntax-ns#langString").
Definition coauthorOf : Term :=
  mkTerm 13 (NamedNode "https://dblp.uni-trier.de/rdf/schema-2017-04-18#coCreatorWith").
Definition var (oid : N) (name : string) : Term := mkTerm oid (Var name).

(** An evaluator with no built-in operation, aggregate or custom operation. *)
Definition noTables : ExpressionTables := mkTables ∅ ∅ ∅ ∅ (fun t => rdf.value t).

(** The custom function of the test "should consider the solution unbound on
    an error": it throws on every call. *)
Definition errorFunctions : gmap string CustomFunction :=
  {[ "http://test.com#ERROR" :=
       (fun _ => Throw (GenericError "This should result in an unbould solution, but the query should still evaluate")) ]}.

(** A custom function that returns an array of two terms, the IRI and the
    name of the author. *)
Definition listingFunctions : gmap string CustomFunction :=
  {[ "http://test.com#BOTH" := (fun _ => Return (OTerms [Some thomas; Some thomasName])) ]}.

(** The mapping [?thomas -> "Thomas Minier"@en]. *)
Definition mu_thomas : Bindings := Bindings.set Bindings.empty "thomas" thomasName.

(** "Substitute P" in the words of the spec, at one position of a pattern:
    a variable the mapping binds stands for the term it is bound to, and
    any other term for itself. *)
Definition substitutedTerm (mu : Bindings) (t t' : Term) : Prop :=
  match node t with
  | Var v =>
      match _content mu !! v with
      | Some term => t' = term
      | None => t' = t
      end
  | _ => t' = t
  end.

(** [p'] is the pattern [p] substituted with [mu]. *)
Definition substituted (mu : Bindings) (p p' : Triple) : Prop :=
  substitutedTerm mu (subject p) (subject p')
  ∧ substitutedTerm mu (predicate p) (predicate p')
  ∧ substitutedTerm mu (object p) (object p').

(** The substitution [bound] applies at one position of a triple pattern. *)
Definition substitute (mu : Bindings) (t : Term) : Term :=
  if rdf.isVariable t && Bindings.has mu t
  then default t (Bindings.get mu (rdf.value t)) else t.

(** The data-model invariant of §3: no variable is bound to a variable. *)
Definition noVariableValues (mu : Bindings) : Prop :=
  ∀ v t, _content mu !! v = Some t → rdf.isVariable t = false.

(** The pattern holds the same variable at two positions. *)
Definition repeatsVariable (t : Triple) : bool :=
  let same (a b : Term) :=
    rdf.isVariable a && rdf.isVariable b && String.eqb (rdf.value a) (rdf.value b) in
  same (subject t) (predicate t) || same (subject t) (object t)
  || same (predicate t) (object t).

(** A graph of the test suite with one triple, and the pattern
    [?x coCreatorWith ?x]. *)
Definition florian : Term := mkTerm 14 (NamedNode "https://dblp.org/pers/m/Moreau:Florian").
Definition oneTripleGraph : Graph :=
  N3Graph.new [mkTriple thomas coauthorOf florian].
Definition selfPattern : Triple :=
  mkTriple (var 20 "x") (mkTerm 21 (NamedNode "https://dblp.uni-trier.de/rdf/schema-2017-04-18#coCreatorWith")) (var 22 "x").
Definition pairPattern : Triple :=
  mkTriple (var 20 "x") (mkTerm 21 (NamedNode "https://dblp.uni-trier.de/rdf/schema-2017-04-18#coCreatorWith")) (var 22 "y").

(** The mapping [?x -> Thomas, ?y -> Florian] the one-triple graph answers
    [pairPattern] with. *)
Definition mu_pair : Bindings :=
  Bindings.set (Bindings.set Bindings.empty "x" thomas) "y" florian.

(** A stage environment for the examples: no bound join, no cache, a number
    parser that knows a few numerals. *)
Definition exampleStageEnv : StageEnvironment :=
  mkStageEnv
    (fun source _ _ _ => source)
    (fun _ _ _ _ => Complete)
    (fun s =>
       if String.eqb s "0" then Finite 0
       else if String.eqb s "1" then Finite 1
       else if String.eqb s "5" then Finite 5
       else if String.eqb s "0.25" then Finite (1 # 4)
       else if String.eqb s "0.75" then Finite (3 # 4)
       else if String.eqb s "-1" then Finite (-1)
       else NaN)
    (fun _ datatype => mkTerm 0 (Literal "" "" datatype))
    (mkSES "ses:search" "ses:matchAllTerms" "ses:minRelevance" "ses:maxRelevance"
           "ses:minRank" "ses:maxRank" "ses:relevance" "ses:rank")
    "http://www.w3.org/2001/XMLSchema#float"
    "http://www.w3.org/2001/XMLSchema#integer".

(** The contexts the BGP stage builder is called with in a plan. *)
Fixpoint bgpContexts (plan : Plan) : list ExecutionContext :=
  let sourceContexts (source : option Plan) :=
    match source with Some s => bgpContexts s | None => [] end in
  match plan with
  | EngineOf _ => []
  | Execute kind source _ context =>
      sourceContexts source
      ++ match kind, context with
         | BGP, Some c => [c]
         | _, _ => []
         end
  | Modifier _ source _ | Skip source _ | Limit source _
  | MapWithoutVariables source _ | ExtendByBindings source _ => bgpContexts source
  | Merge sources =>
      (fix all (ps : list Plan) : list ExecutionContext :=
         match ps with
         | [] => []
         | p :: ps' => bgpContexts p ++ all ps'
         end) sources
  end.

(** Whether the plan slices its result with [limit]. *)
Fixpoint hasLimit (plan : Plan) : bool :=
  match plan with
  | Limit _ _ => true
  | Execute _ (Some source) _ _ | Modifier _ source _ | Skip source _
  | MapWithoutVariables source _ | ExtendByBindings source _ => hasLimit source
  | _ => false
  end.

(** A plan environment for the examples: no property path is extracted,
    a VALUES row is substituted into the triples of a BGP. *)
Definition examplePlanEnv : PlanEnvironment :=
  mkPlanEnv
    (fun triples => (triples, [], []))
    (fun g bindings =>
       match g with
       | BgpPattern triples => BgpPattern (List.map (Bindings.bound bindings) triples)
       | _ => g
       end)
    (fun v => match v with
              | TermVariable t => rdf.value t
              | VariableExpression _ t => rdf.value t
              | Wildcard => "*"
              end).

(** A plan builder of the test engine after [useCache()]. *)
Definition cachingBuilder : PlanBuilder :=
  PlanBuilder.useCache (PlanBuilder.new (fun q => q) ∅) None.

Definition spo : Triple := mkTriple (var 30 "s") (var 31 "p") (var 32 "o").

(** [SELECT ?s ?p ?o WHERE { ?s ?p ?o } LIMIT 10] *)
Definition selectLimit10 : Query :=
  mkQuery "SELECT" ∅ None
          (Some [TermVariable (var 30 "s"); TermVariable (var 31 "p"); TermVariable (var 32 "o")])
          (Some [BgpPattern [spo]]) None None None None None (Some 10%nat).

(** [DESCRIBE ?s WHERE { ?s ?p ?o } LIMIT 10] *)
Definition describeLimit10 : Query :=
  mkQuery "DESCRIBE" ∅ None (Some [TermVariable (var 30 "s")])
          (Some [BgpPattern [spo]]) None None None None None (Some 10%nat).

(** "Merges every run of consecutive BGP groups into a single BGP whose
    triple list is their concatenation in order", as a function of its own:
    a BGP is joined with the merged BGP that follows it. *)
Fixpoint mergeRuns (groups : list Pattern) : list Pattern :=
  match groups with
  | [] => []
  | g :: rest =>
      match g, mergeRuns rest with
      | BgpPattern ts, BgpPattern ts' :: rest' => BgpPattern (ts ++ ts') :: rest'
      | _, merged => g :: merged
      end
  end.

(** Two BGP groups stand next to each other. *)
Fixpoint adjacentBgps (groups : list Pattern) : bool :=
  match groups with
  | g :: (g' :: _) as rest =>
      (PlanBuilder.isBgp g && PlanBuilder.isBgp g') || adjacentBgps rest
  | _ => false
  end.

(** The triples and the other groups of a list, in order. *)
Definition atoms (groups : list Pattern) : list (Triple + Pattern) :=
  flat_map (fun g => match g with
                     | BgpPattern ts => List.map inl ts
                     | _ => [inr g]
                     end) groups.

(** A WHERE clause with two BGPs and a VALUES clause of one row. *)
Definition knows : Triple :=
  mkTriple (var 30 "s") coauthorOf (var 33 "friend").
Definition named : Triple :=
  mkTriple (var 30 "s") primaryFullPersonName (var 34 "name").
Definition rowThomas : gmap string Term := {[ "s" := thomas ]}.
Definition whereWithValues : list Pattern :=
  [BgpPattern [knows]; ValuesPattern [rowThomas]; BgpPattern [named]].
Definition whereWithoutValues : list Pattern :=
  [FilterPattern (ETerm thomasName); BgpPattern [knows];
   OptionalPattern [BgpPattern [spo]]; BgpPattern [named]].

(** What the loop has built so far, followed by the merged rest. *)
Definition glue (acc merged : list Pattern) : list Pattern :=
  match last acc, merged with
  | Some (BgpPattern ts), BgpPattern ts' :: rest =>
      removelast acc ++ BgpPattern (ts ++ ts') :: rest
  | _, _ => acc ++ merged
  end.

(** [prec] is a BGP exactly when the last group built is one. *)
Definition precAgrees (acc : list Pattern) (prec : option Pattern) : Prop :=
  match prec with
  | None => acc = []
  | Some g => ∃ g', last acc = Some g' ∧ PlanBuilder.isBgp g' = PlanBuilder.isBgp g
  end.


(** The validation rules of the full-text-search magic triples, stated on
    their own: the triple is rejected when its subject is not the query
    variable, or when its object does not fit its predicate. *)
Definition malformedMagicTriple (env : StageEnvironment) (queryVariable : Term)
  (triple : Triple) : bool :=
  let name := rdf.value (predicate triple) in
  let obj := object triple in
  let n := Number env (rdf.value obj) in
  negb (rdf.termEquals (subject triple) queryVariable)
  || (if String.eqb name (SES_search (SES env)) then negb (rdf.isLiteral obj)
      else if String.eqb name (SES_matchAllTerms (SES env)) then false
      else if String.eqb name (SES_minRelevance (SES env))
              || String.eqb name (SES_maxRelevance (SES env))
      then negb (rdf.isLiteral obj) || JS.isNaN n
      else if String.eqb name (SES_minRank (SES env))
              || String.eqb name (SES_maxRank (SES env))
      then negb (rdf.isLiteral obj) || JS.isNaN n || negb (JS.isInteger n) || JS.lt n JS.zero
      else if String.eqb name (SES_relevance (SES env))
              || String.eqb name (SES_rank (SES env))
      then negb (rdf.isVariable obj)
      else false).

(** What an accepted magic triple sets. *)
Definition magicUpdate (env : StageEnvironment) (p : FullTextSearchParameters)
  (triple : Triple) : FullTextSearchParameters :=
  let name := rdf.value (predicate triple) in
  let obj := object triple in
  let n := Number env (rdf.value obj) in
  if String.eqb name (SES_search (SES env)) then
    mkFTS (JS.split (rdf.value obj)) (matchAll p) (minScore p) (maxScore p)
          (minRank p) (maxRank p) (addScore p) (addRank p) (scoreVariable p) (rankVariable p)
  else if String.eqb name (SES_matchAllTerms (SES env)) then
    mkFTS (keywords p)
          (String.eqb (JS.toLowerCase (rdf.value obj)) "true"
           || String.eqb (JS.toLowerCase (rdf.value obj)) "1")
          (minScore p) (maxScore p) (minRank p) (maxRank p)
          (addScore p) (addRank p) (scoreVariable p) (rankVariable p)
  else if String.eqb name (SES_minRelevance (SES env)) then
    mkFTS (keywords p) (matchAll p) (Some n) (maxScore p) (minRank p) (maxRank p)
          (addScore p) (addRank p) (scoreVariable p) (rankVariable p)
  else if String.eqb name (SES_maxRelevance (SES env)) then
    mkFTS (keywords p) (matchAll p) (minScore p) (Some n) (minRank p) (maxRank p)
          (addScore p) (addRank p) (scoreVariable p) (rankVariable p)
  else if String.eqb name (SES_minRank (SES env)) then
    mkFTS (keywords p) (matchAll p) (minScore p) (maxScore p) (Some n) (maxRank p)
          (addScore p) (addRank p) (scoreVariable p) (rankVariable p)
  else if String.eqb name (SES_maxRank (SES env)) then
    mkFTS (keywords p) (matchAll p) (minScore p) (maxScore p) (minRank p) (Some n)
          (addScore p) (addRank p) (scoreVariable p) (rankVariable p)
  else if String.eqb name (SES_relevance (SES env)) then
    mkFTS (keywords p) (matchAll p) (minScore p) (maxScore p) (minRank p) (maxRank p)
          true (addRank p) (Some obj) (rankVariable p)
  else if String.eqb name (SES_rank (SES env)) then
    mkFTS (keywords p) (matchAll p) (minScore p) (maxScore p)
          (match minRank p with None => Some JS.zero | r => r end) (maxRank p)
          (addScore p) true (scoreVariable p) (Some obj)
  else p.

(** The predicate of the triple is one of the four bounds. *)
Definition isBoundTriple (env : StageEnvironment) (triple : Triple) : bool :=
  let name := rdf.value (predicate triple) in
  String.eqb name (SES_minRelevance (SES env)) || String.eqb name (SES_maxRelevance (SES env))
  || String.eqb name (SES_minRank (SES env)) || String.eqb name (SES_maxRank (SES env)).

(** The query variable [?o] and the magic triple [?o ses:relevance "score"],
    whose object is a literal where a variable is required. *)
Definition queryVariable_o : Term := var 40 "o".
Definition relevanceLiteral : Triple :=
  mkTriple (var 41 "o") (mkTerm 42 (NamedNode "ses:relevance"))
           (mkTerm 43 (Literal "score" "" "http://www.w3.org/2001/XMLSchema#string")).

(** ** Further definitions used by the statements below *)

(** A term that [BindingBase.fromMapping] accepts as the value of a binding. *)
Definition bindable (t : Term) : bool :=
  negb (rdf.isVariable t || rdf.isBlankNode t || rdf.isQuad t || rdf.isPropertyPath t).

(** The three terms of a triple. *)
Definition termsOf (t : Triple) : list Term := [subject t; predicate t; object t].

(** A blank node of the data and a graph of the test suite that holds the
    one triple [Thomas coCreatorWith _:b0]. *)
Definition blank0 : Term := mkTerm 15 (BlankNode "b0").
Definition graphWithBlankNode : Graph :=
  N3Graph.new [mkTriple thomas coauthorOf blank0].

(** A grouped mapping: [?s -> Thomas] with the rows of its group. *)
Definition mu_grouped : Bindings :=
  Bindings.setProperty mu_s1 "__aggregate" (AggregateRows {[ "o" := [florian; thomas] ]}).

(** An evaluator that knows the aggregate COUNT (here: the number of rows
    of the variable, as a literal that holds it in unary). *)
Definition countTables : ExpressionTables :=
  mkTables ∅
    {[ "count" := (fun (variable : Term) (rows : BindingGroup) (_ : option string) =>
                     Return (OTerm (mkTerm 0
                       (Literal (String.concat "" (List.map (fun _ => "I") (default [] (rows !! rdf.value variable))))
                                "" "http://www.w3.org/2001/XMLSchema#integer")))) ]}
    ∅ ∅ (fun t => rdf.value t).

(** What the index join answers [pairPattern] with from the grouped mapping
    over the one-triple graph. *)
Definition mu_joined : Bindings :=
  Bindings.set (Bindings.set mu_s1 "x" thomas) "y" florian.

(** Whether an expression can be compiled, read off the shape of the
    expression and the names the tables know: every operation and aggregate
    is known, every function call names a framework aggregate (in lower
    case) or a custom function.  The arguments of a function call are not
    looked at. *)
Fixpoint compiles (tables : ExpressionTables) (customs : gmap string CustomFunction)
  (expression : Expression) : bool :=
  match expression with
  | ETerm _ | ETerms _ => true
  | EOperation operator args =>
      forallb (compiles tables customs) args
      && bool_decide (is_Some (SPARQL_OPERATIONS tables !! operator))
  | EAggregate aggregation _ _ _ =>
      bool_decide (is_Some (SPARQL_AGGREGATES tables !! aggregation))
  | EFunctionCall functionName _ =>
      bool_decide (is_Some (CUSTOM_AGGREGATES tables !! JS.toLowerCase functionName))
      || bool_decide (is_Some (customs !! functionName))
  | EOther _ => false
  end.

(** An evaluator whose only operation is the logical negation of the
    tests, and a call of a function nobody registered. *)
Definition notTables : ExpressionTables :=
  mkTables {[ "!" := (fun _ : list ExpressionOutput => Return ONull) ]} ∅ ∅ ∅
           (fun t => rdf.value t).
Definition unknownCall : Expression := EFunctionCall "http://test.com#MISSING" [].

(** A framework aggregate registered under a lower-case name. *)
Definition frameworkAggregateTables : ExpressionTables :=
  mkTables ∅ ∅
    {[ "https://callidon.github.io/sparql-engine/aggregates#accuracy" :=
         (fun (_ : list Expression) (_ : PropertyValue) => Return (OTerm thomasName)) ]}
    ∅ (fun t => rdf.value t).

(** What holds of the parameters of a full-text search once every magic
    triple was read: the relevance bounds are numbers, the rank bounds are
    non-negative integers, and a score or rank that is asked for comes
    with the variable that receives it (and a rank with a minimum rank). *)
Definition validScore (n : option JSNumber) : bool :=
  match n with Some n => negb (JS.isNaN n) | None => true end.
Definition validRank (n : option JSNumber) : bool :=
  match n with
  | Some n => negb (JS.isNaN n || negb (JS.isInteger n) || JS.lt n JS.zero)
  | None => true
  end.
Definition isVariableOption (t : option Term) : bool :=
  match t with Some v => rdf.isVariable v | None => false end.
Definition wellFormedParameters (p : FullTextSearchParameters) : bool :=
  validScore (minScore p) && validScore (maxScore p)
  && validRank (minRank p) && validRank (maxRank p)
  && implb (addScore p) (isVariableOption (scoreVariable p))
  && implb (addRank p)
       (isVariableOption (rankVariable p) && bool_decide (is_Some (minRank p))).

(** The magic triples of a search for two keywords that asks for the rank
    of each result and bounds the relevance from below. *)
Definition rankedSearch : list Triple :=
  [ mkTriple (var 41 "o") (mkTerm 44 (NamedNode "ses:search"))
             (mkTerm 45 (Literal "neil gaiman" "" "http://www.w3.org/2001/XMLSchema#string"));
    mkTriple (var 41 "o") (mkTerm 46 (NamedNode "ses:rank")) (var 47 "r");
    mkTriple (var 41 "o") (mkTerm 48 (NamedNode "ses:minRelevance"))
             (mkTerm 49 (Literal "0.25" "" "http://www.w3.org/2001/XMLSchema#string")) ].

(** A graph whose full-text search answers every query with one triple of
    score 0.75 and rank 0. *)
Definition searchableGraph : Graph :=
  mkGraph (mkTerm 0 (NamedNode "urn:sparql-engine:DefaultGraph"))
          [mkTriple thomas coauthorOf florian] 0
          (N3Graph.find [mkTriple thomas coauthorOf florian]) (fun _ _ => Complete)
          (fun _ _ _ _ _ _ _ _ _ =>
             Pipeline.of_ (mkTriple thomas coauthorOf florian, Finite (3 # 4), Finite 0)).

(** An input of the search that already binds [?r], with a property. *)
Definition mu_ranked : Bindings :=
  Bindings.setProperty (Bindings.set (Bindings.set Bindings.empty "r" thomasName) "s" thomas)
                       "__aggregate" (AggregateRows ∅).

(** What the ranked search over [searchableGraph] answers [mu_ranked] with
    for the pattern [?s coCreatorWith ?y]. *)
Definition mu_ranked_out : Bindings :=
  Bindings.setProperty
    (Bindings.set
       (Bindings.set
          (Bindings.set Bindings.empty "r"
             (mkTerm 0 (Literal "" "" "http://www.w3.org/2001/XMLSchema#integer")))
          "s" thomas)
       "y" florian)
    "__aggregate" (AggregateRows ∅).

(** The blank nodes of a BGP, one entry per occurrence, in the order
    subject, predicate, object of each pattern. *)
Definition blankNodes (patterns : list Triple) : list Term :=
  List.filter rdf.isBlankNode (flat_map termsOf patterns).

(** What replacing blank nodes does at one position: a blank node becomes
    the variable named by its label without the first two characters, any
    other term stays the object it is. *)
Definition rewritten (t t' : Term) : Prop :=
  if rdf.isBlankNode t then node t' = Var (JS.slice (rdf.value t) 2) else t' = t.

(** The pattern [_:e_b0 coCreatorWith ?y], whose subject is a blank node the
    parser labelled, and a dataset with the one-triple graph as default. *)
Definition blankPattern : Triple :=
  mkTriple (mkTerm 30 (BlankNode "e_b0")) coauthorOf (var 22 "y").
Definition noRewritings : RewritingEnvironment :=
  mkRewritings (fun patterns hints => (patterns, hints)) (fun patterns => mkExtraction [] patterns).
Definition oneGraphDataset : Dataset :=
  mkDataset oneTripleGraph
            (fun _ => Throw (GenericError "no such graph"))
            (fun _ => Return oneTripleGraph)
            [oneTripleGraph]
            (fun _ => Throw (GenericError "no graph factory")).

(** A context whose default graph is the variable [?g]. *)
Definition variableGraphContext : ExecutionContext :=
  ExecutionContext.setGraphs ExecutionContext.new [var 50 "g"] [].

(** Rewritings that find one full-text-search query, with a malformed
    magic triple, beside the classic patterns. *)
Definition searchRewritings : RewritingEnvironment :=
  mkRewritings (fun patterns hints => (patterns, hints))
               (fun patterns =>
                  mkExtraction [mkFTSQuery pairPattern queryVariable_o [relevanceLiteral]]
                               patterns).

(** The plan is the result form of a query (SELECT, CONSTRUCT or ASK),
    with or without DISTINCT on top of it. *)
Definition isResultForm (p : Plan) : bool :=
  match p with
  | Modifier _ _ _ => true
  | Execute DISTINCT (Some (Modifier _ _ _)) ArgNone (Some _) => true
  | _ => false
  end.

(** A SELECT query with OFFSET 5 and LIMIT 10. *)
Definition selectOffsetLimit : Query :=
  mkQuery "SELECT" ∅ None (Some [Wildcard]) (Some [BgpPattern [pairPattern]])
          None None None None (Some 5) (Some 10).


(** The plan builders a program can reach: made by [new], then changed by
    [use], [useCache] and [disableCache]. *)
Inductive Configured : PlanBuilder → Prop :=
| configured_new optimizer customFunctions :
    Configured (PlanBuilder.new optimizer customFunctions)
| configured_use this kind :
    Configured this → Configured (PlanBuilder.use this kind)
| configured_useCache this customCache :
    Configured this → Configured (PlanBuilder.useCache this customCache)
| configured_disableCache this :
    Configured this → Configured (PlanBuilder.disableCache this).

(** The plan of one VALUES clause beside the groups [others]: one branch
    per row, the row substituted into the groups, and the branches merged
    (the body of the outer loop of [_buildValues]). *)
Definition valuesClausePlan (env : PlanEnvironment) (this : PlanBuilder) (depth : nat)
  (source : Plan) (others : list Pattern) (context : ExecutionContext)
  (rows : list (gmap string Term)) : Completion Plan :=
  match
    PlanBuilder.mapThrowing
      (fun b =>
         match Bindings.fromValues b with
         | Throw e => Throw e
         | Return bindings =>
             match PlanBuilder._buildWhere env this depth source
                     (List.map (fun g => deepApplyBindings env g bindings) others) context with
             | Throw e => Throw e
             | Return plan => Return (ExtendByBindings plan bindings)
             end
         end)
      rows
  with
  | Throw e => Throw e
  | Return unionBranches => Return (Merge unionBranches)
  end.

(** The contexts a plan hands to its stage builders, of whatever kind. *)
Fixpoint planContexts (plan : Plan) : list ExecutionContext :=
  match plan with
  | EngineOf _ => []
  | Execute _ source _ context =>
      match source with Some s => planContexts s | None => [] end
      ++ match context with Some c => [c] | None => [] end
  | Modifier _ source _ | Skip source _ | Limit source _
  | MapWithoutVariables source _ | ExtendByBindings source _ => planContexts source
  | Merge sources =>
      (fix all (ps : list Plan) : list ExecutionContext :=
         match ps with
         | [] => []
         | p :: ps' => planContexts p ++ all ps'
         end) sources
  end.

(** Every context of the plan carries the cache [k]. *)
Definition sharesCache (k : option BGPCache) (plan : Plan) : Prop :=
  ∀ c, c ∈ planContexts plan → cache c = k.

(** A query with a VALUES clause, a sub-query and an OPTIONAL beside its
    BGP, and the plan the caching builder makes of it. *)
Definition nestedQuery : Query :=
  mkQuery "SELECT" ∅ None (Some [Wildcard])
          (Some [BgpPattern [spo];
                 ValuesPattern [{[ "s" := thomas ]}; {[ "s" := florian ]}];
                 SubQuery selectLimit10;
                 OptionalPattern [BgpPattern [pairPattern]]])
          None None None None None None.
Definition nestedPlan : Plan :=
  Eval vm_compute in
    match PlanBuilder.build examplePlanEnv cachingBuilder 8 (QueryNode nestedQuery) None with
    | Return plan => plan
    | Throw _ => EngineOf Bindings.empty
    end.

(** Whether no name the evaluator looks up for the expression (operator,
    aggregate, function name and its lower-case form, in the arguments
    too) is a property name of [Object.prototype]: the expressions for
    which looking a name up with [in] is looking it up among the own keys
    of the tables. *)
Fixpoint noInheritedName (expression : Expression) : bool :=
  match expression with
  | ETerm _ | ETerms _ | EOther _ => true
  | EOperation operator args =>
      negb (bool_decide (operator ∈ JS.objectPrototypeNames))
      && forallb noInheritedName args
  | EAggregate aggregation _ _ _ =>
      negb (bool_decide (aggregation ∈ JS.objectPrototypeNames))
  | EFunctionCall functionName args =>
      negb (bool_decide (functionName ∈ JS.objectPrototypeNames))
      && negb (bool_decide (JS.toLowerCase functionName ∈ JS.objectPrototypeNames))
      && forallb noInheritedName args
  end.

(** Whether the expression holds no DISTINCT aggregate, whose evaluation
    stores the deduplicated rows back into the group the mapping holds. *)
Fixpoint noDistinctAggregate (expression : Expression) : bool :=
  match expression with
  | EAggregate _ _ distinct _ => negb distinct
  | EOperation _ args | EFunctionCall _ args => forallb noDistinctAggregate args
  | _ => true
  end.

(** The expressions on which the evaluator is followed to the letter: no
    name found by inheritance, no rows rewritten in place. *)
Definition withinModel (expression : Expression) : bool :=
  noInheritedName expression && noDistinctAggregate expression.

(** What BIND emits for one input whose evaluation gives no array or
    iterable: the input with the target set, or nothing when the
    evaluation throws. *)
Definition boundScalar (expr : CompiledExpression) (variable : Term) (mu : Bindings)
  : option Bindings :=
  match SPARQLExpression.evaluate expr mu with
  | Return (OTerm t) => Some (Bindings.set mu (rdf.value variable) t)
  | Return ONull => Some (Bindings.set mu (rdf.value variable) rdf.createUnbound)
  | _ => None
  end.
(** *** Facts about solution mappings *)

Section BindingsFacts.

Implicit Types this other mu : Bindings.

Lemma Bindings_eta this : mkBindings (_content this) (_properties this) = this.
Proof. by destruct this. Qed.

(** A clone has the same mappings and the same properties. *)
Lemma clone_id this : Bindings.clone this = this.
Proof.
  unfold Bindings.clone.
  assert (Hp : map_fold (fun key value acc => Bindings.setProperty acc key value)
                 Bindings.empty (_properties this)
               = mkBindings ∅ (_properties this)).
  { apply (map_fold_weak_ind
             (fun r (m : gmap string PropertyValue) => r = mkBindings ∅ m)); [done|].
    by intros i x m r _ ->. }
  rewrite Hp.
  rewrite <- (Bindings_eta this) at 3.
  apply (map_fold_weak_ind
           (fun r (m : gmap string Term) => r = mkBindings m (_properties this))); [done|].
  by intros i x m r _ ->.
Qed.

(** [union]: the right operand overwrites; the property bag is the left one's. *)
Lemma union_spec this other :
  Bindings.union this other
  = mkBindings (_content other ∪ _content this) (_properties this).
Proof.
  unfold Bindings.union. rewrite clone_id.
  apply (map_fold_weak_ind
           (fun r (m : gmap string Term) =>
              r = mkBindings (m ∪ _content this) (_properties this))).
  - by rewrite (left_id_L ∅ (∪)), Bindings_eta.
  - intros i x m r _ ->. unfold Bindings.set; simpl.
    by rewrite insert_union_l.
Qed.

Lemma union_lookup_r this other v t :
  _content other !! v = Some t →
  _content (Bindings.union this other) !! v = Some t.
Proof. intros H. rewrite union_spec; simpl. by apply lookup_union_Some_l. Qed.

Lemma union_lookup_l this other v :
  _content other !! v = None →
  _content (Bindings.union this other) !! v = _content this !! v.
Proof. intros H. rewrite union_spec; simpl. by apply lookup_union_r. Qed.

Lemma variables_elem this v :
  v ∈ Bindings.variables this ↔ is_Some (_content this !! v).
Proof.
  unfold Bindings.variables. rewrite list_elem_of_fmap. split.
  - intros [[k t] [-> Hin]]. apply elem_of_map_to_list in Hin. eauto.
  - intros [t Ht]. exists (v, t). split; [done|]. by apply elem_of_map_to_list.
Qed.

(** [isSubset] holds exactly when every mapping of [this] is, as the same
    object, a mapping of [other]. *)
Lemma isSubset_spec this other :
  Bindings.isSubset this other = true ↔ _content this ⊆ _content other.
Proof.
  unfold Bindings.isSubset. rewrite forallb_forall, map_subseteq_spec.
  split.
  - intros H v t Hv.
    assert (Hin : In v (Bindings.variables this)).
    { apply list_elem_of_In, variables_elem. eauto. }
    apply H in Hin. apply andb_prop in Hin as [_ Heq].
    unfold strictEq, Bindings.get in Heq. apply bool_decide_eq_true in Heq.
    congruence.
  - intros H v Hin. apply list_elem_of_In, variables_elem in Hin as [t Ht].
    pose proof (H v t Ht) as Ho.
    unfold Bindings.hasVariable, strictEq, Bindings.get.
    rewrite Ht, Ho. apply andb_true_intro. split; apply bool_decide_eq_true; eauto.
Qed.

(** [equals] holds exactly when the two maps hold the same objects. *)
Lemma equals_spec this other :
  Bindings.equals this other = true ↔ _content this = _content other.
Proof.
  unfold Bindings.equals, Bindings.size. split.
  - destruct (Nat.eqb_spec (base.size (_content this)) (base.size (_content other)))
      as [Hsz|Hsz]; simpl; [|done].
    rewrite forallb_forall. intros H. symmetry.
    apply map_subseteq_size_eq; [|lia].
    apply map_subseteq_spec. intros v t Hv.
    assert (Hin : In v (Bindings.variables other)).
    { apply list_elem_of_In, variables_elem. eauto. }
    apply H in Hin. rewrite negb_orb, !negb_involutive in Hin.
    apply andb_prop in Hin as [_ Heq].
    unfold strictEq, Bindings.get in Heq. apply bool_decide_eq_true in Heq.
    congruence.
  - intros Heq. rewrite Heq, Nat.eqb_refl; simpl.
    rewrite forallb_forall. intros v Hin.
    apply list_elem_of_In, variables_elem in Hin as [t Ht].
    unfold Bindings.hasVariable, strictEq, Bindings.get.
    rewrite Heq, Ht. rewrite negb_orb, !negb_involutive.
    apply andb_true_intro. split; apply bool_decide_eq_true; eauto.
Qed.

(** Hence [equals] implies the same domain and pointwise equal terms. *)
Lemma equals_sound this other :
  Bindings.equals this other = true →
  dom (_content this) = dom (_content other)
  ∧ ∀ v a b, _content this !! v = Some a → _content other !! v = Some b →
             rdf.termEquals a b = true.
Proof.
  intros H%equals_spec. rewrite H. split; [done|].
  intros v a b Ha Hb. apply bool_decide_eq_true. congruence.
Qed.

End BindingsFacts.

(** *** Facts about pipeline stages *)

Section PipelineFacts.
Context {A B : Type}.
Implicit Types (s : PipelineStage A) (f : A → PipelineStage B).

Lemma toArray_from (xs : list A) : Pipeline.toArray (Pipeline.from xs) = xs.
Proof. induction xs as [|x xs IH]; simpl; congruence. Qed.

Lemma completes_from (xs : list A) : Pipeline.completes (Pipeline.from xs) = true.
Proof. by induction xs. Qed.

Lemma toArray_andThen {T} (s1 s2 : PipelineStage T) :
  Pipeline.completes s1 = true →
  Pipeline.toArray (Pipeline.andThen s1 s2) = Pipeline.toArray s1 ++ Pipeline.toArray s2.
Proof. induction s1; simpl; intros H; [done|by rewrite IHs1|done]. Qed.

Lemma completes_andThen {T} (s1 s2 : PipelineStage T) :
  Pipeline.completes (Pipeline.andThen s1 s2)
  = Pipeline.completes s1 && Pipeline.completes s2.
Proof. induction s1; simpl; auto. Qed.

(** A value that reached the sink after [andThen] came from one of the two. *)
Lemma elem_of_toArray_andThen {T} (s1 s2 : PipelineStage T) x :
  x ∈ Pipeline.toArray (Pipeline.andThen s1 s2) →
  x ∈ Pipeline.toArray s1 ∨ x ∈ Pipeline.toArray s2.
Proof.
  induction s1 as [|v rest IH|e]; simpl; intros H.
  - by right.
  - apply elem_of_cons in H as [->|H]; [left; by left|].
    destruct (IH H) as [?|?]; [left; by right|by right].
  - by left.
Qed.

(** With callbacks that complete, [mergeMap] is [flat_map] on what reaches
    the sink. *)
Lemma toArray_mergeMap s f :
  (∀ x, Pipeline.completes (f x) = true) →
  Pipeline.toArray (Pipeline.mergeMap s f)
  = flat_map (fun x => Pipeline.toArray (f x)) (Pipeline.toArray s).
Proof.
  intros Hf. induction s as [|v rest IH|e]; simpl; [done| |done].
  by rewrite toArray_andThen, IH.
Qed.

(** Every output of [mergeMap] is an output of the callback on some input. *)
Lemma elem_of_toArray_mergeMap s f y :
  y ∈ Pipeline.toArray (Pipeline.mergeMap s f) →
  ∃ x, x ∈ Pipeline.toArray s ∧ y ∈ Pipeline.toArray (f x).
Proof.
  induction s as [|v rest IH|e]; simpl; intros H.
  - by apply elem_of_nil in H.
  - apply elem_of_toArray_andThen in H as [H|H].
    + exists v. split; [by left|done].
    + destruct (IH H) as (x & Hx & Hy). exists x. split; [by right|done].
  - by apply elem_of_nil in H.
Qed.

(** Every output of [map] is the value returned for some input. *)
Lemma elem_of_toArray_map s (g : A → Completion B) y :
  y ∈ Pipeline.toArray (Pipeline.map s g) →
  ∃ x, x ∈ Pipeline.toArray s ∧ g x = Return y.
Proof.
  induction s as [|v rest IH|e]; simpl; intros H.
  - by apply elem_of_nil in H.
  - destruct (g v) as [b|e] eqn:E; simpl in H.
    + apply elem_of_cons in H as [->|H].
      * exists v. split; [by left|done].
      * destruct (IH H) as (x & Hx & Hy). exists x. split; [by right|done].
    + by apply elem_of_nil in H.
  - by apply elem_of_nil in H.
Qed.

Lemma toArray_filter s (p : A → bool) :
  Pipeline.toArray (Pipeline.filter s p) = List.filter p (Pipeline.toArray s).
Proof.
  induction s as [|v rest IH|e]; simpl; [done| |done].
  destruct (p v); simpl; by rewrite IH.
Qed.

End PipelineFacts.

(** *** Equality of mappings and the default cache *)

(** C9, at two mappings that have the same domain and pointwise equal
    terms held by distinct objects (as two calls of
    [BindingBase.fromObject({'?s': ':s1'})] build them): [equals] compares
    the objects with [!==] and answers false. *)
Theorem equals_rejects_equal_terms :
  dom (_content mu_s1) = dom (_content mu_s1')
  ∧ (∀ v a b, _content mu_s1 !! v = Some a → _content mu_s1' !! v = Some b →
              rdf.termEquals a b = true)
  ∧ Bindings.equals mu_s1 mu_s1' = false.
Proof.
  split; [by vm_compute|]. split; [|by vm_compute].
  intros v a b Ha Hb. unfold mu_s1, mu_s1', Bindings.set in *; simpl in *.
  destruct (decide (v = "s")) as [->|Hne].
  - rewrite lookup_insert_eq in Ha, Hb. by simplify_eq.
  - by rewrite lookup_insert_ne, lookup_empty in Ha.
Qed.

(** C5, evaluated: without an argument [useCache] installs an LRU cache of
    500 entries whose maximum age is [1200 * 60 * 60] = 4 320 000, which is
    72 minutes and not the documented 20. *)
Theorem useCache_default_cache (this : PlanBuilder) :
  _currentCache (PlanBuilder.useCache this None) = Some (LRUBGPCache 500 4320000)
  ∧ 4320000%Z = minutes 72
  ∧ 4320000%Z ≠ minutes 20.
Proof. split; [reflexivity|]. split; [reflexivity|]. by vm_compute. Qed.

(** *** BIND and FILTER *)

Section BindFacts.
Context (tables : ExpressionTables).

Lemma bindOne_completes expr variable mu :
  Pipeline.completes (bindOne expr variable mu) = true.
Proof.
  unfold bindOne. destruct (SPARQLExpression.evaluate expr mu) as [[t|ts|]|e]; simpl; auto.
  apply completes_from.
Qed.

(** What [bind] emits for one input, by the outcome of the evaluation. *)
Lemma bindOne_toArray expr variable mu :
  Pipeline.toArray (bindOne expr variable mu)
  = match SPARQLExpression.evaluate expr mu with
    | Return (OTerm t) => [Bindings.set mu (rdf.value variable) t]
    | Return ONull => [Bindings.set mu (rdf.value variable) rdf.createUnbound]
    | Return (OTerms ts) =>
        List.map (fun o => Bindings.set mu (rdf.value variable) (default rdf.createUnbound o)) ts
    | Throw _ => []
    end.
Proof.
  unfold bindOne. destruct (SPARQLExpression.evaluate expr mu) as [[t|ts|]|e]; simpl;
    rewrite ?clone_id; try done.
  rewrite toArray_from. apply map_ext. by intros [t|].
Qed.

(** An exception that escapes the evaluation is silenced: nothing is
    emitted for that input. *)
Lemma bindOne_silences_throw expr variable mu e :
  SPARQLExpression.evaluate expr mu = Throw e →
  bindOne expr variable mu = Pipeline.empty.
Proof. unfold bindOne. by intros ->. Qed.

(** The call of a custom function catches whatever its evaluation throws
    and returns [null]. *)
Lemma compile_custom_function customs name args f :
  CUSTOM_AGGREGATES tables !! JS.toLowerCase name = None →
  customs !! name = Some f →
  ∃ expr,
    SPARQLExpression._compileExpression tables customs (EFunctionCall name args) = Return expr
    ∧ ∀ mu,
        expr mu
        = match
            match SPARQLExpression.mapThrowing
                    (SPARQLExpression._compileExpression tables customs) args with
            | Throw e => Throw e
            | Return args' =>
                match SPARQLExpression.mapThrowing
                        (fun arg : CompiledExpression => arg mu) args' with
                | Throw e => Throw e
                | Return values => f values
                end
            end
          with
          | Return output => Return output
          | Throw _ => Return ONull
          end.
Proof.
  intros Hagg Hf. eexists. split.
  - simpl. rewrite Hagg, Hf. reflexivity.
  - intros mu. reflexivity.
Qed.

End BindFacts.

(** C1, at [BIND(test:BOTH(?thomas) AS ?x)] where the custom function
    returns an array of two terms: the single input mapping gives two
    output mappings, one per term. *)
Lemma bind_emits_one_mapping_per_term :
  ∃ stage,
    bind noTables (Pipeline.of_ mu_thomas) (var 3 "x")
         (EFunctionCall "http://test.com#BOTH" [ETerm (var 5 "thomas")]) listingFunctions
    = Return stage
    ∧ Pipeline.toArray stage
      = [Bindings.set mu_thomas "x" thomas; Bindings.set mu_thomas "x" thomasName]
    ∧ length (Pipeline.toArray stage)
      ≠ length (Pipeline.toArray (Pipeline.of_ mu_thomas)).
Proof. eexists. split; [reflexivity|]. split; [by vm_compute|]. by vm_compute. Qed.

(** C1 as amended: for an expression that compiles, [bind] maps every input
    through the evaluation.  An evaluation that returns a term gives one
    mapping with the target bound to it; one that returns [null] gives one
    mapping with the target bound to the Unbound sentinel; one that returns
    a list or iterable gives one mapping per element.  The count of the
    input is preserved when every evaluation returns a term or [null]. *)
Theorem bind_emits_per_evaluation (tables : ExpressionTables)
  (source : PipelineStage Bindings) (variable : Term) (expression : Expression)
  (customFunctions : gmap string CustomFunction) (expr : CompiledExpression) :
  SPARQLExpression.new tables expression customFunctions = Return expr →
  bind tables source variable expression customFunctions
  = Return (Pipeline.mergeMap source (bindOne expr variable))
  ∧ (∀ mu,
       match SPARQLExpression.evaluate expr mu with
       | Return (OTerm t) =>
           Pipeline.toArray (bindOne expr variable mu)
           = [Bindings.set mu (rdf.value variable) t]
       | Return ONull =>
           Pipeline.toArray (bindOne expr variable mu)
           = [Bindings.set mu (rdf.value variable) rdf.createUnbound]
       | Return (OTerms ts) =>
           Pipeline.toArray (bindOne expr variable mu)
           = List.map (fun o => Bindings.set mu (rdf.value variable)
                                             (default rdf.createUnbound o)) ts
       | Throw _ => True
       end)
  ∧ ((∀ mu, mu ∈ Pipeline.toArray source →
            (∃ t, SPARQLExpression.evaluate expr mu = Return (OTerm t))
            ∨ SPARQLExpression.evaluate expr mu = Return ONull) →
     length (Pipeline.toArray (Pipeline.mergeMap source (bindOne expr variable)))
     = length (Pipeline.toArray source)).
Proof.
  intros Hnew. split; [|split].
  - unfold bind. by rewrite Hnew.
  - intros mu. pose proof (bindOne_toArray expr variable mu) as H.
    destruct (SPARQLExpression.evaluate expr mu) as [[t|ts|]|e]; done.
  - intros Hall. rewrite toArray_mergeMap by (intros; apply bindOne_completes).
    induction (Pipeline.toArray source) as [|mu l IH]; [done|]. simpl.
    rewrite length_app, IH.
    + rewrite bindOne_toArray.
      destruct (Hall mu) as [[t ->]| ->]; [by left|done..].
    + intros mu' Hin. apply Hall. by right.
Qed.

Lemma bind_emits_per_evaluation_witness :
  SPARQLExpression.new noTables (ETerm thomasName) ∅ = Return (fun _ => Return (OTerm thomasName))
  ∧ bind noTables (Pipeline.of_ Bindings.empty) (var 3 "x") (ETerm thomasName) ∅
    = Return (Pipeline.mergeMap (Pipeline.of_ Bindings.empty)
                (bindOne (fun _ => Return (OTerm thomasName)) (var 3 "x"))).
Proof.
  split; [reflexivity|].
  apply (bind_emits_per_evaluation noTables (Pipeline.of_ Bindings.empty) (var 3 "x")
           (ETerm thomasName) ∅ (fun _ => Return (OTerm thomasName))).
  reflexivity.
Defined.

(** C4: a custom function registered by the user (and not shadowed by a
    custom aggregate of the framework) that throws on the arguments
    evaluated under [mu].  BIND emits for [mu] exactly one mapping, with the
    target bound to the Unbound sentinel; FILTER emits none; in both stages
    the inputs before and after [mu] yield what they yield on their own. *)
Theorem custom_function_throw_policy (tables : ExpressionTables)
  (customFunctions : gmap string CustomFunction) (name : string) (args : list Expression)
  (f : CustomFunction) (variable : Term) (mu : Bindings) (e : Error)
  (args' : list CompiledExpression) (values : list ExpressionOutput)
  (before after : list Bindings) :
  customFunctions !! name = Some f →
  CUSTOM_AGGREGATES tables !! JS.toLowerCase name = None →
  SPARQLExpression.mapThrowing
    (SPARQLExpression._compileExpression tables (customFunctions ∪ CUSTOM_OPERATIONS tables))
    args = Return args' →
  SPARQLExpression.mapThrowing (fun arg : CompiledExpression => arg mu) args' = Return values →
  f values = Throw e →
  ∃ bindStage filterStage,
    (∀ source,
       bind tables source variable (EFunctionCall name args) customFunctions
       = Return (bindStage source)
       ∧ sparqlFilter tables source (EFunctionCall name args) customFunctions
         = Return (filterStage source))
    ∧ Pipeline.toArray (bindStage (Pipeline.of_ mu))
      = [Bindings.set mu (rdf.value variable) rdf.createUnbound]
    ∧ Pipeline.toArray (filterStage (Pipeline.of_ mu)) = []
    ∧ Pipeline.toArray (bindStage (Pipeline.from (before ++ mu :: after)))
      = Pipeline.toArray (bindStage (Pipeline.from before))
        ++ [Bindings.set mu (rdf.value variable) rdf.createUnbound]
        ++ Pipeline.toArray (bindStage (Pipeline.from after))
    ∧ Pipeline.toArray (filterStage (Pipeline.from (before ++ mu :: after)))
      = Pipeline.toArray (filterStage (Pipeline.from before))
        ++ Pipeline.toArray (filterStage (Pipeline.from after)).
Proof.
  intros Hf Hagg Hcompile Hvalues Hthrow.
  assert (Hmerged : (customFunctions ∪ CUSTOM_OPERATIONS tables) !! name = Some f)
    by (by apply lookup_union_Some_l).
  destruct (compile_custom_function tables _ name args f Hagg Hmerged) as (expr & Hexpr & Hrun).
  assert (Hnull : SPARQLExpression.evaluate expr mu = Return ONull).
  { unfold SPARQLExpression.evaluate. by rewrite Hrun, Hcompile, Hvalues, Hthrow. }
  assert (Hone : Pipeline.toArray (bindOne expr variable mu)
                 = [Bindings.set mu (rdf.value variable) rdf.createUnbound]).
  { by rewrite bindOne_toArray, Hnull. }
  exists (fun source => Pipeline.mergeMap source (bindOne expr variable)).
  exists (fun source =>
            Pipeline.filter source (fun bindings =>
              match SPARQLExpression.evaluate expr bindings with
              | Return (OTerm value) => isTrueBoolean value
              | _ => false
              end)).
  split; [|split; [|split; [|split]]].
  - intros source. unfold bind, sparqlFilter, SPARQLExpression.new. by rewrite Hexpr.
  - rewrite toArray_mergeMap by (intros; apply bindOne_completes). simpl.
    by rewrite Hone.
  - rewrite toArray_filter. simpl. by rewrite Hnull.
  - rewrite !toArray_mergeMap by (intros; apply bindOne_completes).
    rewrite !toArray_from, flat_map_app. simpl. by rewrite Hone.
  - rewrite !toArray_filter, !toArray_from, List.filter_app. simpl. by rewrite Hnull.
Qed.

Lemma custom_function_throw_policy_witness :
  ∃ bindStage filterStage,
    (∀ source,
       bind noTables source (var 4 "error")
            (EFunctionCall "http://test.com#ERROR" [ETerm (var 5 "thomas")]) errorFunctions
       = Return (bindStage source)
       ∧ sparqlFilter noTables source
           (EFunctionCall "http://test.com#ERROR" [ETerm (var 5 "thomas")]) errorFunctions
         = Return (filterStage source))
    ∧ Pipeline.toArray (bindStage (Pipeline.of_ mu_thomas))
      = [Bindings.set mu_thomas "error" rdf.createUnbound]
    ∧ Pipeline.toArray (filterStage (Pipeline.of_ mu_thomas)) = []
    ∧ Pipeline.toArray (bindStage (Pipeline.from ([Bindings.empty] ++ mu_thomas :: [mu_s1])))
      = Pipeline.toArray (bindStage (Pipeline.from [Bindings.empty]))
        ++ [Bindings.set mu_thomas "error" rdf.createUnbound]
        ++ Pipeline.toArray (bindStage (Pipeline.from [mu_s1]))
    ∧ Pipeline.toArray (filterStage (Pipeline.from ([Bindings.empty] ++ mu_thomas :: [mu_s1])))
      = Pipeline.toArray (filterStage (Pipeline.from [Bindings.empty]))
        ++ Pipeline.toArray (filterStage (Pipeline.from [mu_s1])).
Proof.
  apply (custom_function_throw_policy noTables errorFunctions "http://test.com#ERROR"
           [ETerm (var 5 "thomas")]
           (fun _ => Throw (GenericError "This should result in an unbould solution, but the query should still evaluate"))
           (var 4 "error") mu_thomas
           (GenericError "This should result in an unbould solution, but the query should still evaluate")
           [bindArgument (var 5 "thomas")] [OTerm thomasName]
           [Bindings.empty] [mu_s1]).
  - reflexivity.
  - reflexivity.
  - reflexivity.
  - reflexivity.
  - reflexivity.
Defined.

(** *** Index join and BGP evaluation *)

Section JoinFacts.
Implicit Types (mu b : Bindings) (t : Term).

Lemma isVariable_node t : rdf.isVariable t = true → node t = Var (rdf.value t).
Proof. unfold rdf.isVariable, rdf.value. by destruct (node t). Qed.

Lemma isVariable_not_path t : rdf.isVariable t = true → rdf.isPropertyPath t = false.
Proof. unfold rdf.isVariable, rdf.isPropertyPath. by destruct (node t). Qed.

(** [bound] substitutes position by position. *)
Lemma bound_substitute mu (triple : Triple) :
  Bindings.bound mu triple
  = mkTriple (substitute mu (subject triple)) (substitute mu (predicate triple))
             (substitute mu (object triple)).
Proof.
  unfold Bindings.bound, substitute. f_equal.
  destruct (rdf.isVariable (predicate triple)) eqn:E.
  - by rewrite (isVariable_not_path _ E).
  - by rewrite andb_false_r.
Qed.

Lemma substitute_variable mu t :
  rdf.isVariable t = true →
  substitute mu t = default t (_content mu !! rdf.value t).
Proof.
  intros Hv. unfold substitute, Bindings.has, Bindings.get.
  rewrite Hv, (isVariable_node _ Hv). simpl.
  by destruct (_content mu !! rdf.value t) eqn:E.
Qed.

Lemma substitute_constant mu t : rdf.isVariable t = false → substitute mu t = t.
Proof. intros Hv. unfold substitute. by rewrite Hv. Qed.

(** Substituting with a union whose right operand binds no variable to a
    variable is substituting with the right operand, then with the left. *)
Lemma substitute_union b mu t :
  noVariableValues mu →
  substitute (Bindings.union b mu) t = substitute b (substitute mu t).
Proof.
  intros Hground. destruct (rdf.isVariable t) eqn:Hv.
  - rewrite (substitute_variable (Bindings.union b mu)), (substitute_variable mu) by done.
    destruct (_content mu !! rdf.value t) as [x|] eqn:E; simpl.
    + rewrite (union_lookup_r _ _ _ _ E). simpl.
      rewrite substitute_constant; [done|]. by eapply Hground.
    + rewrite (union_lookup_l _ _ _ E). by rewrite substitute_variable.
  - rewrite (substitute_constant mu t Hv), (substitute_constant b t Hv).
    apply (substitute_constant _ t Hv).
Qed.

Lemma bound_union b mu (triple : Triple) :
  noVariableValues mu →
  Bindings.bound (Bindings.union b mu) triple = Bindings.bound b (Bindings.bound mu triple).
Proof.
  intros Hground. rewrite !bound_substitute. simpl.
  by rewrite !substitute_union.
Qed.

(** The input is a subset of its union with anything on the left. *)
Lemma isSubset_union b mu : Bindings.isSubset mu (Bindings.union b mu) = true.
Proof.
  apply isSubset_spec. rewrite union_spec. simpl. apply map_union_subseteq_l.
Qed.

Lemma fromMapping_content (values : gmap string Term) b :
  Bindings.fromMapping values = Return b → _content b = values.
Proof.
  unfold Bindings.fromMapping. destruct (forallb _ _); [|done]. by intros [= <-].
Qed.

(** What [pickVariables] holds for a name. *)
Lemma pickVariables_lookup (bp item : Triple) v :
  pickVariables bp item !! v
  = if rdf.isVariable (object bp) && String.eqb (rdf.value (object bp)) v
    then Some (object item)
    else if rdf.isVariable (predicate bp) && String.eqb (rdf.value (predicate bp)) v
    then Some (predicate item)
    else if rdf.isVariable (subject bp) && String.eqb (rdf.value (subject bp)) v
    then Some (subject item)
    else None.
Proof.
  unfold pickVariables.
  destruct (rdf.isVariable (object bp)), (rdf.isVariable (predicate bp)),
    (rdf.isVariable (subject bp)); simpl;
    repeat match goal with
      | |- context [String.eqb ?a ?b] => destruct (String.eqb_spec a b); simpl
      end;
    simplify_map_eq; done.
Qed.

Lemma same_variable_sym (a c : Term) :
  rdf.isVariable a = true →
  rdf.isVariable a && rdf.isVariable c && String.eqb (rdf.value a) (rdf.value c) = false →
  rdf.isVariable c && String.eqb (rdf.value c) (rdf.value a) = false.
Proof. intros -> H. simpl in H. by rewrite String.eqb_sym. Qed.

Lemma same_variable_r (a c : Term) :
  rdf.isVariable c = true →
  rdf.isVariable a && rdf.isVariable c && String.eqb (rdf.value a) (rdf.value c) = false →
  rdf.isVariable a && String.eqb (rdf.value a) (rdf.value c) = false.
Proof. intros -> H. by rewrite andb_true_r in H. Qed.

(** With the wildcard [find] of [N3Graph] and a substituted pattern that
    does not repeat a variable, the picked terms instantiate the pattern to
    the triple that was found. *)
Lemma n3_find_instantiates (quads : list Triple) (bp item : Triple) context b :
  repeatsVariable bp = false →
  item ∈ Pipeline.toArray (N3Graph.find quads bp context) →
  Bindings.fromMapping (pickVariables bp item) = Return b →
  item ∈ quads ∧ tripleEquals (Bindings.bound b bp) item = true.
Proof.
  intros Hrep Hin Hb. apply fromMapping_content in Hb.
  unfold N3Graph.find, N3Graph.formatTriplePattern in Hin.
  rewrite toArray_from in Hin. unfold N3Graph.getQuads in Hin.
  apply list_elem_of_In, filter_In in Hin as [Hin Hm]. split; [by apply list_elem_of_In|].
  apply andb_prop in Hm as [Hm Ho]. apply andb_prop in Hm as [Hs Hp].
  unfold repeatsVariable in Hrep.
  apply orb_false_elim in Hrep as [Hrep Hpo]. apply orb_false_elim in Hrep as [Hsp Hso].
  assert (Hrefl : ∀ t, rdf.termEquals t t = true)
    by (intros; by apply bool_decide_eq_true).
  rewrite bound_substitute. unfold tripleEquals; simpl.
  repeat (apply andb_true_intro; split).
  - destruct (bool_dec (rdf.isVariable (subject bp)) true) as [E|E%not_true_is_false].
    + rewrite substitute_variable, Hb, pickVariables_lookup by done.
      rewrite (same_variable_sym _ _ E Hso), (same_variable_sym _ _ E Hsp).
      by rewrite E, String.eqb_refl.
    + rewrite substitute_constant by done. by rewrite E in *.
  - destruct (bool_dec (rdf.isVariable (predicate bp)) true) as [E|E%not_true_is_false].
    + rewrite substitute_variable, Hb, pickVariables_lookup by done.
      rewrite (same_variable_sym _ _ E Hpo).
      by rewrite E, String.eqb_refl.
    + rewrite substitute_constant by done. by rewrite E in *.
  - destruct (bool_dec (rdf.isVariable (object bp)) true) as [E|E%not_true_is_false].
    + rewrite substitute_variable, Hb, pickVariables_lookup by done.
      by rewrite E, String.eqb_refl.
    + rewrite substitute_constant by done. by rewrite E in *.
Qed.

End JoinFacts.

(** C2, evaluated at the graph of the test suite holding the single triple
    [Thomas coCreatorWith Florian], the pattern [?x coCreatorWith ?x] and
    the empty input mapping.  [find] answers the triple, both variables
    being wildcards; the join keeps subject and object under the one key
    [x] without comparing them, the object replacing the subject, and emits
    [?x -> Florian]: the pattern under that mapping is not a triple of the
    graph, against the claim. *)
Theorem indexJoin_repeated_variable_unmatched :
  Pipeline.toArray
    (find oneTripleGraph (Bindings.bound Bindings.empty selfPattern) ExecutionContext.new)
  = [mkTriple thomas coauthorOf florian]
  ∧ rdf.termEquals thomas florian = false
  ∧ Pipeline.toArray
      (indexJoin (Pipeline.of_ Bindings.empty) selfPattern oneTripleGraph ExecutionContext.new)
    = [Bindings.set Bindings.empty "x" florian]
  ∧ Graph.holds oneTripleGraph
      (Bindings.bound (Bindings.set Bindings.empty "x" florian) selfPattern) = false.
Proof. repeat split; by vm_compute. Qed.

(** The part of C2 that the joins meet: every mapping that [indexJoin] or
    [bgpEvaluation] emits is the union of what the backend answered with an
    input mapping [mu], which it extends.  When [mu] binds no variable to a
    variable, the patterns under the output are the substituted patterns
    under the backend's answer; with the wildcard [find] of the test
    suite's graph the pattern under the output is a triple of the graph
    provided the substituted pattern does not repeat a variable. *)
Theorem join_output_extends_input (env : StageEnvironment)
  (source : PipelineStage Bindings) (pattern : Triple) (bgp : list Triple)
  (graph : Graph) (context : ExecutionContext) (mu' : Bindings) :
  (mu' ∈ Pipeline.toArray (indexJoin source pattern graph context) →
   ∃ mu item b,
     mu ∈ Pipeline.toArray source
     ∧ item ∈ Pipeline.toArray (find graph (Bindings.bound mu pattern) context)
     ∧ Bindings.fromMapping (pickVariables (Bindings.bound mu pattern) item) = Return b
     ∧ mu' = Bindings.union b mu
     ∧ Bindings.isSubset mu mu' = true
     ∧ (noVariableValues mu →
        Bindings.bound mu' pattern = Bindings.bound b (Bindings.bound mu pattern))
     ∧ (noVariableValues mu →
        find graph = N3Graph.find (store graph) →
        repeatsVariable (Bindings.bound mu pattern) = false →
        Graph.holds graph (Bindings.bound mu' pattern) = true))
  ∧ (mu' ∈ Pipeline.toArray (BGPStageBuilder.bgpEvaluation env source bgp graph context) →
     ∃ mu item,
       mu ∈ Pipeline.toArray source
       ∧ item ∈ Pipeline.toArray
                  (if ExecutionContext.cachingEnabled context then
                     match cache context with
                     | Some c =>
                         cacheEvalBGP env (List.map (Bindings.bound mu) bgp) graph c context
                     | None => Failed (GenericError "TypeError: cache is null")
                     end
                   else evalBGP graph (List.map (Bindings.bound mu) bgp) context)
       ∧ mu' = Bindings.union item mu
       ∧ Bindings.isSubset mu mu' = true
       ∧ (noVariableValues mu →
          List.map (Bindings.bound mu') bgp
          = List.map (Bindings.bound item) (List.map (Bindings.bound mu) bgp))).
Proof.
  split.
  - intros Hout. unfold indexJoin in Hout.
    apply elem_of_toArray_mergeMap in Hout as (mu & Hmu & Hout).
    apply elem_of_toArray_map in Hout as (item & Hitem & Hret).
    destruct (Bindings.fromMapping (pickVariables (Bindings.bound mu pattern) item))
      as [b|e] eqn:Hb; [|done].
    injection Hret as <-.
    exists mu, item, b. repeat split; try done.
    + apply isSubset_union.
    + intros Hground. by apply bound_union.
    + intros Hground Hfind Hrep. rewrite Hfind in Hitem.
      destruct (n3_find_instantiates _ _ _ _ _ Hrep Hitem Hb) as [Hin Heq].
      rewrite bound_union by done. unfold Graph.holds.
      apply existsb_exists. exists item. split; [by apply list_elem_of_In|done].
  - intros Hout. unfold BGPStageBuilder.bgpEvaluation in Hout.
    apply elem_of_toArray_mergeMap in Hout as (mu & Hmu & Hout).
    apply elem_of_toArray_map in Hout as (item & Hitem & Hret).
    injection Hret as <-.
    exists mu, item. repeat split; try done.
    + apply isSubset_union.
    + intros Hground. rewrite List.map_map. apply map_ext. intros t.
      by apply bound_union.
Qed.

Lemma join_output_extends_input_witness :
  mu_pair ∈ Pipeline.toArray
             (indexJoin (Pipeline.of_ Bindings.empty) pairPattern oneTripleGraph
                        ExecutionContext.new)
  ∧ ∃ mu item b,
      mu ∈ Pipeline.toArray (Pipeline.of_ Bindings.empty)
      ∧ item ∈ Pipeline.toArray
                 (find oneTripleGraph (Bindings.bound mu pairPattern) ExecutionContext.new)
      ∧ Bindings.fromMapping (pickVariables (Bindings.bound mu pairPattern) item) = Return b
      ∧ mu_pair = Bindings.union b mu
      ∧ Bindings.isSubset mu mu_pair = true
      ∧ (noVariableValues mu →
         Bindings.bound mu_pair pairPattern = Bindings.bound b (Bindings.bound mu pairPattern))
      ∧ (noVariableValues mu →
         find oneTripleGraph = N3Graph.find (store oneTripleGraph) →
         repeatsVariable (Bindings.bound mu pairPattern) = false →
         Graph.holds oneTripleGraph (Bindings.bound mu_pair pairPattern) = true).
Proof.
  assert (H : mu_pair ∈ Pipeline.toArray
                (indexJoin (Pipeline.of_ Bindings.empty) pairPattern oneTripleGraph
                           ExecutionContext.new)).
  { vm_compute. apply list_elem_of_here. }
  split; [exact H|].
  exact (proj1 (join_output_extends_input exampleStageEnv (Pipeline.of_ Bindings.empty)
                  pairPattern [pairPattern] oneTripleGraph ExecutionContext.new mu_pair) H).
Defined.

(** *** LIMIT/OFFSET and the cache *)

(** Under the LIMIT/OFFSET flag [bgpEvaluation] goes to the graph for every
    input mapping, whatever cache is installed. *)
Lemma bgpEvaluation_limit_offset_bypasses_cache (env : StageEnvironment)
  (source : PipelineStage Bindings) (bgp : list Triple) (graph : Graph)
  (context : ExecutionContext) :
  ExecutionContext.hasLimitOffset context = true →
  BGPStageBuilder.bgpEvaluation env source bgp graph context
  = Pipeline.mergeMap source (fun bindings =>
      Pipeline.map (evalBGP graph (List.map (Bindings.bound bindings) bgp) context)
                   (fun item => Return (Bindings.union item bindings))).
Proof.
  intros H. unfold BGPStageBuilder.bgpEvaluation, ExecutionContext.cachingEnabled.
  by rewrite H, andb_false_r.
Qed.

(** A DESCRIBE query of any shape is rebuilt as a CONSTRUCT query that has
    neither [limit] nor [offset] (nor [order], nor [distinct]), and the plan
    is the plan of that query. *)
Lemma describe_rewrite_drops_modifiers (env : PlanEnvironment) (this : PlanBuilder)
  (depth : nat) (query : Query) (context : ExecutionContext) (source : option Plan)
  (vs : list SelectVariable) :
  queryType query = "DESCRIBE" →
  variables query = Some vs →
  PlanBuilder._buildQueryPlan env this (S depth) query context source
  = PlanBuilder._buildQueryPlan env this depth
      (mkQuery "CONSTRUCT" (prefixes query) (from query) None
         (Some (default [] (where_ query)
                ++ [BgpPattern (List.map (PlanBuilder.describeTriple env) vs)]))
         (Some (List.map (PlanBuilder.describeTriple env) vs))
         None None None None None)
      (ExecutionContext.setProperty context ContextSymbols.PREFIXES
         (CPrefixes (prefixes query)))
      (Some (default (EngineOf Bindings.empty) source)).
Proof.
  intros Htype Hvs. simpl. rewrite Htype, Hvs. simpl. by destruct source.
Qed.

(** The context under which the WHERE clause of a query other than DESCRIBE
    is built. *)
Lemma buildQueryPlan_records_flag (env : PlanEnvironment) (this : PlanBuilder)
  (depth : nat) (query : Query) (context : ExecutionContext) (source : Plan)
  (groups : list Pattern) :
  String.eqb (queryType query) "DESCRIBE" = false →
  where_ query = Some groups →
  groups ≠ [] →
  ∃ (whereContext : ExecutionContext) (rest : Plan → Completion Plan),
    ExecutionContext.hasLimitOffset whereContext
    = bool_decide (is_Some (limit query)) || bool_decide (is_Some (offset query))
    ∧ cache whereContext = cache context
    ∧ PlanBuilder._buildQueryPlan env this (S depth) query context (Some source)
      = match PlanBuilder._buildWhere env this depth source groups whereContext with
        | Throw e => Throw e
        | Return graphIterator => rest graphIterator
        end.
Proof.
  intros Htype Hwhere Hne. destruct groups as [|g groups]; [done|].
  set (flagged :=
         ExecutionContext.setProperty
           (ExecutionContext.setProperty context ContextSymbols.PREFIXES
              (CPrefixes (prefixes query)))
           ContextSymbols.HAS_LIMIT_OFFSET
           (CBool (bool_decide (is_Some (limit query))
                   || bool_decide (is_Some (offset query))))).
  exists (match from query with
          | Some (default, named) => ExecutionContext.setGraphs flagged default named
          | None => flagged
          end).
  eexists. split; [|split].
  - destruct (from query) as [[d n]|];
      unfold ExecutionContext.hasLimitOffset, ExecutionContext.getProperty, flagged; simpl;
      by rewrite lookup_insert_eq.
  - by destruct (from query) as [[d n]|].
  - simpl. rewrite Htype, Hwhere. simpl. reflexivity.
Qed.

(** C3, evaluated on both paths with the cache in use.  For a SELECT with
    LIMIT the BGP stage is built under a context whose flag is set, so that
    caching is off.  For a DESCRIBE with LIMIT the query is first rewritten
    into a CONSTRUCT that keeps neither [limit] nor [offset]: the flag is
    recorded as false, caching stays on for the query's BGP, and the plan
    has no [limit] stage. *)
Theorem describe_limit_records_no_flag :
  (∃ plan,
     PlanBuilder.build examplePlanEnv cachingBuilder 4 (QueryNode selectLimit10) None
     = Return plan
     ∧ ExecutionContext.hasLimitOffset <$> bgpContexts plan = [true]
     ∧ ExecutionContext.cachingEnabled <$> bgpContexts plan = [false])
  ∧ (∃ plan,
       PlanBuilder.build examplePlanEnv cachingBuilder 5 (QueryNode describeLimit10) None
       = Return plan
       ∧ ExecutionContext.hasLimitOffset <$> bgpContexts plan = [false]
       ∧ ExecutionContext.cachingEnabled <$> bgpContexts plan = [true]
       ∧ hasLimit plan = false).
Proof.
  split.
  - eexists. split; [by vm_compute|]. split; by vm_compute.
  - eexists. split; [by vm_compute|]. repeat split; by vm_compute.
Qed.

(** *** Ordering and merging of the groups of a WHERE clause *)

Section SortFacts.
Context {A : Type} (key : A → nat).

Lemma insertBy_Permutation x (l : list A) : insertBy key x l ≡ₚ x :: l.
Proof.
  induction l as [|y l IH]; simpl; [done|].
  destruct (key x <=? key y)%nat; [done|].
  rewrite IH. apply Permutation_swap.
Qed.

Lemma sortBy_Permutation (l : list A) : sortBy l key ≡ₚ l.
Proof.
  induction l as [|x l IH]; simpl; [done|].
  unfold sortBy in *. simpl. by rewrite insertBy_Permutation, IH.
Qed.

Lemma insertBy_sorted x (l : list A) :
  StronglySorted (fun a b => (key a <= key b)%nat) l →
  StronglySorted (fun a b => (key a <= key b)%nat) (insertBy key x l).
Proof.
  induction 1 as [|y l Hs IH Hy]; simpl.
  - repeat constructor.
  - destruct (Nat.leb_spec (key x) (key y)) as [Hle|Hlt].
    + constructor; [by constructor|].
      constructor; [done|].
      eapply Forall_impl; [exact Hy|]. simpl. intros; lia.
    + constructor; [done|].
      rewrite (insertBy_Permutation x l). constructor; [lia|done].
Qed.

Lemma sortBy_sorted (l : list A) :
  StronglySorted (fun a b => (key a <= key b)%nat) (sortBy l key).
Proof.
  induction l as [|x l IH]; [constructor|].
  unfold sortBy in *. simpl. by apply insertBy_sorted.
Qed.

(** Insertion keeps the elements of one key in their order, the new one
    first. *)
Lemma filter_insertBy r x (l : list A) :
  List.filter (fun a => key a =? r)%nat (insertBy key x l)
  = if (key x =? r)%nat then x :: List.filter (fun a => key a =? r)%nat l
    else List.filter (fun a => key a =? r)%nat l.
Proof.
  induction l as [|y l IH]; simpl; [done|].
  destruct (Nat.leb_spec (key x) (key y)) as [Hle|Hlt]; simpl; [done|].
  rewrite IH.
  destruct (Nat.eqb_spec (key y) r), (Nat.eqb_spec (key x) r); try done. lia.
Qed.

(** [sortBy] is stable. *)
Lemma sortBy_stable r (l : list A) :
  List.filter (fun a => key a =? r)%nat (sortBy l key)
  = List.filter (fun a => key a =? r)%nat l.
Proof.
  induction l as [|x l IH]; [done|].
  unfold sortBy in *. simpl. by rewrite filter_insertBy, IH.
Qed.

End SortFacts.

Section MergeFacts.
Implicit Types (groups acc : list Pattern) (prec : option Pattern).

Lemma concatOnLast_cons g acc ts :
  acc ≠ [] →
  PlanBuilder.concatOnLast (g :: acc) ts = g :: PlanBuilder.concatOnLast acc ts.
Proof. destruct acc as [|g' acc]; [done|]. intros _. by destruct g. Qed.

Lemma concatOnLast_snoc acc ts ts' :
  PlanBuilder.concatOnLast (acc ++ [BgpPattern ts]) ts' = acc ++ [BgpPattern (ts ++ ts')].
Proof.
  induction acc as [|g acc IH]; [done|].
  change ((g :: acc) ++ [BgpPattern ts]) with (g :: (acc ++ [BgpPattern ts])).
  rewrite concatOnLast_cons by (by destruct acc). by rewrite IH.
Qed.

Lemma mergeRuns_head_isBgp g groups :
  match mergeRuns (g :: groups) with
  | g' :: _ => PlanBuilder.isBgp g' = PlanBuilder.isBgp g
  | [] => False
  end.
Proof. simpl. destruct g; try done. by destruct (mergeRuns groups) as [|[] ?]. Qed.

Lemma glue_nil_r acc : glue acc [] = acc.
Proof. unfold glue. destruct (last acc) as [[]|]; by rewrite app_nil_r. Qed.

Lemma glue_not_bgp acc g merged :
  PlanBuilder.isBgp g = false → glue acc (g :: merged) = acc ++ g :: merged.
Proof. unfold glue. intros H. destruct (last acc) as [[]|]; try done. by destruct g. Qed.

Lemma glue_last_not_bgp acc merged :
  match last acc with Some g => PlanBuilder.isBgp g = false | None => True end →
  glue acc merged = acc ++ merged.
Proof. unfold glue. by destruct (last acc) as [[]|]. Qed.

Lemma glue_snoc_bgp acc ts merged :
  glue (acc ++ [BgpPattern ts]) merged
  = match merged with
    | BgpPattern ts' :: rest => acc ++ BgpPattern (ts ++ ts') :: rest
    | _ => acc ++ BgpPattern ts :: merged
    end.
Proof.
  unfold glue. rewrite last_snoc, removelast_last.
  destruct merged as [|[] ?]; by rewrite <- ?app_assoc.
Qed.

Lemma glue_snoc_other acc g merged :
  PlanBuilder.isBgp g = false → glue (acc ++ [g]) merged = acc ++ g :: merged.
Proof.
  intros H. rewrite glue_last_not_bgp by (by rewrite last_snoc).
  by rewrite <- app_assoc.
Qed.

(** The loop from any state that respects [precAgrees]. *)
Lemma mergeLoop_glue groups acc prec :
  precAgrees acc prec →
  (foldl PlanBuilder.mergeStep (acc, prec) groups).1 = glue acc (mergeRuns groups).
Proof.
  revert acc prec. induction groups as [|g groups IH]; intros acc prec Hinv.
  - simpl. by rewrite glue_nil_r.
  - change (foldl PlanBuilder.mergeStep (acc, prec) (g :: groups))
      with (foldl PlanBuilder.mergeStep (PlanBuilder.mergeStep (acc, prec) g) groups).
    destruct (PlanBuilder.isBgp g) eqn:Hg.
    + destruct g as [ts| | | | | | | | | | |]; try done.
      destruct prec as [p|].
      * destruct Hinv as (g' & Hlast & Hsame).
        destruct (PlanBuilder.isBgp p) eqn:Hp.
        -- (* the BGP joins the last one *)
           destruct p as [tp| | | | | | | | | | |]; try done.
           destruct g' as [ts0| | | | | | | | | | |]; try done.
           apply last_Some in Hlast as [acc' ->].
           simpl. rewrite concatOnLast_snoc.
           rewrite IH by (exists (BgpPattern (ts0 ++ ts)); by rewrite last_snoc).
           rewrite !glue_snoc_bgp.
           destruct (mergeRuns groups) as [|[] ?]; by rewrite <- ?app_assoc.
        -- (* a BGP after another kind of group *)
           assert (Hstep : PlanBuilder.mergeStep (acc, Some p) (BgpPattern ts)
                           = (acc ++ [BgpPattern ts], Some (BgpPattern ts)))
             by (by destruct p).
           rewrite Hstep, IH by (exists (BgpPattern ts); by rewrite last_snoc).
           rewrite glue_snoc_bgp.
           rewrite (glue_last_not_bgp acc) by (rewrite Hlast; congruence).
           simpl. by destruct (mergeRuns groups) as [|[] ?].
      * (* the first group *)
        simpl in Hinv. subst acc. simpl.
        rewrite IH by (exists (BgpPattern ts); done).
        unfold glue. simpl.
        by destruct (mergeRuns groups) as [|[] ?].
    + assert (Hstep : PlanBuilder.mergeStep (acc, prec) g = (acc ++ [g], Some g))
        by (destruct g; try done; by destruct prec as [[]|]).
      rewrite Hstep, IH by (exists g; by rewrite last_snoc).
      rewrite glue_snoc_other by done.
      assert (Hm : mergeRuns (g :: groups) = g :: mergeRuns groups) by (by destruct g).
      rewrite Hm. by rewrite glue_not_bgp.
Qed.

(** The loop of [_buildWhere] merges the runs of consecutive BGPs. *)
Lemma mergeBGPs_mergeRuns groups : PlanBuilder.mergeBGPs groups = mergeRuns groups.
Proof. unfold PlanBuilder.mergeBGPs. by rewrite mergeLoop_glue. Qed.

Lemma mergeRuns_no_adjacent groups : adjacentBgps (mergeRuns groups) = false.
Proof.
  induction groups as [|g groups IH]; [done|].
  pose proof (mergeRuns_head_isBgp g groups) as Hhead.
  simpl in *. destruct g; simpl in *;
    destruct (mergeRuns groups) as [|g' rest] eqn:E; try done;
    try (simpl in *; destruct g'; simpl in *; try done;
         by destruct rest as [|[] ?]).
Qed.

Lemma mergeRuns_atoms groups : atoms (mergeRuns groups) = atoms groups.
Proof.
  induction groups as [|g groups IH]; [done|].
  unfold atoms in *. simpl.
  destruct g; simpl; rewrite <- IH; try done.
  destruct (mergeRuns groups) as [|[] ?]; simpl; try done.
  by rewrite List.map_app, <- app_assoc.
Qed.


End MergeFacts.

(** C7, at a WHERE clause with two BGPs around a VALUES clause of one row:
    after the sort the list goes to the VALUES rewriting.  The plan is the
    merge of one branch per row, whose BGP stage receives the triples with
    the row substituted; building the sorted and merged list group by group
    would instead stop at the VALUES group. *)
Lemma buildWhere_values_rewritten :
  sortBy whereWithValues PlanBuilder.groupRank
  = [BgpPattern [knows]; BgpPattern [named]; ValuesPattern [rowThomas]]
  ∧ PlanBuilder._buildWhere examplePlanEnv cachingBuilder 4
      (EngineOf Bindings.empty) whereWithValues ExecutionContext.new
    = Return
        (Merge
           [ExtendByBindings
              (Execute BGP (Some (EngineOf Bindings.empty))
                 (ArgTriples [Bindings.bound (mkBindings rowThomas ∅) knows;
                              Bindings.bound (mkBindings rowThomas ∅) named])
                 (Some ExecutionContext.new))
              (mkBindings rowThomas ∅)])
  ∧ PlanBuilder.reduceThrowing
      (fun source group =>
         PlanBuilder._buildGroup examplePlanEnv cachingBuilder 3 source group
                                 ExecutionContext.new)
      (mergeRuns (sortBy whereWithValues PlanBuilder.groupRank))
      (EngineOf Bindings.empty)
    = Throw (GenericError "Unsupported SPARQL group pattern found in query").
Proof. repeat split; by vm_compute. Qed.

(** C7 as amended: the groups are sorted by the rank (0 for a BGP and for a
    graph with a constant name, 1 for the generic groups, 3 for VALUES, 4
    for FILTER, 5 for a graph with a variable name), the sort being stable.
    When the sorted list holds no VALUES group, the runs of consecutive BGPs
    are merged, each into one BGP with the triples of the run in order, and
    the groups are built in that order; when it holds one, the sorted list
    is handed to the VALUES rewriting. *)
Theorem buildWhere_sorts_then_merges (env : PlanEnvironment) (this : PlanBuilder)
  (depth : nat) (source : Plan) (groups : list Pattern) (context : ExecutionContext) :
  let sorted := sortBy groups PlanBuilder.groupRank in
  (∀ g, PlanBuilder.groupRank g
        = match g with
          | BgpPattern _ => 0
          | GraphPattern name _ => if rdf.isVariable name then 5 else 0
          | ValuesPattern _ => 3
          | FilterPattern _ => 4
          | _ => 1
          end)
  ∧ sorted ≡ₚ groups
  ∧ StronglySorted (fun a b => (PlanBuilder.groupRank a <= PlanBuilder.groupRank b)%nat) sorted
  ∧ (∀ r, List.filter (fun g => PlanBuilder.groupRank g =? r)%nat sorted
          = List.filter (fun g => PlanBuilder.groupRank g =? r)%nat groups)
  ∧ PlanBuilder.mergeBGPs sorted = mergeRuns sorted
  ∧ adjacentBgps (mergeRuns sorted) = false
  ∧ atoms (mergeRuns sorted) = atoms sorted
  ∧ PlanBuilder._buildWhere env this (S depth) source groups context
    = if existsb PlanBuilder.isValues sorted
      then PlanBuilder._buildValues env this depth source sorted context
      else PlanBuilder.reduceThrowing
             (fun source group =>
                PlanBuilder._buildGroup env this depth source group context)
             (mergeRuns sorted) source.
Proof.
  intros sorted.
  refine (conj _ (conj _ (conj _ (conj _ (conj _ (conj _ (conj _ _))))))).
  - by intros [].
  - apply sortBy_Permutation.
  - apply sortBy_sorted.
  - intros r. apply sortBy_stable.
  - apply mergeBGPs_mergeRuns.
  - apply mergeRuns_no_adjacent.
  - apply mergeRuns_atoms.
  - rewrite <- mergeBGPs_mergeRuns. reflexivity.
Qed.

(** *** Validation of the full-text-search magic triples *)

Section FullTextSearchFacts.
Context (env : StageEnvironment) (queryVariable : Term).

(** One magic triple: rejected with a [SyntaxError] when malformed,
    otherwise it sets its parameter. *)
Lemma readMagicTriple_spec p triple :
  if malformedMagicTriple env queryVariable triple
  then ∃ message,
         BGPStageBuilder.readMagicTriple env queryVariable p triple
         = Throw (SyntaxError message)
  else BGPStageBuilder.readMagicTriple env queryVariable p triple
       = Return (magicUpdate env p triple).
Proof.
  unfold malformedMagicTriple, BGPStageBuilder.readMagicTriple, magicUpdate,
    BGPStageBuilder.notLiteral, BGPStageBuilder.notNumber,
    BGPStageBuilder.notPositiveInteger, BGPStageBuilder.notVariable.
  destruct (rdf.termEquals (subject triple) queryVariable); simpl; [|eauto].
  repeat match goal with
    | |- context [String.eqb ?a ?b] => destruct (String.eqb a b); simpl
    end;
    repeat match goal with
      | |- context [rdf.isLiteral ?a] => destruct (rdf.isLiteral a); simpl
      | |- context [rdf.isVariable ?a] => destruct (rdf.isVariable a); simpl
      | |- context [JS.isNaN ?a] => destruct (JS.isNaN a); simpl
      | |- context [JS.isInteger ?a] => destruct (JS.isInteger a); simpl
      | |- context [JS.lt ?a ?b] => destruct (JS.lt a b); simpl
      end;
    eauto.
Qed.

Lemma readMagicTriples_accepted p magicTriples :
  existsb (malformedMagicTriple env queryVariable) magicTriples = false →
  BGPStageBuilder.readMagicTriples env queryVariable p magicTriples
  = Return (foldl (magicUpdate env) p magicTriples).
Proof.
  revert p. induction magicTriples as [|t ts IH]; intros p H; [done|].
  simpl in H. apply orb_false_elim in H as [Ht Hts].
  pose proof (readMagicTriple_spec p t) as Hspec. rewrite Ht in Hspec.
  simpl. rewrite Hspec. by apply IH.
Qed.

Lemma readMagicTriples_rejected p magicTriples :
  existsb (malformedMagicTriple env queryVariable) magicTriples = true →
  ∃ message,
    BGPStageBuilder.readMagicTriples env queryVariable p magicTriples
    = Throw (SyntaxError message).
Proof.
  revert p. induction magicTriples as [|t ts IH]; intros p H; [done|].
  simpl in H. pose proof (readMagicTriple_spec p t) as Hspec.
  destruct (malformedMagicTriple env queryVariable t).
  - destruct Hspec as [message Hspec]. exists message. simpl. by rewrite Hspec.
  - simpl. rewrite Hspec. by apply IH.
Qed.

End FullTextSearchFacts.

(** C8, at the single magic triple [?o ses:relevance "score"]: it is none of
    the four bounds, yet the stage is refused with a [SyntaxError], the
    object of [relevance] having to be a variable. *)
Lemma fts_relevance_literal_rejected :
  existsb (isBoundTriple exampleStageEnv) [relevanceLiteral] = false
  ∧ BGPStageBuilder._buildFullTextSearchIterator exampleStageEnv
      (Pipeline.of_ Bindings.empty) oneTripleGraph pairPattern queryVariable_o
      [relevanceLiteral] ExecutionContext.new
    = Throw BGPStageBuilder.notVariable.
Proof. split; by vm_compute. Qed.

(** C8 as amended: building the full-text-search stage throws, and then a
    [SyntaxError], exactly when a magic triple is malformed (its subject is
    not the query variable; the object of [search] or of a bound is not a
    literal; that of [minRelevance]/[maxRelevance] does not parse as a
    number; that of [minRank]/[maxRank] is not a non-negative integer; that
    of [relevance]/[rank] is not a variable), or the minimum relevance
    exceeds the maximum one, or the minimum rank exceeds the maximum one;
    otherwise the stage is built. *)
Theorem fullTextSearch_validation (env : StageEnvironment)
  (source : PipelineStage Bindings) (graph : Graph) (pattern : Triple)
  (queryVariable : Term) (magicTriples : list Triple) (context : ExecutionContext) :
  let p := foldl (magicUpdate env) BGPStageBuilder.defaultParameters magicTriples in
  let rejected :=
    existsb (malformedMagicTriple env queryVariable) magicTriples
    || BGPStageBuilder.exceeds (minScore p) (maxScore p)
    || BGPStageBuilder.exceeds (minRank p) (maxRank p) in
  match BGPStageBuilder._buildFullTextSearchIterator env source graph pattern
          queryVariable magicTriples context with
  | Throw e => rejected = true ∧ ∃ message, e = SyntaxError message
  | Return _ =>
      rejected = false
      ∧ BGPStageBuilder.fullTextSearchParameters env queryVariable magicTriples = Return p
  end.
Proof.
  intros p rejected. subst rejected.
  unfold BGPStageBuilder._buildFullTextSearchIterator,
    BGPStageBuilder.fullTextSearchParameters.
  destruct (existsb (malformedMagicTriple env queryVariable) magicTriples) eqn:Hm; simpl.
  - destruct (readMagicTriples_rejected env queryVariable
                BGPStageBuilder.defaultParameters magicTriples Hm) as [message ->].
    eauto.
  - rewrite (readMagicTriples_accepted env queryVariable _ _ Hm). fold p.
    destruct (BGPStageBuilder.exceeds (minScore p) (maxScore p)); simpl; [eauto|].
    destruct (BGPStageBuilder.exceeds (minRank p) (maxRank p)); simpl; eauto.
Qed.

(** *** Choice of the join strategy *)

Section StrategyFacts.

(** The test of [_buildIterator] in terms of the capability bitset and of
    the property bag of the context. *)
Lemma strategy_condition (graph : Graph) (context : ExecutionContext) :
  Graph._isCapable graph GRAPH_CAPABILITY.UNION
  && negb (ExecutionContext.hasProperty context ContextSymbols.FORCE_INDEX_JOIN) = true
  ↔ N.testbit (capabilities graph) GRAPH_CAPABILITY.UNION = true
    ∧ ctx_properties context !! ContextSymbols.FORCE_INDEX_JOIN = None.
Proof.
  unfold Graph._isCapable, ExecutionContext.hasProperty.
  destruct (N.testbit (capabilities graph) GRAPH_CAPABILITY.UNION).
  - destruct (ctx_properties context !! ContextSymbols.FORCE_INDEX_JOIN) as [v|] eqn:E.
    + rewrite bool_decide_eq_true_2 by eauto. simpl. split; [done|]. by intros [_ ?].
    + rewrite bool_decide_eq_false_2 by (by intros [? ?]). simpl. by split.
  - split; [done|]. by intros [? _].
Qed.

(** No stage is its own tail. *)
Lemma stage_neq_Next {T} (s : PipelineStage T) (v : T) : s ≠ Next v s.
Proof.
  induction s as [|w rest IH|e]; [done| |done].
  intros [= -> H]. by apply IH.
Qed.

(** What [bound] returns is the pattern substituted with the mapping. *)
Lemma substitute_substitutedTerm (mu : Bindings) (t : Term) :
  substitutedTerm mu t (substitute mu t).
Proof.
  unfold substitutedTerm, substitute, rdf.isVariable, Bindings.has, Bindings.get, rdf.value.
  destruct (node t) as [v|v|v language datatype|v| |path]; try done.
  simpl. by destruct (_content mu !! v).
Qed.

Lemma bound_substituted (mu : Bindings) (patterns : list Triple) :
  Forall2 (substituted mu) patterns (List.map (Bindings.bound mu) patterns).
Proof.
  induction patterns as [|p patterns IH]; simpl; constructor; [|done].
  rewrite bound_substitute. unfold substituted. simpl.
  split; [|split]; apply substitute_substitutedTerm.
Qed.

End StrategyFacts.

(** C6: [_buildIterator] hands the patterns to the bound join, whatever the
    operators are, exactly when the UNION bit of the graph's capabilities
    is set and the context does not carry FORCE_INDEX_JOIN.  In every other
    case it is the index nested loop: every input mapping is joined with
    what [graph.evalBGP], or the cache when caching is enabled, answers for
    the patterns substituted with that mapping (each variable the mapping
    binds replaced by its term, everything else kept). *)
Theorem buildIterator_strategy (source : PipelineStage Bindings) (graph : Graph)
  (patterns : list Triple) (context : ExecutionContext) :
  ((∀ env, BGPStageBuilder._buildIterator env source graph patterns context
           = boundJoin env source patterns graph context)
   ↔ N.testbit (capabilities graph) GRAPH_CAPABILITY.UNION = true
     ∧ ctx_properties context !! ContextSymbols.FORCE_INDEX_JOIN = None)
  ∧ (¬ (N.testbit (capabilities graph) GRAPH_CAPABILITY.UNION = true
        ∧ ctx_properties context !! ContextSymbols.FORCE_INDEX_JOIN = None) →
     ∀ env, ∃ boundedBGP : Bindings → list Triple,
       (∀ mu, Forall2 (substituted mu) patterns (boundedBGP mu))
       ∧ if ExecutionContext.cachingEnabled context
         then ∃ c, cache context = Some c
                   ∧ BGPStageBuilder._buildIterator env source graph patterns context
                     = Pipeline.mergeMap source (fun mu =>
                         Pipeline.map (cacheEvalBGP env (boundedBGP mu) graph c context)
                                      (fun item => Return (Bindings.union item mu)))
         else BGPStageBuilder._buildIterator env source graph patterns context
              = Pipeline.mergeMap source (fun mu =>
                  Pipeline.map (evalBGP graph (boundedBGP mu) context)
                               (fun item => Return (Bindings.union item mu)))).
Proof.
  pose proof (strategy_condition graph context) as Hcondition.
  split; [split|].
  - intros Hbound. apply Hcondition.
    destruct (Graph._isCapable graph GRAPH_CAPABILITY.UNION
              && negb (ExecutionContext.hasProperty context ContextSymbols.FORCE_INDEX_JOIN))
      eqn:Etest; [done|]. exfalso.
    set (answers := fun (_ : list Triple) (_ : Graph) (_ : BGPCache) (_ : ExecutionContext) =>
                      @Complete Bindings).
    set (loop := BGPStageBuilder.bgpEvaluation
                   (mkStageEnv (fun s _ _ _ => s) answers (fun _ => NaN)
                               (fun _ _ => rdf.createUnbound)
                               (mkSES "" "" "" "" "" "" "" "") "" "")
                   source patterns graph context).
    specialize (Hbound (mkStageEnv (fun _ _ _ _ => Next Bindings.empty loop) answers
                                   (fun _ => NaN) (fun _ _ => rdf.createUnbound)
                                   (mkSES "" "" "" "" "" "" "" "") "" "")).
    unfold BGPStageBuilder._buildIterator in Hbound. rewrite Etest in Hbound.
    exact (stage_neq_Next loop Bindings.empty Hbound).
  - intros Hbits env. apply Hcondition in Hbits.
    unfold BGPStageBuilder._buildIterator. by rewrite Hbits.
  - intros Hother env.
    exists (fun mu => List.map (Bindings.bound mu) patterns).
    split; [intros mu; apply bound_substituted|].
    assert (Etest : Graph._isCapable graph GRAPH_CAPABILITY.UNION
                    && negb (ExecutionContext.hasProperty context
                               ContextSymbols.FORCE_INDEX_JOIN) = false).
    { apply not_true_is_false. intros Htest. by apply Hother, Hcondition. }
    unfold BGPStageBuilder._buildIterator. rewrite Etest.
    unfold BGPStageBuilder.bgpEvaluation.
    destruct (ExecutionContext.cachingEnabled context) eqn:Ecaching; [|done].
    unfold ExecutionContext.cachingEnabled in Ecaching.
    destruct (cache context) as [c|]; [|done]. by exists c.
Qed.

Lemma buildIterator_strategy_witness :
  ∃ boundedBGP : Bindings → list Triple,
    (∀ mu, Forall2 (substituted mu) [pairPattern] (boundedBGP mu))
    ∧ BGPStageBuilder._buildIterator exampleStageEnv (Pipeline.of_ mu_pair) oneTripleGraph
        [pairPattern] ExecutionContext.new
      = Pipeline.mergeMap (Pipeline.of_ mu_pair) (fun mu =>
          Pipeline.map (evalBGP oneTripleGraph (boundedBGP mu) ExecutionContext.new)
                       (fun item => Return (Bindings.union item mu))).
Proof.
  apply (proj2 (buildIterator_strategy (Pipeline.of_ mu_pair) oneTripleGraph [pairPattern]
                  ExecutionContext.new)).
  intros [Hbit _]. vm_compute in Hbit. discriminate Hbit.
Defined.

(** *** More on solution mappings: copies, set algebra, substitution *)

Section BindingsAlgebra.
Implicit Types (this other a b c mu : Bindings) (v : string) (t : Term).

Lemma map_spec this (mapper : string → Term → option (string * Term)) :
  (∀ v t, match mapper v t with Some (v', _) => v' = v | None => True end) →
  _properties (Bindings.map this mapper) = ∅
  ∧ ∀ v, _content (Bindings.map this mapper) !! v
         = match _content this !! v with
           | Some t => snd <$> mapper v t
           | None => None
           end.
Proof.
  intros Hkey. unfold Bindings.map.
  apply (map_fold_weak_ind
           (fun r (m : gmap string Term) =>
              _properties r = ∅
              ∧ ∀ v, _content r !! v
                     = match m !! v with
                       | Some t => snd <$> mapper v t
                       | None => None
                       end)).
  - split; [done|]. intros v. by rewrite !lookup_empty.
  - intros i x m r Hi [Hp Hc].
    pose proof (Hkey i x) as Hk.
    destruct (mapper i x) as [[i' x']|] eqn:E.
    + subst i'. split; [done|]. intros v. simpl.
      destruct (decide (i = v)) as [->|Hne].
      * by rewrite !lookup_insert_eq, E.
      * by rewrite !lookup_insert_ne.
    + split; [done|]. intros v.
      destruct (decide (i = v)) as [->|Hne].
      * by rewrite Hc, Hi, lookup_insert_eq, E.
      * by rewrite lookup_insert_ne, Hc.
Qed.

Lemma filter_spec this (p : string → Term → bool) :
  _properties (Bindings.filter this p) = ∅
  ∧ ∀ v, _content (Bindings.filter this p) !! v
         = match _content this !! v with
           | Some t => if p v t then Some t else None
           | None => None
           end.
Proof.
  unfold Bindings.filter.
  destruct (map_spec this
              (fun variable value =>
                 if p variable value then Some (variable, value) else None)) as [Hp Hc].
  { intros v t. by destruct (p v t). }
  split; [done|]. intros v. rewrite Hc.
  destruct (_content this !! v) as [t|]; [|done]. by destruct (p v t).
Qed.

Lemma intersection_spec this other :
  _properties (Bindings.intersection this other) = ∅
  ∧ ∀ v, _content (Bindings.intersection this other) !! v
         = match _content this !! v with
           | Some t => if bool_decide (_content other !! v = Some t) then Some t else None
           | None => None
           end.
Proof.
  unfold Bindings.intersection.
  apply (map_fold_weak_ind
           (fun r (m : gmap string Term) =>
              _properties r = ∅
              ∧ ∀ v, _content r !! v
                     = match m !! v with
                       | Some t =>
                           if bool_decide (_content other !! v = Some t) then Some t else None
                       | None => None
                       end)).
  - split; [done|]. intros v. by rewrite !lookup_empty.
  - intros i x m r Hi [Hp Hc].
    assert (Htest : Bindings.hasVariable other i
                    && strictEq (Bindings.get other i) (Some x)
                    = bool_decide (_content other !! i = Some x)).
    { unfold Bindings.hasVariable, strictEq, Bindings.get.
      by destruct (_content other !! i) as [y|] eqn:E. }
    rewrite Htest.
    destruct (bool_decide (_content other !! i = Some x)) eqn:E.
    + split; [done|]. intros v. simpl.
      destruct (decide (i = v)) as [->|Hne].
      * by rewrite !lookup_insert_eq, E.
      * by rewrite !lookup_insert_ne.
    + split; [done|]. intros v.
      destruct (decide (i = v)) as [->|Hne].
      * by rewrite Hc, Hi, lookup_insert_eq, E.
      * by rewrite lookup_insert_ne, Hc.
Qed.

Lemma difference_spec this other :
  _properties (Bindings.difference this other) = ∅
  ∧ ∀ v, _content (Bindings.difference this other) !! v
         = match _content this !! v with
           | Some t => if bool_decide (_content other !! v = Some t) then None else Some t
           | None => None
           end.
Proof.
  unfold Bindings.difference.
  destruct (filter_spec this
              (fun variable value =>
                 negb (Bindings.hasVariable other variable)
                 || negb (strictEq (Some value) (Bindings.get other variable)))) as [Hp Hc].
  split; [done|]. intros v. rewrite Hc.
  destruct (_content this !! v) as [t|]; [|done].
  unfold Bindings.hasVariable, strictEq, Bindings.get.
  destruct (_content other !! v) as [y|] eqn:E; simpl; [|done].
  destruct (decide (y = t)) as [->|Hne].
  - by rewrite !bool_decide_eq_true_2.
  - rewrite !bool_decide_eq_false_2; [done|congruence|congruence].
Qed.

End BindingsAlgebra.

(** X1: in [a.union(b)] a variable bound by [b] has the term of [b], any
    other variable keeps what [a] gives it, and the property bag is that of
    [a] alone: the properties of [b] are not carried over. *)
Theorem union_right_operand_overwrites (a b : Bindings) (v : string) :
  _content (Bindings.union a b) !! v
  = match _content b !! v with
    | Some t => Some t
    | None => _content a !! v
    end
  ∧ _properties (Bindings.union a b) = _properties a.
Proof.
  rewrite union_spec. simpl. split; [|done].
  destruct (_content b !! v) as [t|] eqn:E.
  - by apply lookup_union_Some_l.
  - by rewrite lookup_union_r.
Qed.

(** X2: [equals] is an equivalence on mappings, and it does not look at the
    property bags. *)
Theorem equals_is_equivalence (a b c : Bindings) :
  Bindings.equals a a = true
  ∧ Bindings.equals a b = Bindings.equals b a
  ∧ (Bindings.equals a b = true → Bindings.equals b c = true →
     Bindings.equals a c = true)
  ∧ (∀ props, Bindings.equals a (mkBindings (_content b) props) = Bindings.equals a b).
Proof.
  assert (Hiff : ∀ x y, Bindings.equals x y = bool_decide (_content x = _content y)).
  { intros x y. apply eq_true_iff_eq. rewrite equals_spec.
    symmetry. apply bool_decide_eq_true. }
  refine (conj _ (conj _ (conj _ _))).
  - rewrite Hiff. by apply bool_decide_eq_true.
  - rewrite !Hiff. apply eq_true_iff_eq. rewrite !bool_decide_eq_true. by split.
  - rewrite !Hiff, !bool_decide_eq_true. congruence.
  - intros props. by rewrite !Hiff.
Qed.

Lemma equals_is_equivalence_witness :
  Bindings.equals mu_s1 mu_s1 = true
  ∧ Bindings.equals mu_s1 (Bindings.clone mu_s1) = true
  ∧ Bindings.equals mu_s1 (Bindings.clone mu_s1) = true.
Proof.
  split; [by vm_compute|]. split; [by vm_compute|].
  apply (proj1 (proj2 (proj2 (equals_is_equivalence mu_s1 mu_s1 (Bindings.clone mu_s1)))));
    by vm_compute.
Defined.

(** X3: [isSubset] is a partial order up to [equals]: it is reflexive and
    transitive, two mappings that are subsets of each other are [equals],
    and the empty mapping is a subset of every mapping. *)
Theorem isSubset_is_order (a b c : Bindings) :
  Bindings.isSubset a a = true
  ∧ Bindings.isSubset Bindings.empty a = true
  ∧ (Bindings.isSubset a b = true → Bindings.isSubset b c = true →
     Bindings.isSubset a c = true)
  ∧ (Bindings.isSubset a b = true → Bindings.isSubset b a = true →
     Bindings.equals a b = true).
Proof.
  refine (conj _ (conj _ (conj _ _))).
  - by apply isSubset_spec.
  - apply isSubset_spec. simpl. apply map_empty_subseteq.
  - rewrite !isSubset_spec. intros H1 H2. by etrans.
  - rewrite !isSubset_spec, equals_spec. intros H1 H2. by apply (anti_symm (⊆)).
Qed.

Lemma isSubset_is_order_witness :
  Bindings.isSubset Bindings.empty mu_thomas = true
  ∧ Bindings.isSubset mu_thomas (Bindings.set mu_thomas "x" thomas) = true
  ∧ Bindings.isSubset Bindings.empty (Bindings.set mu_thomas "x" thomas) = true.
Proof.
  split; [by vm_compute|]. split; [by vm_compute|].
  apply (proj1 (proj2 (proj2 (isSubset_is_order Bindings.empty mu_thomas
                                (Bindings.set mu_thomas "x" thomas)))));
    by vm_compute.
Defined.

(** X4: the intersection binds a variable exactly when both mappings bind
    it to the same term object, and then to that object; it is a subset of
    both operands and does not depend on their order. *)
Theorem intersection_common_mappings (a b : Bindings) (v : string) (t : Term) :
  (_content (Bindings.intersection a b) !! v = Some t
   ↔ _content a !! v = Some t ∧ _content b !! v = Some t)
  ∧ Bindings.isSubset (Bindings.intersection a b) a = true
  ∧ Bindings.isSubset (Bindings.intersection a b) b = true
  ∧ Bindings.equals (Bindings.intersection a b) (Bindings.intersection b a) = true.
Proof.
  assert (Hlookup : ∀ x y w u,
            _content (Bindings.intersection x y) !! w = Some u
            ↔ _content x !! w = Some u ∧ _content y !! w = Some u).
  { intros x y w u. destruct (intersection_spec x y) as [_ Hc]. rewrite Hc.
    destruct (_content x !! w) as [s|]; [|by split; [|intros []]].
    destruct (bool_decide_reflect (_content y !! w = Some s)) as [Hy|Hy].
    - split; [by intros [= ->]|by intros [? _]].
    - split; [done|]. intros [[= ->] ?]. done. }
  refine (conj (Hlookup _ _ _ _) (conj _ (conj _ _))).
  - apply isSubset_spec, map_subseteq_spec. intros w u H. by apply Hlookup in H as [? _].
  - apply isSubset_spec, map_subseteq_spec. intros w u H. by apply Hlookup in H as [_ ?].
  - apply equals_spec, map_eq. intros w. apply option_eq. intros u.
    rewrite !Hlookup. by split; intros [? ?].
Qed.

(** X5: [difference] and [intersection] split a mapping: no variable is in
    both, their union gives back the mappings of the original, and the
    difference of a mapping with itself is empty. *)
Theorem difference_intersection_partition (a b : Bindings) :
  _content (Bindings.union (Bindings.intersection a b) (Bindings.difference a b))
  = _content a
  ∧ (∀ v, _content (Bindings.intersection a b) !! v = None
          ∨ _content (Bindings.difference a b) !! v = None)
  ∧ Bindings.isEmpty (Bindings.difference a a) = true.
Proof.
  destruct (intersection_spec a b) as [_ Hi].
  destruct (difference_spec a b) as [_ Hd].
  split; [|split].
  - rewrite union_spec. simpl. apply map_eq. intros v.
    rewrite lookup_union, Hi, Hd.
    destruct (_content a !! v) as [t|]; [|done].
    by destruct (bool_decide (_content b !! v = Some t)).
  - intros v. rewrite Hi, Hd.
    destruct (_content a !! v) as [t|]; [|by left].
    destruct (bool_decide (_content b !! v = Some t)); [by right|by left].
  - destruct (difference_spec a a) as [_ Hs].
    assert (He : _content (Bindings.difference a a) = ∅).
    { apply map_eq. intros v. rewrite Hs, lookup_empty.
      destruct (_content a !! v) as [t|] eqn:E; [|done].
      by rewrite bool_decide_eq_true_2. }
    unfold Bindings.isEmpty, Bindings.size. by rewrite He, map_size_empty.
Qed.

(** X6: the mappings built by [filter], [difference] and [intersection]
    start from an empty mapping and never receive the properties of their
    operands (the [__aggregate] rows of a grouped mapping included), while
    [filter] keeps exactly the mappings its predicate accepts. *)
Theorem filter_keeps_accepted_drops_properties (this other : Bindings)
  (p : string → Term → bool) (v : string) (t : Term) :
  (_content (Bindings.filter this p) !! v = Some t
   ↔ _content this !! v = Some t ∧ p v t = true)
  ∧ _properties (Bindings.filter this p) = ∅
  ∧ _properties (Bindings.difference this other) = ∅
  ∧ _properties (Bindings.intersection this other) = ∅.
Proof.
  destruct (filter_spec this p) as [Hp Hc].
  split; [|split; [done|split]].
  - rewrite Hc. destruct (_content this !! v) as [s|]; [|by split; [|intros []]].
    destruct (p v s) eqn:E.
    + split; [by intros [= ->]|by intros [? _]].
    + split; [done|]. intros [[= ->] ?]. congruence.
  - apply difference_spec.
  - apply intersection_spec.
Qed.

Section BindingsConstruction.
Implicit Types (this mu : Bindings) (v : string) (t : Term).

Lemma forallb_false_elem {A} (f : A → bool) (l : list A) :
  forallb f l = false → ∃ x, x ∈ l ∧ f x = false.
Proof.
  induction l as [|x l IH]; simpl; [done|].
  destruct (f x) eqn:E; simpl.
  - intros H. destruct (IH H) as (y & Hy & Hf). exists y. split; [by right|done].
  - intros _. exists x. split; [by left|done].
Qed.

Lemma elem_of_map_values (m : gmap string Term) t :
  t ∈ (map_to_list m).*2 ↔ ∃ v, m !! v = Some t.
Proof.
  rewrite list_elem_of_fmap. split.
  - intros [[v t'] [-> Hin]]. exists v. by apply elem_of_map_to_list.
  - intros [v Hv]. exists (v, t). split; [done|]. by apply elem_of_map_to_list.
Qed.

Lemma extendMany_content this (values : list (string * Term)) :
  Bindings.extendMany this values
  = mkBindings (list_to_map (reverse values) ∪ _content this) (_properties this).
Proof.
  unfold Bindings.extendMany. rewrite clone_id.
  revert this. induction values as [|[k t] values IH]; intros this.
  - simpl. by rewrite (left_id_L ∅ (∪)), Bindings_eta.
  - simpl. rewrite IH. simpl. f_equal.
    rewrite reverse_cons, list_to_map_app. simpl.
    rewrite insert_union_singleton_l, (insert_empty (M := gmap string)).
    by rewrite (assoc_L (∪)).
Qed.

Lemma fromMapping_returns (values : gmap string Term) :
  (∀ v t, values !! v = Some t → bindable t = true) →
  Bindings.fromMapping values = Return (mkBindings values ∅).
Proof.
  intros H. unfold Bindings.fromMapping.
  destruct (forallb _ (map_to_list values).*2) eqn:E; [done|].
  apply forallb_false_elem in E as (t & Hin & Ht).
  apply elem_of_map_values in Hin as [v Hv].
  specialize (H v t Hv). unfold bindable in H. congruence.
Qed.

Lemma fromMapping_throws (values : gmap string Term) v t :
  values !! v = Some t → bindable t = false →
  ∃ message, Bindings.fromMapping values = Throw (SyntaxError message).
Proof.
  intros Hv Ht. unfold Bindings.fromMapping.
  destruct (forallb _ (map_to_list values).*2) eqn:E; [|eauto].
  rewrite forallb_forall in E.
  assert (Hin : t ∈ (map_to_list values).*2) by (apply elem_of_map_values; eauto).
  apply list_elem_of_In in Hin. specialize (E t Hin). unfold bindable in Ht. congruence.
Qed.

End BindingsConstruction.

(** X7: substituting with the empty mapping changes nothing; and when the
    mapping binds no variable to a variable, substituting twice is
    substituting once and every variable left in the pattern is one the
    mapping does not bind. *)
Theorem bound_idempotent (mu : Bindings) (triple : Triple) :
  Bindings.bound Bindings.empty triple = triple
  ∧ (noVariableValues mu →
     Bindings.bound mu (Bindings.bound mu triple) = Bindings.bound mu triple
     ∧ ∀ t, t ∈ termsOf (Bindings.bound mu triple) →
            rdf.isVariable t = true → _content mu !! rdf.value t = None).
Proof.
  assert (Hsub : noVariableValues mu → ∀ t,
            substitute mu (substitute mu t) = substitute mu t
            ∧ (rdf.isVariable (substitute mu t) = true →
               _content mu !! rdf.value (substitute mu t) = None)).
  { intros Hground t. destruct (bool_dec (rdf.isVariable t) true) as [E|E%not_true_is_false].
    - rewrite (substitute_variable mu t E).
      destruct (_content mu !! rdf.value t) as [x|] eqn:Hx; simpl.
      + pose proof (Hground _ _ Hx) as Hnv.
        split; [by apply substitute_constant|congruence].
      + split; [|done]. by rewrite (substitute_variable mu t E), Hx.
    - rewrite (substitute_constant mu t E). split; [by apply substitute_constant|congruence]. }
  split.
  - rewrite bound_substitute. destruct triple as [s p o]. simpl.
    assert (He : ∀ t, substitute Bindings.empty t = t).
    { intros t. unfold substitute, Bindings.has. simpl.
      destruct (rdf.isVariable t); [|done]. simpl.
      destruct (node t); try done. }
    by rewrite !He.
  - intros Hground. split.
    + rewrite !bound_substitute. simpl. by rewrite !(proj1 (Hsub Hground _)).
    + intros t Hin. rewrite bound_substitute in Hin. unfold termsOf in Hin. simpl in Hin.
      apply elem_of_cons in Hin as [->|Hin]; [apply Hsub; done|].
      apply elem_of_cons in Hin as [->|Hin]; [apply Hsub; done|].
      apply elem_of_cons in Hin as [->|Hin]; [apply Hsub; done|].
      by apply elem_of_nil in Hin.
Qed.

Lemma bound_idempotent_witness :
  noVariableValues mu_thomas
  ∧ Bindings.bound mu_thomas (Bindings.bound mu_thomas (mkTriple thomas primaryFullPersonName (var 5 "thomas")))
    = Bindings.bound mu_thomas (mkTriple thomas primaryFullPersonName (var 5 "thomas")).
Proof.
  assert (H : noVariableValues mu_thomas).
  { intros v t. unfold mu_thomas, Bindings.set. simpl.
    destruct (decide (v = "thomas")) as [->|Hne].
    - rewrite lookup_insert_eq. by intros [= <-].
    - by rewrite lookup_insert_ne, lookup_empty. }
  split; [exact H|].
  exact (proj1 (proj2 (bound_idempotent mu_thomas
                         (mkTriple thomas primaryFullPersonName (var 5 "thomas"))) H)).
Defined.

(** X8: [BindingBase.fromMapping] returns exactly when every value is
    neither a variable, a blank node, a quad nor a path, and then the
    mapping holds the given values and no property; otherwise it throws a
    [SyntaxError].  [fromValues] accepts whatever [fromMapping] accepts. *)
Theorem fromMapping_accepts_bindable (values : gmap string Term) :
  match Bindings.fromMapping values with
  | Return b =>
      b = mkBindings values ∅
      ∧ (∀ v t, values !! v = Some t → bindable t = true)
      ∧ Bindings.fromValues values = Return b
  | Throw e =>
      (∃ message, e = SyntaxError message)
      ∧ ∃ v t, values !! v = Some t ∧ bindable t = false
  end.
Proof.
  unfold Bindings.fromMapping, Bindings.fromValues.
  destruct (forallb _ (map_to_list values).*2) eqn:E.
  - split; [done|]. split.
    + intros v t Hv. rewrite forallb_forall in E.
      apply (E t). apply list_elem_of_In, elem_of_map_values. eauto.
    + assert (Hw : forallb
                     (fun value => negb (rdf.isVariable value || rdf.isBlankNode value
                                         || rdf.isQuad value))
                     (map_to_list values).*2 = true).
      { rewrite forallb_forall in *. intros t Ht. specialize (E t Ht).
        apply negb_true_iff in E. apply negb_true_iff.
        by apply orb_false_elim in E as [? _]. }
      by rewrite Hw.
  - split; [eauto|].
    apply forallb_false_elem in E as (t & Hin & Ht).
    apply elem_of_map_values in Hin as [v Hv]. by exists v, t.
Qed.

(** X9: [extendMany] adds the pairs in order, a later pair replacing an
    earlier one of the same variable and what the mapping held; a variable
    that no pair names keeps its term, and the properties are kept. *)
Theorem extendMany_later_pair_wins (this : Bindings) (values : list (string * Term))
  (v : string) (t : Term) :
  _content (Bindings.extendMany this (values ++ [(v, t)])) !! v = Some t
  ∧ (v ∉ values.*1 →
     _content (Bindings.extendMany this values) !! v = _content this !! v)
  ∧ _properties (Bindings.extendMany this values) = _properties this.
Proof.
  rewrite !extendMany_content. simpl. split; [|split; [|done]].
  - rewrite reverse_app. simpl. apply lookup_union_Some_l.
    apply lookup_insert_eq.
  - intros Hnot. apply lookup_union_r. apply not_elem_of_list_to_map_1.
    by rewrite fmap_reverse, elem_of_reverse.
Qed.

Lemma extendMany_later_pair_wins_witness :
  ("y" ∉ [("x", thomas)].*1)
  ∧ _content (Bindings.extendMany mu_thomas [("x", thomas)]) !! "y"
    = _content mu_thomas !! "y".
Proof.
  assert (H : "y" ∉ [("x", thomas)].*1).
  { simpl. intros Hin. apply elem_of_cons in Hin as [Hin|Hin]; [done|].
    by apply elem_of_nil in Hin. }
  split; [exact H|].
  exact (proj1 (proj2 (extendMany_later_pair_wins mu_thomas [("x", thomas)] "y" thomas)) H).
Defined.

(** *** More on the index join and on BIND *)

Section StageFacts.

Lemma completes_mergeMap {A B} (s : PipelineStage A) (f : A → PipelineStage B) :
  (∀ x, Pipeline.completes (f x) = true) →
  Pipeline.completes (Pipeline.mergeMap s f) = Pipeline.completes s.
Proof.
  intros Hf. induction s as [|v rest IH|e]; simpl; [done| |done].
  by rewrite completes_andThen, Hf, IH.
Qed.

(** [map] over a list source whose callback returns on a prefix and throws
    on the next element. *)
Lemma map_from_fails {A B} (g : A → Completion B) (good : list A) (bad : A)
  (more : list A) (e : Error) :
  (∀ x, x ∈ good → ∃ y, g x = Return y) →
  g bad = Throw e →
  Pipeline.completes (Pipeline.map (Pipeline.from (good ++ bad :: more)) g) = false
  ∧ length (Pipeline.toArray (Pipeline.map (Pipeline.from (good ++ bad :: more)) g))
    = length good.
Proof.
  intros Hgood Hbad. induction good as [|x good IH]; simpl.
  - by rewrite Hbad.
  - destruct (Hgood x) as [y Hy]; [by left|]. rewrite Hy. simpl.
    destruct IH as [IH1 IH2]; [intros z Hz; apply Hgood; by right|].
    by rewrite IH1, IH2.
Qed.

Lemma andThen_Complete_r {A} (s : PipelineStage A) : Pipeline.andThen s Complete = s.
Proof. induction s; simpl; congruence. Qed.

(** A picked term is one of the three terms of the matched triple. *)
Lemma pickVariables_term (bp item : Triple) v t :
  pickVariables bp item !! v = Some t → t ∈ termsOf item.
Proof.
  rewrite pickVariables_lookup. unfold termsOf.
  repeat case_match; intros [= <-]; set_solver.
Qed.

End StageFacts.

(** X10: every mapping the index join emits holds the input mapping
    together with the terms picked from the matched triple, and an empty
    property bag: the properties of the input (the rows of a grouped
    mapping, for one) are not carried to the output. *)
Theorem indexJoin_output_has_no_property (source : PipelineStage Bindings)
  (pattern : Triple) (graph : Graph) (context : ExecutionContext) (mu' : Bindings) :
  mu' ∈ Pipeline.toArray (indexJoin source pattern graph context) →
  _properties mu' = ∅
  ∧ ∃ mu item,
      mu ∈ Pipeline.toArray source
      ∧ item ∈ Pipeline.toArray (find graph (Bindings.bound mu pattern) context)
      ∧ _content mu'
        = _content mu ∪ pickVariables (Bindings.bound mu pattern) item.
Proof.
  intros Hout. unfold indexJoin in Hout.
  apply elem_of_toArray_mergeMap in Hout as (mu & Hmu & Hout).
  apply elem_of_toArray_map in Hout as (item & Hitem & Hret).
  destruct (Bindings.fromMapping (pickVariables (Bindings.bound mu pattern) item))
    as [b|e] eqn:Hb; [|done].
  injection Hret as <-. rewrite union_spec. simpl.
  unfold Bindings.fromMapping in Hb. destruct (forallb _ _); [|done].
  injection Hb as <-. simpl.
  split; [done|]. by exists mu, item.
Qed.

Lemma indexJoin_output_has_no_property_witness :
  mu_joined ∈ Pipeline.toArray
               (indexJoin (Pipeline.of_ mu_grouped) pairPattern oneTripleGraph
                          ExecutionContext.new)
  ∧ _properties mu_grouped ≠ ∅
  ∧ _properties mu_joined = ∅.
Proof.
  assert (H : mu_joined ∈ Pipeline.toArray
                (indexJoin (Pipeline.of_ mu_grouped) pairPattern oneTripleGraph
                           ExecutionContext.new)).
  { vm_compute. apply list_elem_of_here. }
  refine (conj H (conj _ _)).
  - intros E. apply (f_equal (fun m => m !! "__aggregate")) in E. vm_compute in E. discriminate E.
  - exact (proj1 (indexJoin_output_has_no_property _ _ _ _ _ H)).
Defined.

(** X11: the index join fails as soon as a matched triple holds a variable,
    a blank node, a quad or a path where the bounded pattern has a variable:
    the mappings of the triples before it are emitted, then the stage ends
    with the error, and neither the triples after it nor the remaining
    inputs are joined. *)
Theorem indexJoin_fails_on_unbindable_term (rest : PipelineStage Bindings)
  (pattern : Triple) (graph : Graph) (context : ExecutionContext) (mu : Bindings)
  (good : list Triple) (bad : Triple) (more : list Triple) :
  find graph (Bindings.bound mu pattern) context = Pipeline.from (good ++ bad :: more) →
  (∀ item, item ∈ good →
     ∀ v t, pickVariables (Bindings.bound mu pattern) item !! v = Some t → bindable t = true) →
  (∃ v t, pickVariables (Bindings.bound mu pattern) bad !! v = Some t ∧ bindable t = false) →
  Pipeline.completes (indexJoin (Next mu rest) pattern graph context) = false
  ∧ length (Pipeline.toArray (indexJoin (Next mu rest) pattern graph context))
    = length good.
Proof.
  intros Hfind Hgood (v & t & Hv & Ht).
  unfold indexJoin. simpl. rewrite Hfind.
  destruct (fromMapping_throws _ v t Hv Ht) as [message Hthrow].
  match goal with
  | |- context [Pipeline.andThen ?s1 ?s2] => set (inner := s1); set (others := s2)
  end.
  assert (Hinner : Pipeline.completes inner = false ∧ length (Pipeline.toArray inner) = length good).
  { subst inner. apply (map_from_fails _ good bad more (SyntaxError message)).
    - intros item Hitem. rewrite (fromMapping_returns _ (Hgood item Hitem)). simpl. eauto.
    - by rewrite Hthrow. }
  destruct Hinner as [Hc Hl]. rewrite completes_andThen, Hc. split; [done|].
  rewrite <- Hl. clear -Hc. induction inner as [|x inner IH|e]; simpl in *; [done| |done].
  by rewrite IH.
Qed.

Lemma indexJoin_fails_on_unbindable_term_witness :
  Pipeline.completes
    (indexJoin (Next Bindings.empty (Pipeline.of_ mu_s1)) pairPattern graphWithBlankNode
               ExecutionContext.new) = false
  ∧ length (Pipeline.toArray
              (indexJoin (Next Bindings.empty (Pipeline.of_ mu_s1)) pairPattern
                         graphWithBlankNode ExecutionContext.new))
    = length (@nil Triple).
Proof.
  apply (indexJoin_fails_on_unbindable_term (Pipeline.of_ mu_s1) pairPattern graphWithBlankNode
           ExecutionContext.new Bindings.empty [] (mkTriple thomas coauthorOf blank0) []).
  - reflexivity.
  - intros item Hitem. by apply elem_of_nil in Hitem.
  - exists "y", blank0. split; reflexivity.
Defined.

(** X12: for an expression that compiles, where no evaluation gives an
    array or an iterable, the BIND stage is its source with every mapping
    replaced, in order, by itself with the target set (to the term, or to
    the unbound sentinel for [null]) and every mapping whose evaluation
    throws left out; the stage completes exactly when its source does. *)
Theorem bind_scalar_results_in_order (tables : ExpressionTables)
  (source : PipelineStage Bindings) (variable : Term) (expression : Expression)
  (customFunctions : gmap string CustomFunction) (expr : CompiledExpression) :
  withinModel expression = true →
  SPARQLExpression.new tables expression customFunctions = Return expr →
  (∀ mu ts, mu ∈ Pipeline.toArray source →
            SPARQLExpression.evaluate expr mu ≠ Return (OTerms ts)) →
  ∃ stage,
    bind tables source variable expression customFunctions = Return stage
    ∧ Pipeline.toArray stage = omap (boundScalar expr variable) (Pipeline.toArray source)
    ∧ Pipeline.completes stage = Pipeline.completes source.
Proof.
  intros _ Hnew Hscalar. unfold bind. rewrite Hnew. eexists. split; [reflexivity|]. split.
  - rewrite toArray_mergeMap by (intros mu; apply bindOne_completes).
    induction (Pipeline.toArray source) as [|mu l IH]; [done|].
    simpl. rewrite IH by (intros mu' ts Hin; apply Hscalar; by right).
    rewrite bindOne_toArray. unfold boundScalar.
    pose proof (Hscalar mu) as Hmu.
    destruct (SPARQLExpression.evaluate expr mu) as [[t|ts|]|e]; try done.
    exfalso. apply (Hmu ts); [by left|done].
  - apply completes_mergeMap. intros mu. apply bindOne_completes.
Qed.

Lemma bind_scalar_results_in_order_witness :
  ∃ stage,
    bind countTables (Pipeline.from [mu_thomas; mu_grouped; mu_s1]) (var 3 "n")
         (EAggregate "count" (var 4 "o") false None) ∅ = Return stage
    ∧ Pipeline.toArray stage
      = [Bindings.set mu_grouped "n"
           (mkTerm 0 (Literal "II" "" "http://www.w3.org/2001/XMLSchema#integer"))]
    ∧ Pipeline.completes stage = true.
Proof.
  destruct (bind_scalar_results_in_order countTables
              (Pipeline.from [mu_thomas; mu_grouped; mu_s1])
              (var 3 "n") (EAggregate "count" (var 4 "o") false None) ∅
              (fun mu =>
                 if Bindings.hasProperty mu "__aggregate" then
                   match Bindings.getProperty mu "__aggregate" with
                   | Some (AggregateRows rows) =>
                       Return (OTerm (mkTerm 0
                         (Literal (String.concat ""
                                     (List.map (fun _ => "I")
                                        (default [] (rows !! rdf.value (var 4 "o")))))
                                  "" "http://www.w3.org/2001/XMLSchema#integer")))
                   | _ => Throw (GenericError "TypeError: rows is not a Map")
                   end
                 else Throw (SyntaxError "SPARQL aggregation error: aggregate used outside of an aggregation query")))
    as (stage & Hstage & Harray & Hcompletes).
  - reflexivity.
  - reflexivity.
  - intros mu ts Hmu. simpl in Hmu.
    repeat (apply elem_of_cons in Hmu as [->|Hmu]; [by vm_compute|]).
    by apply elem_of_nil in Hmu.
  - exists stage. split; [exact Hstage|]. split.
    + rewrite Harray. by vm_compute.
    + rewrite Hcompletes. reflexivity.
Defined.

(** X13: for an expression without DISTINCT aggregate (and without name
    found by inheritance), every mapping BIND emits is an input mapping
    with the target variable set: the properties and the terms of the
    other variables are those of the input, and a term the input held for
    the target variable is replaced. *)
Theorem bind_output_updates_input (tables : ExpressionTables) (source : PipelineStage Bindings)
  (variable : Term) (expression : Expression) (customFunctions : gmap string CustomFunction)
  (stage : PipelineStage Bindings) (mu' : Bindings) :
  withinModel expression = true →
  bind tables source variable expression customFunctions = Return stage →
  mu' ∈ Pipeline.toArray stage →
  ∃ mu t,
    mu ∈ Pipeline.toArray source
    ∧ mu' = Bindings.set mu (rdf.value variable) t
    ∧ _properties mu' = _properties mu
    ∧ _content mu' !! rdf.value variable = Some t
    ∧ ∀ v, v ≠ rdf.value variable → _content mu' !! v = _content mu !! v.
Proof.
  intros _. unfold bind. destruct (SPARQLExpression.new _ _ _) as [expr|e]; [|done].
  intros [= <-] Hout.
  apply elem_of_toArray_mergeMap in Hout as (mu & Hmu & Hout).
  rewrite bindOne_toArray in Hout.
  assert (Ht : ∃ t, mu' = Bindings.set mu (rdf.value variable) t).
  { destruct (SPARQLExpression.evaluate expr mu) as [[t|ts|]|e].
    - apply list_elem_of_singleton in Hout. eauto.
    - apply list_elem_of_fmap in Hout as (o & -> & _). eauto.
    - apply list_elem_of_singleton in Hout. eauto.
    - by apply elem_of_nil in Hout. }
  destruct Ht as [t ->]. exists mu, t.
  refine (conj Hmu (conj eq_refl (conj eq_refl (conj _ _)))); simpl.
  - by rewrite lookup_insert_eq.
  - intros v Hv. by rewrite lookup_insert_ne.
Qed.

Lemma bind_output_updates_input_witness :
  ∃ mu t,
    mu ∈ Pipeline.toArray (Pipeline.of_ mu_thomas)
    ∧ Bindings.set mu_thomas "thomas" thomas = Bindings.set mu (rdf.value (var 3 "thomas")) t
    ∧ _properties (Bindings.set mu_thomas "thomas" thomas) = _properties mu
    ∧ _content (Bindings.set mu_thomas "thomas" thomas) !! rdf.value (var 3 "thomas") = Some t
    ∧ ∀ v, v ≠ rdf.value (var 3 "thomas") →
           _content (Bindings.set mu_thomas "thomas" thomas) !! v = _content mu !! v.
Proof.
  apply (bind_output_updates_input noTables (Pipeline.of_ mu_thomas) (var 3 "thomas")
           (ETerm thomas) ∅
           (Pipeline.mergeMap (Pipeline.of_ mu_thomas)
              (bindOne (fun _ => Return (OTerm thomas)) (var 3 "thomas")))).
  - reflexivity.
  - reflexivity.
  - vm_compute. apply list_elem_of_here.
Defined.

(** X14: BIND of a variable, [BIND(?y AS ?x)], gives every input mapping
    one output: [?x] is bound to the very term the input holds for [?y],
    and to the unbound sentinel when the input does not bind [?y].  No
    function table is consulted. *)
Theorem bind_variable_copies_term (tables : ExpressionTables)
  (source : PipelineStage Bindings) (x y : Term)
  (customFunctions : gmap string CustomFunction) :
  rdf.isVariable y = true →
  ∃ stage,
    bind tables source x (ETerm y) customFunctions = Return stage
    ∧ Pipeline.toArray stage
      = List.map (fun mu => Bindings.set mu (rdf.value x)
                              (default rdf.createUnbound (Bindings.get mu (rdf.value y))))
                 (Pipeline.toArray source).
Proof.
  intros Hy. unfold bind, SPARQLExpression.new. simpl. rewrite Hy.
  eexists. split; [reflexivity|].
  rewrite toArray_mergeMap by (intros mu; apply bindOne_completes).
  induction (Pipeline.toArray source) as [|mu l IH]; simpl; [done|].
  rewrite IH, bindOne_toArray. f_equal.
  unfold SPARQLExpression.evaluate, bindArgument, Bindings.has, Bindings.get.
  unfold rdf.isVariable in Hy. unfold rdf.value.
  destruct (node y) as [| | |name| |] eqn:Hnode; try done.
  destruct (_content mu !! name) as [t|] eqn:Hget; simpl; by rewrite ?Hget.
Qed.

Lemma bind_variable_copies_term_witness :
  ∃ stage,
    bind noTables (Pipeline.from [mu_thomas; mu_s1]) (var 3 "x") (ETerm (var 5 "thomas")) ∅
    = Return stage
    ∧ Pipeline.toArray stage
      = List.map (fun mu => Bindings.set mu (rdf.value (var 3 "x"))
                              (default rdf.createUnbound
                                 (Bindings.get mu (rdf.value (var 5 "thomas")))))
                 (Pipeline.toArray (Pipeline.from [mu_thomas; mu_s1])).
Proof.
  apply (bind_variable_copies_term noTables (Pipeline.from [mu_thomas; mu_s1]) (var 3 "x")
           (var 5 "thomas") ∅).
  reflexivity.
Defined.

(** X15: BIND of a known aggregate over mappings that carry no group
    emits nothing: every evaluation throws the aggregation error, which the
    stage silences, so neither an error nor an unbound mapping reaches the
    sink. *)
Theorem bind_aggregate_outside_group_is_empty (tables : ExpressionTables)
  (source : PipelineStage Bindings) (variable : Term)
  (aggregation : string) (aggVariable : Term) (distinct : bool) (separator : option string)
  (customFunctions : gmap string CustomFunction) :
  is_Some (SPARQL_AGGREGATES tables !! aggregation) →
  (∀ mu, mu ∈ Pipeline.toArray source → Bindings.hasProperty mu "__aggregate" = false) →
  ∃ stage,
    bind tables source variable (EAggregate aggregation aggVariable distinct separator)
         customFunctions = Return stage
    ∧ Pipeline.toArray stage = []
    ∧ Pipeline.completes stage = Pipeline.completes source.
Proof.
  intros [aggregate Hagg] Hsource. unfold bind, SPARQLExpression.new. simpl. rewrite Hagg.
  eexists. split; [reflexivity|]. split.
  - rewrite toArray_mergeMap by (intros mu; apply bindOne_completes).
    induction (Pipeline.toArray source) as [|mu l IH]; simpl; [done|].
    rewrite IH by (intros mu' Hmu'; apply Hsource; by right).
    rewrite bindOne_toArray. unfold SPARQLExpression.evaluate.
    by rewrite (Hsource mu) by (by left).
  - apply completes_mergeMap. intros mu. apply bindOne_completes.
Qed.

Lemma bind_aggregate_outside_group_is_empty_witness :
  ∃ stage,
    bind countTables (Pipeline.from [mu_thomas; mu_s1]) (var 3 "n")
         (EAggregate "count" (var 4 "o") false None) ∅ = Return stage
    ∧ Pipeline.toArray stage = []
    ∧ Pipeline.completes stage = Pipeline.completes (Pipeline.from [mu_thomas; mu_s1]).
Proof.
  apply (bind_aggregate_outside_group_is_empty countTables (Pipeline.from [mu_thomas; mu_s1])
           (var 3 "n") "count" (var 4 "o") false None ∅).
  - vm_compute. eauto.
  - intros mu Hmu. simpl in Hmu.
    repeat (apply elem_of_cons in Hmu as [->|Hmu]; [reflexivity|]).
    by apply elem_of_nil in Hmu.
Defined.

(** *** More on the compilation of expressions *)

Section ExpressionFacts.
Context (tables : ExpressionTables).

(** Induction on expressions that reaches the arguments of operations and
    function calls. *)
Lemma Expression_nested_ind (P : Expression → Prop) :
  (∀ term, P (ETerm term)) →
  (∀ terms, P (ETerms terms)) →
  (∀ operator args, Forall P args → P (EOperation operator args)) →
  (∀ aggregation expression distinct separator,
     P (EAggregate aggregation expression distinct separator)) →
  (∀ function args, Forall P args → P (EFunctionCall function args)) →
  (∀ type, P (EOther type)) →
  ∀ e, P e.
Proof.
  intros Hterm Hterms Hop Hagg Hcall Hother.
  fix IH 1. intros [term|terms|operator args|aggregation expression distinct separator
                    |function args|type].
  - apply Hterm.
  - apply Hterms.
  - apply Hop. induction args as [|a args IHargs]; constructor; [apply IH|apply IHargs].
  - apply Hagg.
  - apply Hcall. induction args as [|a args IHargs]; constructor; [apply IH|apply IHargs].
  - apply Hother.
Qed.

Lemma mapThrowing_returns_iff {T U} (f : T → Completion U) (ok : T → bool) (l : list T) :
  Forall (fun a => match f a with Return _ => ok a = true | Throw _ => ok a = false end) l →
  match SPARQLExpression.mapThrowing f l with
  | Return _ => forallb ok l = true
  | Throw _ => forallb ok l = false
  end.
Proof.
  induction 1 as [|a l Ha _ IH]; simpl; [done|].
  destruct (f a) as [y|e]; rewrite Ha; simpl; [|done].
  by destruct (SPARQLExpression.mapThrowing f l).
Qed.

(** Compilation against the shape of the expression. *)
Lemma compileExpression_spec (customs : gmap string CustomFunction) (expression : Expression) :
  match SPARQLExpression._compileExpression tables customs expression with
  | Return _ => compiles tables customs expression = true
  | Throw _ => compiles tables customs expression = false
  end.
Proof.
  induction expression as [term|terms|operator args IH|aggregation e distinct separator
                           |function args _|type] using Expression_nested_ind; simpl.
  - by destruct (rdf.isVariable term).
  - done.
  - pose proof (mapThrowing_returns_iff _ _ _ IH) as Hargs.
    destruct (SPARQLExpression.mapThrowing _ args) as [args'|e]; rewrite Hargs; simpl; [|done].
    by destruct (SPARQL_OPERATIONS tables !! operator).
  - by destruct (SPARQL_AGGREGATES tables !! aggregation).
  - destruct (CUSTOM_AGGREGATES tables !! JS.toLowerCase function); simpl; [done|].
    by destruct (customs !! function).
  - done.
Qed.

Lemma compile_arguments_spec (customs : gmap string CustomFunction) (args : list Expression) :
  match SPARQLExpression.mapThrowing (SPARQLExpression._compileExpression tables customs) args with
  | Return _ => forallb (compiles tables customs) args = true
  | Throw _ => forallb (compiles tables customs) args = false
  end.
Proof.
  apply mapThrowing_returns_iff. apply Forall_forall. intros a _. apply compileExpression_spec.
Qed.

End ExpressionFacts.

(** X16: for an expression no name of which is a property name of
    [Object.prototype], the compilation returns exactly when every
    operation and aggregate in it is known and every function call names a
    framework aggregate or a custom function; it throws otherwise.  The
    arguments of a function call play no part: they are compiled when the
    call is evaluated. *)
Theorem compileExpression_returns_iff_compiles (tables : ExpressionTables)
  (customs : gmap string CustomFunction) (expression : Expression) :
  noInheritedName expression = true →
  match SPARQLExpression._compileExpression tables customs expression with
  | Return _ => compiles tables customs expression = true
  | Throw _ => compiles tables customs expression = false
  end
  ∧ ∀ name args,
      compiles tables customs (EFunctionCall name args)
      = compiles tables customs (EFunctionCall name []).
Proof.
  intros _. split.
  - apply compileExpression_spec.
  - intros name args. simpl.
    destruct (CUSTOM_AGGREGATES tables !! JS.toLowerCase name); simpl; [done|].
    by destruct (customs !! name).
Qed.

Lemma compileExpression_returns_iff_compiles_witness :
  compiles notTables ∅ (EOperation "!" [EFunctionCall "f" [unknownCall]]) = false
  ∧ compiles notTables {[ "f" := fun _ => Return ONull ]}
             (EOperation "!" [EFunctionCall "f" [unknownCall]]) = true.
Proof.
  pose proof (proj1 (compileExpression_returns_iff_compiles notTables ∅
                       (EOperation "!" [EFunctionCall "f" [unknownCall]]) eq_refl)) as H1.
  pose proof (proj1 (compileExpression_returns_iff_compiles notTables
                       {[ "f" := fun _ => Return ONull ]}
                       (EOperation "!" [EFunctionCall "f" [unknownCall]]) eq_refl)) as H2.
  split; [exact H1|exact H2].
Defined.

(** X17: the call of a custom function the user registered, under a name
    that no framework aggregate takes in lower case, in an expression
    without name found by inheritance and without DISTINCT aggregate,
    compiles whatever its arguments are, and its evaluation never throws.
    It returns what the user's function returns on the evaluated
    arguments, and [null] when the function throws, when the evaluation of
    an argument throws, or when an argument does not compile.  The user's
    function is the one called even where the framework has a custom
    operation of the same name. *)
Theorem custom_function_call_never_throws (tables : ExpressionTables)
  (customFunctions : gmap string CustomFunction) (name : string) (args : list Expression)
  (f : CustomFunction) :
  customFunctions !! name = Some f →
  CUSTOM_AGGREGATES tables !! JS.toLowerCase name = None →
  withinModel (EFunctionCall name args) = true →
  ∃ expr,
    SPARQLExpression.new tables (EFunctionCall name args) customFunctions = Return expr
    ∧ (∀ mu, ∃ output, SPARQLExpression.evaluate expr mu = Return output)
    ∧ (∀ mu args' values,
         SPARQLExpression.mapThrowing
           (SPARQLExpression._compileExpression tables
              (customFunctions ∪ CUSTOM_OPERATIONS tables)) args = Return args' →
         SPARQLExpression.mapThrowing (fun arg : CompiledExpression => arg mu) args'
         = Return values →
         SPARQLExpression.evaluate expr mu
         = Return (match f values with Return output => output | Throw _ => ONull end))
    ∧ (∀ mu args' e,
         SPARQLExpression.mapThrowing
           (SPARQLExpression._compileExpression tables
              (customFunctions ∪ CUSTOM_OPERATIONS tables)) args = Return args' →
         SPARQLExpression.mapThrowing (fun arg : CompiledExpression => arg mu) args'
         = Throw e →
         SPARQLExpression.evaluate expr mu = Return ONull)
    ∧ (forallb (compiles tables (customFunctions ∪ CUSTOM_OPERATIONS tables)) args = false →
       ∀ mu, SPARQLExpression.evaluate expr mu = Return ONull).
Proof.
  intros Hf Hagg _.
  assert (Hmerged : (customFunctions ∪ CUSTOM_OPERATIONS tables) !! name = Some f)
    by (by apply lookup_union_Some_l).
  destruct (compile_custom_function tables _ name args f Hagg Hmerged) as (expr & Hexpr & Heval).
  exists expr. unfold SPARQLExpression.new, SPARQLExpression.evaluate.
  refine (conj Hexpr (conj _ (conj _ (conj _ _)))).
  - intros mu. rewrite Heval. repeat case_match; eauto.
  - intros mu args' values Hargs Hvalues. rewrite Heval, Hargs, Hvalues.
    by destruct (f values).
  - intros mu args' e Hargs Hvalues. by rewrite Heval, Hargs, Hvalues.
  - intros Hno mu. rewrite Heval.
    pose proof (compile_arguments_spec tables
                  (customFunctions ∪ CUSTOM_OPERATIONS tables) args) as Hspec.
    destruct (SPARQLExpression.mapThrowing _ args) as [args'|e]; [congruence|done].
Qed.

Lemma custom_function_call_never_throws_witness :
  (∃ expr,
     SPARQLExpression.new noTables (EFunctionCall "http://test.com#ERROR" [unknownCall])
       errorFunctions = Return expr
     ∧ SPARQLExpression.evaluate expr mu_thomas = Return ONull)
  ∧ ∃ expr,
      SPARQLExpression.new countTables
        (EFunctionCall "http://test.com#ERROR" [EAggregate "count" (var 4 "o") false None])
        errorFunctions = Return expr
      ∧ SPARQLExpression.evaluate expr mu_thomas = Return ONull.
Proof.
  split.
  - destruct (custom_function_call_never_throws noTables errorFunctions
                "http://test.com#ERROR" [unknownCall]
                (fun _ => Throw (GenericError "This should result in an unbould solution, but the query should still evaluate")))
      as (expr & Hexpr & _ & _ & _ & Hnull).
    + reflexivity.
    + reflexivity.
    + reflexivity.
    + exists expr. split; [exact Hexpr|]. apply Hnull. reflexivity.
  - destruct (custom_function_call_never_throws countTables errorFunctions
                "http://test.com#ERROR" [EAggregate "count" (var 4 "o") false None]
                (fun _ => Throw (GenericError "This should result in an unbould solution, but the query should still evaluate")))
      as (expr & Hexpr & _ & _ & Hthrows & _).
    + reflexivity.
    + reflexivity.
    + reflexivity.
    + exists expr. split; [exact Hexpr|].
      eapply Hthrows; reflexivity.
Defined.

(** X18: a function call whose lower-cased name is a framework aggregate
    always compiles to that aggregate: the functions the user registered
    are not consulted, the arguments are handed over uncompiled with the
    rows of the group, and outside a group the evaluation throws the
    aggregation error. *)
Theorem framework_aggregate_shadows_custom_function (tables : ExpressionTables)
  (customFunctions : gmap string CustomFunction) (name : string) (args : list Expression)
  (aggregate : list Expression → PropertyValue → Completion ExpressionOutput) :
  CUSTOM_AGGREGATES tables !! JS.toLowerCase name = Some aggregate →
  ∃ expr,
    SPARQLExpression.new tables (EFunctionCall name args) customFunctions = Return expr
    ∧ SPARQLExpression.new tables (EFunctionCall name args) ∅ = Return expr
    ∧ (∀ mu rows,
         Bindings.getProperty mu "__aggregate" = Some rows →
         SPARQLExpression.evaluate expr mu = aggregate args rows)
    ∧ (∀ mu,
         Bindings.hasProperty mu "__aggregate" = false →
         ∃ message, SPARQLExpression.evaluate expr mu = Throw (SyntaxError message)).
Proof.
  intros Hagg. unfold SPARQLExpression.new. simpl. rewrite Hagg.
  eexists. refine (conj eq_refl (conj eq_refl (conj _ _))).
  - intros mu rows Hrows. unfold SPARQLExpression.evaluate, Bindings.hasProperty.
    unfold Bindings.getProperty in *. by rewrite Hrows.
  - intros mu Hno. unfold SPARQLExpression.evaluate. rewrite Hno. eauto.
Qed.

Lemma framework_aggregate_shadows_custom_function_witness :
  ∃ expr,
    SPARQLExpression.new frameworkAggregateTables
      (EFunctionCall "https://callidon.github.io/sparql-engine/aggregates#ACCURACY" [])
      {[ "https://callidon.github.io/sparql-engine/aggregates#ACCURACY" :=
           fun _ => Return ONull ]} = Return expr
    ∧ SPARQLExpression.evaluate expr mu_grouped = Return (OTerm thomasName).
Proof.
  destruct (framework_aggregate_shadows_custom_function frameworkAggregateTables
              {[ "https://callidon.github.io/sparql-engine/aggregates#ACCURACY" :=
                   fun _ => Return ONull ]}
              "https://callidon.github.io/sparql-engine/aggregates#ACCURACY" []
              (fun _ _ => Return (OTerm thomasName)))
    as (expr & Hexpr & _ & Hrows & _).
  - reflexivity.
  - exists expr. split; [exact Hexpr|].
    apply (Hrows mu_grouped (AggregateRows {[ "o" := [florian; thomas] ]})). reflexivity.
Defined.

(** *** More on the full-text search *)

Section FullTextSearchParameterFacts.
Context (env : StageEnvironment) (queryVariable : Term).

Lemma readMagicTriple_wellFormed p triple p' :
  wellFormedParameters p = true →
  BGPStageBuilder.readMagicTriple env queryVariable p triple = Return p' →
  wellFormedParameters p' = true.
Proof.
  unfold wellFormedParameters. intros Hwf.
  repeat (apply andb_true_iff in Hwf as [Hwf ?]).
  unfold BGPStageBuilder.readMagicTriple.
  destruct (rdf.termEquals (subject triple) queryVariable); simpl; [|done].
  repeat match goal with
    | |- context [String.eqb ?a ?b] => destruct (String.eqb a b); simpl
    end;
    repeat match goal with
      | |- context [rdf.isLiteral ?a] => destruct (rdf.isLiteral a); simpl
      | |- context [rdf.isVariable ?a] => destruct (rdf.isVariable a) eqn:?; simpl
      | |- context [JS.isNaN ?a] => destruct (JS.isNaN a) eqn:?; simpl
      | |- context [JS.isInteger ?a] => destruct (JS.isInteger a) eqn:?; simpl
      | |- context [JS.lt ?a ?b] => destruct (JS.lt a b) eqn:?; simpl
      end;
    try done; intros [= <-]; simpl;
    repeat match goal with
      | H : _ = _ |- _ => rewrite H
      end; simpl; try done.
  - destruct (addRank p); simpl in *; [|done].
    by apply andb_true_iff in H as [-> _].
  - destruct (minRank p); simpl in *; [by rewrite H2|reflexivity].
Qed.

Lemma readMagicTriples_wellFormed p magicTriples p' :
  wellFormedParameters p = true →
  BGPStageBuilder.readMagicTriples env queryVariable p magicTriples = Return p' →
  wellFormedParameters p' = true.
Proof.
  revert p. induction magicTriples as [|t ts IH]; simpl; intros p Hwf.
  - by intros [= <-].
  - destruct (BGPStageBuilder.readMagicTriple env queryVariable p t) as [q|e] eqn:E; [|done].
    apply IH. by eapply readMagicTriple_wellFormed.
Qed.

End FullTextSearchParameterFacts.

(** X19: the parameters a full-text search is run with are well formed:
    the relevance bounds are numbers, the rank bounds are non-negative
    integers, no minimum exceeds its maximum, a requested score comes with
    the variable that receives it, and a requested rank comes with its
    variable and a minimum rank (0 when the query gives none). *)
Theorem fullTextSearchParameters_wellFormed (env : StageEnvironment) (queryVariable : Term)
  (magicTriples : list Triple) (p : FullTextSearchParameters) :
  BGPStageBuilder.fullTextSearchParameters env queryVariable magicTriples = Return p →
  wellFormedParameters p = true
  ∧ BGPStageBuilder.exceeds (minScore p) (maxScore p) = false
  ∧ BGPStageBuilder.exceeds (minRank p) (maxRank p) = false.
Proof.
  unfold BGPStageBuilder.fullTextSearchParameters.
  destruct (BGPStageBuilder.readMagicTriples env queryVariable _ magicTriples) as [q|e] eqn:E;
    [|done].
  destruct (BGPStageBuilder.exceeds (minScore q) (maxScore q)) eqn:E1; [done|].
  destruct (BGPStageBuilder.exceeds (minRank q) (maxRank q)) eqn:E2; [done|].
  intros [= <-]. refine (conj _ (conj E1 E2)).
  by apply (readMagicTriples_wellFormed env queryVariable
              BGPStageBuilder.defaultParameters magicTriples).
Qed.

Lemma fullTextSearchParameters_wellFormed_witness :
  BGPStageBuilder.fullTextSearchParameters exampleStageEnv queryVariable_o rankedSearch
  = Return (mkFTS ["neil"; "gaiman"] false (Some (Finite (1 # 4))) None (Some JS.zero) None
                  false true None (Some (var 47 "r")))
  ∧ wellFormedParameters
      (mkFTS ["neil"; "gaiman"] false (Some (Finite (1 # 4))) None (Some JS.zero) None
             false true None (Some (var 47 "r"))) = true.
Proof.
  assert (H : BGPStageBuilder.fullTextSearchParameters exampleStageEnv queryVariable_o
                rankedSearch
              = Return (mkFTS ["neil"; "gaiman"] false (Some (Finite (1 # 4))) None
                              (Some JS.zero) None false true None (Some (var 47 "r"))))
    by reflexivity.
  split; [exact H|].
  exact (proj1 (fullTextSearchParameters_wellFormed exampleStageEnv queryVariable_o
                  rankedSearch _ H)).
Defined.

Section SearchResultFacts.
Context (env : StageEnvironment).

Lemma searchResultBindings_properties p bp item :
  _properties (BGPStageBuilder.searchResultBindings env p bp item) = ∅.
Proof.
  destruct item as [[triple score] rank]. unfold BGPStageBuilder.searchResultBindings.
  repeat case_match; done.
Qed.

(** A name the search result binds is a variable of the bounded pattern,
    the score variable or the rank variable. *)
Lemma searchResultBindings_lookup p bp item v t :
  _content (BGPStageBuilder.searchResultBindings env p bp item) !! v = Some t →
  (∃ position, position ∈ termsOf bp ∧ rdf.isVariable position = true
               ∧ v = rdf.value position)
  ∨ (rdf.value <$> scoreVariable p) = Some v
  ∨ (rdf.value <$> rankVariable p) = Some v.
Proof.
  destruct item as [[triple score] rank]. unfold BGPStageBuilder.searchResultBindings.
  set (D := fun name : string =>
              (∃ position, position ∈ termsOf bp ∧ rdf.isVariable position = true
                           ∧ name = rdf.value position)
              ∨ (rdf.value <$> scoreVariable p) = Some name
              ∨ (rdf.value <$> rankVariable p) = Some name).
  change (_content
            (let mu := Bindings.empty in
             let mu :=
               if rdf.isVariable (subject bp) && negb (rdf.isVariable (subject triple))
               then Bindings.set mu (rdf.value (subject bp)) (subject triple) else mu in
             let mu :=
               if rdf.isVariable (predicate bp) && negb (rdf.isVariable (predicate triple))
               then Bindings.set mu (rdf.value (predicate bp)) (predicate triple) else mu in
             let mu :=
               if rdf.isVariable (object bp) && negb (rdf.isVariable (object triple))
               then Bindings.set mu (rdf.value (object bp)) (object triple) else mu in
             let mu :=
               match addScore p, scoreVariable p with
               | true, Some sv =>
                   Bindings.set mu (rdf.value sv) (createTypedLiteral env score (XSD_float env))
               | _, _ => mu
               end in
             match addRank p, rankVariable p with
             | true, Some rv =>
                 Bindings.set mu (rdf.value rv) (createTypedLiteral env rank (XSD_integer env))
             | _, _ => mu
             end) !! v = Some t → D v).
  assert (Ds : rdf.isVariable (subject bp) && negb (rdf.isVariable (subject triple)) = true →
               D (rdf.value (subject bp))).
  { intros [H _]%andb_true_iff. left. exists (subject bp).
    split; [apply list_elem_of_here|done]. }
  assert (Dp : rdf.isVariable (predicate bp) && negb (rdf.isVariable (predicate triple)) = true →
               D (rdf.value (predicate bp))).
  { intros [H _]%andb_true_iff. left. exists (predicate bp).
    split; [apply list_elem_of_further, list_elem_of_here|done]. }
  assert (Do : rdf.isVariable (object bp) && negb (rdf.isVariable (object triple)) = true →
               D (rdf.value (object bp))).
  { intros [H _]%andb_true_iff. left. exists (object bp).
    split; [apply list_elem_of_further, list_elem_of_further, list_elem_of_here|done]. }
  assert (Dscore : ∀ sv, scoreVariable p = Some sv → D (rdf.value sv)).
  { intros sv H. right. left. by rewrite H. }
  assert (Drank : ∀ rv, rankVariable p = Some rv → D (rdf.value rv)).
  { intros rv H. right. right. by rewrite H. }
  clearbody D.
  destruct (rdf.isVariable (subject bp) && negb (rdf.isVariable (subject triple)));
    destruct (rdf.isVariable (predicate bp) && negb (rdf.isVariable (predicate triple)));
    destruct (rdf.isVariable (object bp) && negb (rdf.isVariable (object triple)));
    destruct (addScore p); destruct (scoreVariable p) as [sv|];
    destruct (addRank p); destruct (rankVariable p) as [rv|]; simpl; intros H;
    repeat (apply lookup_insert_Some in H as [[<- _]|[_ H]];
            [first [by apply Ds | by apply Dp | by apply Do
                   | by apply Dscore | by apply Drank]|]);
    by rewrite lookup_empty in H.
Qed.

Lemma searchResultBindings_rank p bp triple score rank rv :
  addRank p = true → rankVariable p = Some rv →
  _content (BGPStageBuilder.searchResultBindings env p bp (triple, score, rank))
    !! rdf.value rv
  = Some (createTypedLiteral env rank (XSD_integer env)).
Proof.
  intros Ha Hr. unfold BGPStageBuilder.searchResultBindings. rewrite Ha, Hr. simpl.
  by rewrite lookup_insert_eq.
Qed.

(** Where the bounded pattern still has a variable, a mapping without
    variable values does not bind it. *)
Lemma bound_variable_unbound mu (triple : Triple) position :
  noVariableValues mu →
  position ∈ termsOf (Bindings.bound mu triple) →
  rdf.isVariable position = true →
  _content mu !! rdf.value position = None.
Proof.
  intros Hground Hin Hvar. rewrite bound_substitute in Hin. unfold termsOf in Hin. simpl in Hin.
  assert (Hsub : ∃ x, position = substitute mu x).
  { repeat (apply elem_of_cons in Hin as [->|Hin]; [eauto|]). by apply elem_of_nil in Hin. }
  destruct Hsub as [x ->].
  destruct (rdf.isVariable x) eqn:Hx.
  - rewrite (substitute_variable mu x Hx) in *.
    destruct (_content mu !! rdf.value x) as [t|] eqn:E; simpl in *; [|done].
    rewrite (Hground _ _ E) in Hvar. done.
  - rewrite (substitute_constant mu x Hx) in Hvar. congruence.
Qed.

End SearchResultFacts.

(** X20: every mapping the full-text-search stage emits extends an input
    mapping: it has the input's properties; it keeps the input's term for
    every variable other than the score and rank variables (the input
    binding no variable to a variable); and the rank variable, when a rank
    is asked for, holds the rank of the search result even where the input
    bound it. *)
Theorem fullTextSearch_output_extends_input (env : StageEnvironment)
  (source : PipelineStage Bindings) (graph : Graph) (pattern : Triple)
  (queryVariable : Term) (magicTriples : list Triple) (context : ExecutionContext)
  (stage : PipelineStage Bindings) (mu' : Bindings) :
  BGPStageBuilder._buildFullTextSearchIterator env source graph pattern queryVariable
    magicTriples context = Return stage →
  mu' ∈ Pipeline.toArray stage →
  ∃ p mu,
    BGPStageBuilder.fullTextSearchParameters env queryVariable magicTriples = Return p
    ∧ mu ∈ Pipeline.toArray source
    ∧ _properties mu' = _properties mu
    ∧ (noVariableValues mu →
       ∀ v t, _content mu !! v = Some t →
              (rdf.value <$> scoreVariable p) ≠ Some v →
              (rdf.value <$> rankVariable p) ≠ Some v →
              _content mu' !! v = Some t)
    ∧ (∀ rv, addRank p = true → rankVariable p = Some rv →
             ∃ rank, _content mu' !! rdf.value rv
                     = Some (createTypedLiteral env rank (XSD_integer env))).
Proof.
  unfold BGPStageBuilder._buildFullTextSearchIterator.
  destruct (BGPStageBuilder.fullTextSearchParameters env queryVariable magicTriples)
    as [p|e]; [|done].
  intros [= <-] Hout.
  apply elem_of_toArray_mergeMap in Hout as (mu & Hmu & Hout).
  apply elem_of_toArray_map in Hout as (item & _ & Hret).
  injection Hret as <-. exists p, mu. rewrite union_spec. simpl.
  refine (conj eq_refl (conj Hmu (conj eq_refl (conj _ _)))).
  - intros Hground v t Hv Hscore Hrank.
    destruct (_content (BGPStageBuilder.searchResultBindings env p
                          (Bindings.bound mu pattern) item) !! v) as [t'|] eqn:E.
    + apply searchResultBindings_lookup in E as [(position & Hin & Hvar & ->)|[E|E]];
        [|done|done].
      rewrite (bound_variable_unbound mu pattern position Hground Hin Hvar) in Hv. done.
    + by rewrite lookup_union_r.
  - intros rv Ha Hr. destruct item as [[triple score] rank]. exists rank.
    apply lookup_union_Some_l. by apply searchResultBindings_rank.
Qed.

Lemma fullTextSearch_output_extends_input_witness :
  ∃ p mu,
    BGPStageBuilder.fullTextSearchParameters exampleStageEnv queryVariable_o rankedSearch
    = Return p
    ∧ mu ∈ Pipeline.toArray (Pipeline.of_ mu_ranked)
    ∧ _properties mu_ranked_out = _properties mu
    ∧ (noVariableValues mu →
       ∀ v t, _content mu !! v = Some t →
              (rdf.value <$> scoreVariable p) ≠ Some v →
              (rdf.value <$> rankVariable p) ≠ Some v →
              _content mu_ranked_out !! v = Some t)
    ∧ (∀ rv, addRank p = true → rankVariable p = Some rv →
             ∃ rank, _content mu_ranked_out !! rdf.value rv
                     = Some (createTypedLiteral exampleStageEnv rank
                               (XSD_integer exampleStageEnv))).
Proof.
  apply (fullTextSearch_output_extends_input exampleStageEnv (Pipeline.of_ mu_ranked)
           searchableGraph (mkTriple (var 20 "s") coauthorOf (var 22 "y")) queryVariable_o
           rankedSearch ExecutionContext.new
           (Pipeline.of_ mu_ranked_out)).
  - by vm_compute.
  - vm_compute. apply list_elem_of_here.
Defined.

(** *** The BGP stage: blank nodes and the choice of the graph *)

Section ReplaceBlankNodesFacts.

Lemma rewrite_spec (fresh : N) (vars : list Term) (term : Term) :
  Forall (fun v => (oid v < fresh)%N) vars →
  ∃ fresh' created t',
    BGPStageBuilder.rewrite (fresh, vars) term = (fresh', vars ++ created, t')
    ∧ Forall (fun v => (oid v < fresh')%N) (vars ++ created)
    ∧ rewritten term t'
    ∧ created = (if rdf.isBlankNode term then [t'] else [])
    ∧ rdf.isBlankNode t' = false.
Proof.
  intros Hinv. unfold BGPStageBuilder.rewrite, rewritten.
  destruct (rdf.isBlankNode term) eqn:E.
  - set (variable := mkTerm fresh (Var (JS.slice (rdf.value term) 2))).
    assert (Hnew : variable ∉ vars).
    { intros Hin. rewrite Forall_forall in Hinv. specialize (Hinv variable Hin).
      simpl in Hinv. lia. }
    rewrite bool_decide_eq_false_2 by done.
    exists (N.succ fresh), [variable], variable.
    refine (conj eq_refl (conj _ (conj eq_refl (conj eq_refl eq_refl)))).
    apply Forall_app. split.
    + eapply Forall_impl; [exact Hinv|]. simpl. intros; lia.
    + constructor; [simpl; lia|constructor].
  - exists fresh, [], term. rewrite app_nil_r.
    by refine (conj eq_refl (conj Hinv (conj eq_refl (conj eq_refl E)))).
Qed.

Lemma created_names (term t' : Term) :
  rewritten term t' →
  List.map rdf.value (if rdf.isBlankNode term then [t'] else [])
  = List.map (fun t => JS.slice (rdf.value t) 2) (List.filter rdf.isBlankNode [term]).
Proof.
  unfold rewritten. simpl. destruct (rdf.isBlankNode term); [|done].
  intros Hnode. simpl. unfold rdf.value at 1. by rewrite Hnode.
Qed.

Lemma created_variables (term t' : Term) :
  rewritten term t' →
  Forall (fun v => rdf.isVariable v = true) (if rdf.isBlankNode term then [t'] else []).
Proof.
  unfold rewritten. destruct (rdf.isBlankNode term); [|constructor].
  intros Hnode. constructor; [|constructor]. unfold rdf.isVariable. by rewrite Hnode.
Qed.

Lemma blankNodes_cons (p : Triple) (rest : list Triple) :
  blankNodes (p :: rest)
  = List.filter rdf.isBlankNode [subject p] ++ List.filter rdf.isBlankNode [predicate p]
    ++ List.filter rdf.isBlankNode [object p] ++ blankNodes rest.
Proof.
  unfold blankNodes, termsOf. simpl.
  by destruct (rdf.isBlankNode (subject p)), (rdf.isBlankNode (predicate p)),
    (rdf.isBlankNode (object p)).
Qed.

Lemma replaceFrom_spec (patterns : list Triple) :
  ∀ fresh vars,
    Forall (fun v => (oid v < fresh)%N) vars →
    ∃ fresh' created newBGP,
      BGPStageBuilder.replaceFrom (fresh, vars) patterns = (newBGP, (fresh', vars ++ created))
      ∧ Forall (fun v => (oid v < fresh')%N) (vars ++ created)
      ∧ Forall2 (fun p q => rewritten (subject p) (subject q)
                            ∧ rewritten (predicate p) (predicate q)
                            ∧ rewritten (object p) (object q)) patterns newBGP
      ∧ List.map rdf.value created
        = List.map (fun t => JS.slice (rdf.value t) 2) (blankNodes patterns)
      ∧ Forall (fun v => rdf.isVariable v = true) created
      ∧ blankNodes newBGP = [].
Proof.
  induction patterns as [|p rest IH]; intros fresh vars Hinv.
  - exists fresh, [], []. rewrite app_nil_r. simpl.
    by refine (conj eq_refl (conj Hinv (conj _ (conj eq_refl (conj _ eq_refl)))));
      constructor.
  - cbn [BGPStageBuilder.replaceFrom].
    destruct (rewrite_spec fresh vars (subject p) Hinv)
      as (f1 & c1 & s & E1 & Hinv1 & Hs & Hc1 & Hbs).
    destruct (rewrite_spec f1 (vars ++ c1) (predicate p) Hinv1)
      as (f2 & c2 & pr & E2 & Hinv2 & Hp & Hc2 & Hbp).
    destruct (rewrite_spec f2 ((vars ++ c1) ++ c2) (object p) Hinv2)
      as (f3 & c3 & o & E3 & Hinv3 & Ho & Hc3 & Hbo).
    destruct (IH f3 (((vars ++ c1) ++ c2) ++ c3) Hinv3)
      as (f4 & c4 & newBGP & E4 & Hinv4 & Hall & Hnames & Hvars & Hnone).
    rewrite E1. cbv beta iota. rewrite E2. cbv beta iota. rewrite E3. cbv beta iota.
    rewrite E4. cbv beta iota. clear E1 E2 E3 E4.
    exists f4, (c1 ++ c2 ++ c3 ++ c4), (mkTriple s pr o :: newBGP).
    rewrite <- !app_assoc in *.
    refine (conj eq_refl (conj Hinv4 (conj _ (conj _ (conj _ _))))).
    + by constructor.
    + rewrite blankNodes_cons, !List.map_app, Hnames, Hc1, Hc2, Hc3.
      by rewrite (created_names _ _ Hs), (created_names _ _ Hp), (created_names _ _ Ho).
    + rewrite Hc1, Hc2, Hc3. repeat (apply Forall_app; split); try done;
        by apply created_variables.
    + rewrite blankNodes_cons. simpl. by rewrite Hbs, Hbp, Hbo.
Qed.

End ReplaceBlankNodesFacts.

(** X21: [_replaceBlankNodes] returns a BGP without blank node in which
    every blank node became the variable named by its label without the
    first two characters and every other term is the object it was.  The
    list of new variables has one entry per occurrence of a blank node, in
    order: a blank node that occurs twice is listed twice, the variable
    created for it being a new object each time. *)
Theorem replaceBlankNodes_spec (fresh : N) (patterns : list Triple) :
  Forall2 (fun p q => rewritten (subject p) (subject q)
                      ∧ rewritten (predicate p) (predicate q)
                      ∧ rewritten (object p) (object q))
          patterns (fst (BGPStageBuilder._replaceBlankNodes fresh patterns))
  ∧ List.map rdf.value (snd (BGPStageBuilder._replaceBlankNodes fresh patterns))
    = List.map (fun t => JS.slice (rdf.value t) 2) (blankNodes patterns)
  ∧ Forall (fun v => rdf.isVariable v = true)
           (snd (BGPStageBuilder._replaceBlankNodes fresh patterns))
  ∧ blankNodes (fst (BGPStageBuilder._replaceBlankNodes fresh patterns)) = [].
Proof.
  unfold BGPStageBuilder._replaceBlankNodes.
  destruct (replaceFrom_spec patterns fresh [] (Forall_nil_2 _))
    as (fresh' & created & newBGP & -> & _ & Hall & Hnames & Hvars & Hnone).
  by simpl.
Qed.

Section ExecuteFacts.
Context (env : StageEnvironment) (rewritings : RewritingEnvironment) (dataset : Dataset).

Lemma replaceBlankNodes_names (fresh : N) (patterns : list Triple) :
  List.map rdf.value (snd (BGPStageBuilder._replaceBlankNodes fresh patterns))
  = List.map (fun t => JS.slice (rdf.value t) 2) (blankNodes patterns).
Proof.
  unfold BGPStageBuilder._replaceBlankNodes.
  destruct (replaceFrom_spec patterns fresh [] (Forall_nil_2 _))
    as (fresh' & created & newBGP & -> & _ & _ & Hnames & _). by simpl.
Qed.

(** What leaves the step that removes the artificial variables. *)
Lemma removeArtificials_output (artificals : list Term) (iterator : PipelineStage Bindings)
  (mu' : Bindings) :
  artificals ≠ [] →
  mu' ∈ Pipeline.toArray (BGPStageBuilder.removeArtificials artificals iterator) →
  _properties mu' = ∅
  ∧ ∀ name, name ∈ List.map rdf.value artificals → _content mu' !! name = None.
Proof.
  intros Hne. unfold BGPStageBuilder.removeArtificials.
  destruct artificals as [|a artificals]; [done|]. cbn [length Nat.ltb Nat.leb].
  intros Hout. apply elem_of_toArray_map in Hout as (b & _ & [= <-]).
  destruct (filter_spec b (fun variable _ =>
              negb (bool_decide (variable ∈ List.map rdf.value (a :: artificals)))))
    as [Hp Hc].
  split; [exact Hp|]. intros name Hname. rewrite Hc.
  destruct (_content b !! name); [|done].
  by rewrite bool_decide_eq_true_2.
Qed.

Lemma completes_mergeMap_false {T U} (s : PipelineStage T) (f : T → PipelineStage U) x :
  x ∈ Pipeline.toArray s → Pipeline.completes (f x) = false →
  Pipeline.completes (Pipeline.mergeMap s f) = false.
Proof.
  induction s as [|v rest IH|e]; simpl; intros Hin Hf.
  - by apply elem_of_nil in Hin.
  - rewrite completes_andThen. apply elem_of_cons in Hin as [->|Hin].
    + by rewrite Hf.
    + rewrite (IH Hin Hf). apply andb_false_r.
  - by apply elem_of_nil in Hin.
Qed.

End ExecuteFacts.

(** X22: when the BGP (hints and full-text-search triples set aside) holds
    a blank node, no mapping that leaves the BGP stage binds a name made
    from a blank node label, be it the artificial variable or a variable of
    the query that has this name, and every such mapping has an empty
    property bag. *)
Theorem execute_projects_artificial_variables (env : StageEnvironment)
  (rewritings : RewritingEnvironment) (dataset : Dataset) (fresh : N)
  (source : PipelineStage Bindings) (patterns : list Triple) (context : ExecutionContext)
  (stage : PipelineStage Bindings) (mu' : Bindings) :
  patterns ≠ [] →
  blankNodes (classicPatterns
                (extractFullTextSearchQueries rewritings
                   (fst (parseHints rewritings patterns (hints context))))) ≠ [] →
  snd (BGPStageBuilder.execute env rewritings dataset fresh source patterns context)
  = Return stage →
  mu' ∈ Pipeline.toArray stage →
  _properties mu' = ∅
  ∧ ∀ t, t ∈ blankNodes (classicPatterns
                           (extractFullTextSearchQueries rewritings
                              (fst (parseHints rewritings patterns (hints context))))) →
         _content mu' !! JS.slice (rdf.value t) 2 = None.
Proof.
  intros Hpatterns Hblank. unfold BGPStageBuilder.execute.
  destruct patterns as [|p patterns]; [done|].
  set (classic := classicPatterns _) in *.
  pose proof (replaceBlankNodes_names fresh classic) as Hnames.
  destruct (BGPStageBuilder._replaceBlankNodes fresh classic) as [bgp artificals].
  simpl in Hnames.
  assert (Hne : artificals ≠ []).
  { intros ->. simpl in Hnames. destruct (blankNodes classic); [done|discriminate Hnames]. }
  assert (Hgoal : ∀ iterator,
            mu' ∈ Pipeline.toArray (BGPStageBuilder.removeArtificials artificals iterator) →
            _properties mu' = ∅
            ∧ ∀ t, t ∈ blankNodes classic → _content mu' !! JS.slice (rdf.value t) 2 = None).
  { intros iterator Hout.
    destruct (removeArtificials_output artificals iterator mu' Hne Hout) as [Hp Hc].
    split; [exact Hp|]. intros t Ht. apply Hc. rewrite Hnames.
    apply list_elem_of_fmap. by exists t. }
  cbn [defaultGraphs].
  destruct (head (defaultGraphs context)) as [variable|] eqn:Hhead;
    [destruct (rdf.isVariable variable)|]; cbn [snd].
  - intros [= <-] Hout.
    apply elem_of_toArray_mergeMap in Hout as (value & _ & Hout).
    repeat case_match; try (by apply elem_of_nil in Hout); by eapply Hgoal.
  - destruct (BGPStageBuilder._getGraph dataset (defaultGraphs context)) as [graph|e]; [|done].
    destruct (BGPStageBuilder.searchAll env graph _ _ _) as [iterator|e]; [|done].
    intros [= <-]. apply Hgoal.
  - destruct (BGPStageBuilder.searchAll env _ _ _ _) as [iterator|e]; [|done].
    intros [= <-]. apply Hgoal.
Qed.

Lemma execute_projects_artificial_variables_witness :
  _properties (Bindings.set Bindings.empty "y" florian) = ∅
  ∧ ∀ t, t ∈ blankNodes (classicPatterns
                           (extractFullTextSearchQueries noRewritings
                              (fst (parseHints noRewritings [blankPattern]
                                      (hints ExecutionContext.new))))) →
         _content (Bindings.set Bindings.empty "y" florian) !! JS.slice (rdf.value t) 2 = None.
Proof.
  apply (execute_projects_artificial_variables exampleStageEnv noRewritings oneGraphDataset 100
           (Pipeline.of_ Bindings.empty) [blankPattern] ExecutionContext.new
           (Pipeline.of_ (Bindings.set Bindings.empty "y" florian))).
  - discriminate.
  - by vm_compute.
  - by vm_compute.
  - vm_compute. apply list_elem_of_here.
Defined.

(** X23: when the default graph of the context is a variable, building the
    BGP stage never throws, and the stage fails, rather than skipping the
    mapping, as soon as an input mapping does not bind that variable. *)
Theorem execute_variable_graph_unbound_fails (env : StageEnvironment)
  (rewritings : RewritingEnvironment) (dataset : Dataset) (fresh : N)
  (source : PipelineStage Bindings) (patterns : list Triple) (context : ExecutionContext)
  (variable : Term) (others : list Term) :
  patterns ≠ [] →
  defaultGraphs context = variable :: others →
  rdf.isVariable variable = true →
  ∃ stage,
    snd (BGPStageBuilder.execute env rewritings dataset fresh source patterns context)
    = Return stage
    ∧ ∀ mu, mu ∈ Pipeline.toArray source →
            _content mu !! rdf.value variable = None →
            Pipeline.completes stage = false.
Proof.
  intros Hpatterns Hgraphs Hvar. unfold BGPStageBuilder.execute.
  destruct patterns as [|p patterns]; [done|].
  destruct (BGPStageBuilder._replaceBlankNodes fresh _) as [bgp artificals].
  cbn [defaultGraphs]. rewrite Hgraphs. cbn [head]. rewrite Hvar. cbn [snd].
  eexists. split; [reflexivity|].
  intros mu Hmu Hunbound. apply (completes_mergeMap_false _ _ mu Hmu).
  unfold Bindings.get. rewrite Hunbound. cbv beta iota zeta.
  by rewrite List.filter_false.
Qed.

Lemma execute_variable_graph_unbound_fails_witness :
  ∃ stage,
    snd (BGPStageBuilder.execute exampleStageEnv noRewritings oneGraphDataset 100
           (Pipeline.of_ mu_s1) [pairPattern] variableGraphContext)
    = Return stage
    ∧ ∀ mu, mu ∈ Pipeline.toArray (Pipeline.of_ mu_s1) →
            _content mu !! rdf.value (var 50 "g") = None →
            Pipeline.completes stage = false.
Proof.
  apply (execute_variable_graph_unbound_fails exampleStageEnv noRewritings oneGraphDataset 100
           (Pipeline.of_ mu_s1) [pairPattern] variableGraphContext (var 50 "g") []).
  - discriminate.
  - reflexivity.
  - reflexivity.
Defined.

(** X24: when the default graph of the context is a variable, the
    full-text-search queries extracted from the BGP are not evaluated: the
    stage and the context are those of a BGP without any such query, even
    where a magic triple is malformed. *)
Theorem execute_variable_graph_skips_search (env : StageEnvironment)
  (rewritings rewritings' : RewritingEnvironment) (dataset : Dataset) (fresh : N)
  (source : PipelineStage Bindings) (patterns : list Triple) (context : ExecutionContext)
  (variable : Term) (others : list Term) :
  defaultGraphs context = variable :: others →
  rdf.isVariable variable = true →
  parseHints rewritings' = parseHints rewritings →
  (∀ ps, classicPatterns (extractFullTextSearchQueries rewritings' ps)
         = classicPatterns (extractFullTextSearchQueries rewritings ps)) →
  BGPStageBuilder.execute env rewritings' dataset fresh source patterns context
  = BGPStageBuilder.execute env rewritings dataset fresh source patterns context.
Proof.
  intros Hgraphs Hvar Hhints Hclassic. unfold BGPStageBuilder.execute.
  destruct patterns as [|p patterns]; [done|].
  rewrite Hhints, Hclassic.
  destruct (BGPStageBuilder._replaceBlankNodes fresh _) as [bgp artificals].
  cbn [defaultGraphs]. rewrite Hgraphs. cbn [head]. by rewrite Hvar.
Qed.

Lemma execute_variable_graph_skips_search_witness :
  BGPStageBuilder.execute exampleStageEnv searchRewritings oneGraphDataset 100
    (Pipeline.of_ mu_s1) [pairPattern] variableGraphContext
  = BGPStageBuilder.execute exampleStageEnv noRewritings oneGraphDataset 100
      (Pipeline.of_ mu_s1) [pairPattern] variableGraphContext
  ∧ ∃ e, snd (BGPStageBuilder.execute exampleStageEnv searchRewritings oneGraphDataset 100
                (Pipeline.of_ mu_s1) [pairPattern] ExecutionContext.new) = Throw e.
Proof.
  split.
  - apply (execute_variable_graph_skips_search exampleStageEnv noRewritings searchRewritings
             oneGraphDataset 100 (Pipeline.of_ mu_s1) [pairPattern] variableGraphContext
             (var 50 "g") []); reflexivity.
  - eexists. reflexivity.
Defined.

(** *** More on the plan builder *)

(** X25: in the plan of a query other than DESCRIBE the OFFSET is applied
    first and the LIMIT on top of it, both above the result form of the
    query (with its DISTINCT): the rows skipped are never counted in the
    limit. *)
Theorem offset_applied_before_limit (env : PlanEnvironment) (this : PlanBuilder)
  (depth : nat) (query : Query) (context : ExecutionContext) (source : option Plan)
  (plan : Plan) :
  String.eqb (queryType query) "DESCRIBE" = false →
  PlanBuilder._buildQueryPlan env this (S depth) query context source = Return plan →
  ∃ p,
    isResultForm p = true
    ∧ plan = match limit query with
             | Some n => Limit match offset query with Some m => Skip p m | None => p end n
             | None => match offset query with Some m => Skip p m | None => p end
             end.
Proof.
  intros Htype H. destruct query as [type pre fr vars wh tpl grp ord dis off lim].
  simpl in Htype. simpl in H. rewrite Htype in H.
  match type of H with
  | context [if (0 <? ?n)%nat then ?a else ?b] =>
      destruct (if (0 <? n)%nat then a else b) as [graphIterator|e]; [|discriminate H]
  end.
  match type of H with
  | context [let (_, _) := ?x in _] => set (parsed := x) in H
  end.
  assert (Hparsed : ∃ vars', fst parsed = mkQuery type pre fr vars' wh tpl grp ord dis off lim).
  { clear H. subst parsed. unfold setVariables.
    destruct vars as [[|v vs]|]; [simpl; eauto| |simpl; eauto].
    destruct v; simpl; eauto. }
  destruct parsed as [q variableExpressions]. destruct Hparsed as [vars' Hq].
  simpl in Hq. subst q. simpl in H.
  unfold PlanBuilder.requireStage, PlanBuilder.execute in H.
  repeat first
    [ match type of H with
      | context [if bool_decide ?P then _ else _] =>
          destruct (bool_decide P); simpl in H; try discriminate H
      end
    | match type of H with
      | context [match ?x with _ => _ end] =>
          is_var x; destruct x; simpl in H; try discriminate H
      end
    | match type of H with
      | context [match ?x with _ => _ end] =>
          destruct x eqn:?; simpl in H; try discriminate H
      end ];
    injection H as <-; eexists; (split; [|reflexivity]); reflexivity.
Qed.

Lemma offset_applied_before_limit_witness :
  ∃ p,
    isResultForm p = true
    ∧ Limit (Skip (Modifier "SELECT"
                     (Execute BGP (Some (EngineOf Bindings.empty)) (ArgTriples [pairPattern])
                        (Some (ExecutionContext.setProperty
                                 (ExecutionContext.setProperty ExecutionContext.new
                                    ContextSymbols.PREFIXES (CPrefixes ∅))
                                 ContextSymbols.HAS_LIMIT_OFFSET (CBool true))))
                     selectOffsetLimit) 5) 10
      = match limit selectOffsetLimit with
        | Some n =>
            Limit match offset selectOffsetLimit with Some m => Skip p m | None => p end n
        | None => match offset selectOffsetLimit with Some m => Skip p m | None => p end
        end.
Proof.
  apply (offset_applied_before_limit examplePlanEnv (PlanBuilder.new (fun q => q) ∅) 3
           selectOffsetLimit ExecutionContext.new None).
  - reflexivity.
  - by vm_compute.
Defined.




(** X27: a plan builder made by [new] and changed by [use], [useCache] and
    [disableCache] has a stage builder for every kind of operation: no
    check for a stage builder fails, every stage is delegated, and an
    update always gets its plan. *)
Theorem configured_builder_has_every_stage (env : PlanEnvironment) (this : PlanBuilder)
  (kind : SPARQL_OPERATION) :
  Configured this →
  (∀ message, PlanBuilder.requireStage this kind message = Return ())
  ∧ (∀ source argument context,
       PlanBuilder.execute this kind source argument context
       = Return (Execute kind source argument context))
  ∧ (∀ depth updates context,
       PlanBuilder.build env this depth (UpdateNode updates) (Some context)
       = Return (Execute UPDATE None (ArgUpdates updates) (Some context))).
Proof.
  intros Hthis.
  assert (Hall : ∀ k, k ∈ _stageBuilders this).
  { induction Hthis as [optimizer customFunctions|this k' _ IH|this [c|] _ IH|this _ IH];
      intros k; simpl; try apply IH.
    - destruct k; rewrite !elem_of_cons; naive_solver.
    - right. apply IH. }
  unfold PlanBuilder.build, PlanBuilder.requireStage, PlanBuilder.execute.
  rewrite !bool_decide_eq_true_2 by apply Hall. done.
Qed.

Lemma configured_builder_has_every_stage_witness :
  PlanBuilder.requireStage
    (PlanBuilder.disableCache (PlanBuilder.use cachingBuilder BGP)) PROPERTY_PATH "missing"
  = Return ().
Proof.
  apply (configured_builder_has_every_stage examplePlanEnv
           (PlanBuilder.disableCache (PlanBuilder.use cachingBuilder BGP)) PROPERTY_PATH).
  apply configured_disableCache, configured_use.
  apply (configured_useCache (PlanBuilder.new (fun q => q) ∅) None), configured_new.
Defined.

Section ValuesFacts.
Context (env : PlanEnvironment) (this : PlanBuilder).

Lemma mapThrowing_map {T U V} (f : T → Completion V) (g : U → Completion V) (h : T → U)
  (l : list T) :
  (∀ x, x ∈ l → f x = g (h x)) →
  PlanBuilder.mapThrowing f l = PlanBuilder.mapThrowing g (List.map h l).
Proof.
  induction l as [|x l IH]; intros Hext; simpl; [done|].
  rewrite (Hext x) by (by left). rewrite IH by (intros y Hy; apply Hext; by right). done.
Qed.

Lemma filter_idempotent {T} (p : T → bool) (l : list T) :
  List.filter p (List.filter p l) = List.filter p l.
Proof.
  induction l as [|x l IH]; simpl; [done|].
  destruct (p x) eqn:E; simpl; by rewrite ?E, IH.
Qed.

Lemma filter_complement {T} (p : T → bool) (l : list T) :
  List.filter p (List.filter (fun x => negb (p x)) l) = [].
Proof.
  induction l as [|x l IH]; simpl; [done|].
  destruct (p x) eqn:E; simpl; by rewrite ?E, IH.
Qed.

Lemma buildValues_unfold (depth : nat) (source : Plan) (groups : list Pattern)
  (context : ExecutionContext) :
  PlanBuilder._buildValues env this (S depth) source groups context
  = match
      PlanBuilder.mapThrowing
        (valuesClausePlan env this depth source
           (List.filter (fun g => negb (PlanBuilder.isValues g)) groups) context)
        (List.map (fun g => match g with ValuesPattern rows => rows | _ => [] end)
                  (List.filter PlanBuilder.isValues groups))
    with
    | Throw e => Throw e
    | Return [] => Throw (GenericError "TypeError: undefined iterator")
    | Return [iterator] => Return iterator
    | Return iterators => Return (Merge iterators)
    end.
Proof. reflexivity. Qed.

End ValuesFacts.

(** X28: with several VALUES clauses on one level, each clause is planned
    on its own, as if it were the only one beside the other groups, and the
    plan is the merge of these plans: the rows of two clauses are never
    combined in one branch. *)
Theorem buildValues_plans_each_clause_alone (env : PlanEnvironment) (this : PlanBuilder)
  (depth : nat) (source : Plan) (groups : list Pattern) (context : ExecutionContext) :
  PlanBuilder._buildValues env this (S depth) source groups context
  = match
      PlanBuilder.mapThrowing
        (fun clause =>
           PlanBuilder._buildValues env this (S depth) source
             (clause :: List.filter (fun g => negb (PlanBuilder.isValues g)) groups) context)
        (List.filter PlanBuilder.isValues groups)
    with
    | Throw e => Throw e
    | Return [] => Throw (GenericError "TypeError: undefined iterator")
    | Return [iterator] => Return iterator
    | Return iterators => Return (Merge iterators)
    end.
Proof.
  rewrite buildValues_unfold.
  set (others := List.filter (fun g => negb (PlanBuilder.isValues g)) groups).
  set (clauses := List.filter PlanBuilder.isValues groups).
  rewrite <- (mapThrowing_map
                (fun clause =>
                   PlanBuilder._buildValues env this (S depth) source (clause :: others) context)
                (valuesClausePlan env this depth source others context)
                (fun g => match g with ValuesPattern rows => rows | _ => [] end) clauses).
  - by destruct (PlanBuilder.mapThrowing _ clauses) as [[|it [|it' its]]|e].
  - intros clause Hclause. apply list_elem_of_In, List.filter_In in Hclause as [_ Hvalues].
    destruct clause; try discriminate Hvalues.
    rewrite buildValues_unfold. simpl. subst others.
    rewrite filter_idempotent, filter_complement. simpl.
    by destruct (valuesClausePlan _ _ _ _ _ _ values).
Qed.

(** *** The XML formatter *)

Section XmlFacts.




End XmlFacts.


(** *** The cache pointer across a plan *)

Section CacheFacts.
Context (env : PlanEnvironment) (this : PlanBuilder) (k : option BGPCache).

Lemma sharesCache_execute kind source argument context plan :
  (∀ s, source = Some s → sharesCache k s) →
  (∀ c, context = Some c → cache c = k) →
  PlanBuilder.execute this kind source argument context = Return plan →
  sharesCache k plan.
Proof.
  intros Hsource Hcontext. unfold PlanBuilder.execute.
  destruct (bool_decide _); [|done]. intros [= <-] c Hc. simpl in Hc.
  apply elem_of_app in Hc as [Hc|Hc].
  - destruct source as [s|]; [by apply (Hsource s)|by apply elem_of_nil in Hc].
  - destruct context as [c'|]; [|by apply elem_of_nil in Hc].
    apply list_elem_of_singleton in Hc as ->. by apply Hcontext.
Qed.

Lemma sharesCache_reduce {T} (f : Plan → T → Completion Plan) (xs : list T) :
  (∀ acc x acc', sharesCache k acc → f acc x = Return acc' → sharesCache k acc') →
  ∀ acc result,
    sharesCache k acc → PlanBuilder.reduceThrowing f xs acc = Return result →
    sharesCache k result.
Proof.
  intros Hf. induction xs as [|x xs IH]; simpl; intros acc result Hacc.
  - by intros [= <-].
  - destruct (f acc x) as [acc'|e] eqn:E; [|done]. apply IH. by eapply Hf.
Qed.

Lemma sharesCache_Merge (plans : list Plan) :
  Forall (sharesCache k) plans → sharesCache k (Merge plans).
Proof.
  induction 1 as [|p plans Hp _ IH]; intros c Hc; simpl in Hc.
  - by apply elem_of_nil in Hc.
  - apply elem_of_app in Hc as [Hc|Hc]; [by apply Hp|by apply IH].
Qed.

Lemma sharesCache_map {T} (f : T → Completion Plan) (xs : list T) (plans : list Plan) :
  (∀ x plan, f x = Return plan → sharesCache k plan) →
  PlanBuilder.mapThrowing f xs = Return plans →
  Forall (sharesCache k) plans.
Proof.
  intros Hf. revert plans. induction xs as [|x xs IH]; simpl; intros plans.
  - intros [= <-]. constructor.
  - destruct (f x) as [p|e] eqn:E; [|done].
    destruct (PlanBuilder.mapThrowing f xs) as [ps|e]; [|done].
    intros [= <-]. constructor; [by eapply Hf|by apply IH].
Qed.

End CacheFacts.

Section CacheInvariant.
Context (env : PlanEnvironment) (this : PlanBuilder) (k : option BGPCache) (depth : nat).

Hypothesis IHquery :
  ∀ query context source plan,
    cache context = k → (∀ s, source = Some s → sharesCache k s) →
    PlanBuilder._buildQueryPlan env this depth query context source = Return plan →
    sharesCache k plan.
Hypothesis IHwhere :
  ∀ source groups context plan,
    cache context = k → sharesCache k source →
    PlanBuilder._buildWhere env this depth source groups context = Return plan →
    sharesCache k plan.
Hypothesis IHgroup :
  ∀ source group context plan,
    cache context = k → sharesCache k source →
    PlanBuilder._buildGroup env this depth source group context = Return plan →
    sharesCache k plan.
Hypothesis IHvalues :
  ∀ source groups context plan,
    cache context = k → sharesCache k source →
    PlanBuilder._buildValues env this depth source groups context = Return plan →
    sharesCache k plan.

Lemma sharesCache_delegate kind message source group context plan :
  cache context = k → sharesCache k source →
  match PlanBuilder.requireStage this kind message with
  | Throw e => Throw e
  | Return _ =>
      PlanBuilder.execute this kind (Some source) (ArgPattern group)
        (Some (ExecutionContext.clone context))
  end = Return plan →
  sharesCache k plan.
Proof.
  intros Hcache Hsource. destruct (PlanBuilder.requireStage this kind message); [|done].
  apply sharesCache_execute.
  - by intros s [= <-].
  - by intros c [= <-].
Qed.

Lemma sharesCache_buildGroup source group context plan :
  cache context = k → sharesCache k source →
  PlanBuilder._buildGroup env this (S depth) source group context = Return plan →
  sharesCache k plan.
Proof.
  intros Hcache Hsource H. simpl in H.
  destruct group as [triples|patterns|patterns|patterns|patterns|name patterns
                    |name silent patterns|expression|variable expression|values|query|type];
    try discriminate H; try (by eapply sharesCache_delegate).
  - destruct (PlanBuilder.requireStage this BGP _); [|done].
    destruct (extractPropertyPaths env triples) as [[classicTriples pathTriples] tempVariables].
    match type of H with
    | context [if (0 <? length pathTriples)%nat then ?a else ?b] =>
        destruct (if (0 <? length pathTriples)%nat then a else b) as [source'|e] eqn:Epath;
          [|discriminate H]
    end.
    assert (Hsource' : sharesCache k source').
    { destruct (0 <? length pathTriples)%nat; [|by injection Epath as <-].
      destruct (PlanBuilder.requireStage this PROPERTY_PATH _); [|done].
      eapply sharesCache_execute; [| |exact Epath].
      - by intros s [= <-].
      - by intros c [= <-]. }
    destruct (PlanBuilder.execute this BGP _ _ _) as [iter|e] eqn:Ebgp; [|discriminate H].
    assert (Hiter : sharesCache k iter).
    { eapply sharesCache_execute; [| |exact Ebgp].
      - by intros s [= <-].
      - by intros c [= <-]. }
    by destruct (0 <? length tempVariables)%nat; injection H as <-.
  - by eapply IHwhere.
  - eapply IHquery; [| |exact H]; [done|]. by intros s [= <-].
Qed.

Lemma sharesCache_buildWhere source groups context plan :
  cache context = k → sharesCache k source →
  PlanBuilder._buildWhere env this (S depth) source groups context = Return plan →
  sharesCache k plan.
Proof.
  intros Hcache Hsource H. simpl in H.
  destruct (existsb PlanBuilder.isValues _).
  - by eapply IHvalues.
  - eapply sharesCache_reduce; [|exact Hsource|exact H].
    intros acc x acc' Hacc Hstep. cbv beta in Hstep. by eapply IHgroup.
Qed.

Lemma sharesCache_buildValues source groups context plan :
  cache context = k → sharesCache k source →
  PlanBuilder._buildValues env this (S depth) source groups context = Return plan →
  sharesCache k plan.
Proof.
  intros Hcache Hsource. rewrite buildValues_unfold.
  destruct (PlanBuilder.mapThrowing _ _) as [iterators|e] eqn:E; [|done].
  assert (Hall : Forall (sharesCache k) iterators).
  { eapply sharesCache_map; [|exact E]. intros rows clausePlan. unfold valuesClausePlan at 1.
    destruct (PlanBuilder.mapThrowing _ rows) as [branches|e] eqn:Erows; [|done].
    intros [= <-]. apply sharesCache_Merge.
    eapply sharesCache_map; [|exact Erows]. intros b branch. cbv beta.
    destruct (Bindings.fromValues b) as [bindings|e]; [|done].
    destruct (PlanBuilder._buildWhere env this depth source _ context) as [p|e] eqn:Ew;
      [|done].
    intros [= <-]. exact (IHwhere _ _ _ _ Hcache Hsource Ew). }
  destruct iterators as [|it [|it' its]]; [done| |].
  - intros [= <-]. by inversion Hall.
  - intros [= <-]. by apply sharesCache_Merge.
Qed.

Lemma sharesCache_buildQueryPlan query context source plan :
  cache context = k → (∀ s, source = Some s → sharesCache k s) →
  PlanBuilder._buildQueryPlan env this (S depth) query context source = Return plan →
  sharesCache k plan.
Proof.
  intros Hcache Hsource H.
  destruct query as [type pre fr vars wh tpl grp ord dis off lim]. simpl in H.
  assert (Hstart : sharesCache k match source with
                                 | Some s => s
                                 | None => EngineOf Bindings.empty
                                 end).
  { destruct source as [s|]; [by apply Hsource|]. intros c Hc. by apply elem_of_nil in Hc. }
  destruct (String.eqb type "DESCRIBE").
  { destruct vars as [vs|]; [|discriminate H].
    eapply IHquery; [| |exact H]; [exact Hcache|]. by intros s [= <-]. }
  match type of H with
  | context [if (0 <? ?n)%nat then ?a else ?b] =>
      destruct (if (0 <? n)%nat then a else b) as [g0|e] eqn:Ewhere; [|discriminate H]
  end.
  assert (Hg0 : sharesCache k g0).
  { destruct (0 <? _)%nat.
    - eapply IHwhere; [| |exact Ewhere]; [|exact Hstart]. by destruct fr as [[? ?]|].
    - injection Ewhere as <-. intros c Hc. by apply elem_of_nil in Hc. }
  match type of H with
  | context [let (_, _) := ?x in _] => destruct x as [q variableExpressions]
  end.
  match type of H with
  | context [if ?b then PlanBuilder.execute this AGGREGATE ?s ?a ?c else ?r] =>
      destruct (if b then PlanBuilder.execute this AGGREGATE s a c else r)
        as [g1|e] eqn:Eaggregate; [|discriminate H]
  end.
  assert (Hg1 : sharesCache k g1).
  { destruct (bool_decide (is_Some (group q)) || (0 <? length variableExpressions)%nat).
    - eapply sharesCache_execute; [| |exact Eaggregate].
      + by intros s [= <-].
      + intros c [= <-]. by destruct fr as [[? ?]|].
    - by injection Eaggregate as <-. }
  destruct (PlanBuilder.reduceThrowing _ variableExpressions g1) as [g2|e] eqn:Ebind;
    [|discriminate H].
  assert (Hg2 : sharesCache k g2).
  { eapply sharesCache_reduce; [|exact Hg1|exact Ebind].
    intros acc agg acc' Hacc Hstep. cbv beta in Hstep.
    destruct agg; (eapply sharesCache_execute; [| |exact Hstep]; [by intros s [= <-]|done]). }
  match type of H with
  | match ?x with Return _ => _ | Throw _ => _ end = _ =>
      destruct x as [g3|e] eqn:Eorder; [|discriminate H]
  end.
  assert (Hg3 : sharesCache k g3).
  { destruct (order q) as [o|]; [|by injection Eorder as <-].
    destruct (PlanBuilder.requireStage this ORDER_BY _); [|done].
    eapply sharesCache_execute; [| |exact Eorder]; [by intros s [= <-]|done]. }
  destruct (negb _); [discriminate H|].
  destruct (bool_decide (_ ∈ PlanBuilder.throwingModifiers)); [discriminate H|].
  match type of H with
  | match ?x with Return _ => _ | Throw _ => _ end = _ =>
      destruct x as [g4|e] eqn:Edistinct; [|discriminate H]
  end.
  assert (Hg4 : sharesCache k g4).
  { destruct (distinct q) as [d|]; [|by injection Edistinct as <-].
    destruct (PlanBuilder.requireStage this DISTINCT _); [|done].
    eapply sharesCache_execute; [| |exact Edistinct].
    - by intros s [= <-].
    - intros c [= <-]. by destruct fr as [[? ?]|]. }
  injection H as <-. by destruct (offset q), (limit q).
Qed.

End CacheInvariant.

Section CacheTheorem.
Context (env : PlanEnvironment) (this : PlanBuilder) (k : option BGPCache).

Lemma sharesCache_all (depth : nat) :
  (∀ query context source plan,
     cache context = k → (∀ s, source = Some s → sharesCache k s) →
     PlanBuilder._buildQueryPlan env this depth query context source = Return plan →
     sharesCache k plan)
  ∧ (∀ source groups context plan,
       cache context = k → sharesCache k source →
       PlanBuilder._buildWhere env this depth source groups context = Return plan →
       sharesCache k plan)
  ∧ (∀ source group context plan,
       cache context = k → sharesCache k source →
       PlanBuilder._buildGroup env this depth source group context = Return plan →
       sharesCache k plan)
  ∧ (∀ source groups context plan,
       cache context = k → sharesCache k source →
       PlanBuilder._buildValues env this depth source groups context = Return plan →
       sharesCache k plan).
Proof.
  induction depth as [|depth (IHq & IHw & IHg & IHv)].
  - by refine (conj _ (conj _ (conj _ _))).
  - refine (conj _ (conj _ (conj _ _))).
    + by apply sharesCache_buildQueryPlan.
    + by apply sharesCache_buildWhere.
    + by apply sharesCache_buildGroup.
    + by apply sharesCache_buildValues.
Qed.

End CacheTheorem.

(** X30: every context a plan hands to a stage builder carries the cache
    the plan was started with, that of the plan builder when [build] is
    given no context: no step of the planning (sub-queries, groups, VALUES
    rewriting, DESCRIBE rewriting) replaces or drops the cache, so that a
    BGP anywhere in the query is evaluated against the same cache. *)
Theorem plan_contexts_share_cache (env : PlanEnvironment) (this : PlanBuilder)
  (depth : nat) (query : Query) (context : option ExecutionContext) (plan : Plan) :
  PlanBuilder.build env this depth (QueryNode query) context = Return plan →
  ∀ c, c ∈ planContexts plan →
       cache c = match context with
                 | Some given => cache given
                 | None => _currentCache this
                 end.
Proof.
  unfold PlanBuilder.build. intros H.
  eapply (proj1 (sharesCache_all env this _ depth)); [| |exact H].
  - by destruct context.
  - intros s Hs. discriminate Hs.
Qed.

Lemma plan_contexts_share_cache_witness :
  Forall (fun c => cache c = _currentCache cachingBuilder) (planContexts nestedPlan).
Proof.
  apply Forall_forall.
  apply (plan_contexts_share_cache examplePlanEnv cachingBuilder 8 nestedQuery None nestedPlan).
  by vm_compute.
Defined.
